(** * Deployment-destination resolution of the Truffle commands

    A shallow embedding of [TruffleCommands] (contract deployment, RPC
    endpoint and private-key clipboard commands) and of
    [Project.getRPCAddress].

    Conventions.
    - A JavaScript string is a [string]: a sequence of code units, here
      restricted to the range 0..255.
    - A JavaScript [number] that holds a port or a network id is an
      integer ([N] for ports, [Z] for network ids).
    - An [async] function is a program of the monad [prog]: a tree of the
      calls it makes to the editor host and to the services of the
      extension, in the order in which the awaits sequence them.  Every such
      call is answered by the environment and may reject (throw).
    - Fire-and-forget notifications ([Telemetry.sendEvent], [Output.outputLine],
      [window.show...Message], whose promise the source never awaits) are
      recorded in the trace and do not throw. *)

From Stdlib Require Import List String Ascii ZArith NArith Bool Lia DecimalString.
Import ListNotations.
Local Open Scope string_scope.
Local Open Scope list_scope.

Set Implicit Arguments.
Set Warnings "-register-all".

(** ** ItemType.ts *)

Module ItemType.

Inductive t : Set :=
| NULLABLE
| COMMAND
| AZURE_BLOCKCHAIN_SERVICE
| AZURE_BLOCKCHAIN_PROJECT
| MEMBER
| AZURE_BLOCKCHAIN_NETWORK_NODE
| LOCAL_SERVICE
| LOCAL_PROJECT
| LOCAL_NETWORK_NODE.

Definition value (i : t) : N :=
  match i with
  | NULLABLE => 0
  | COMMAND => 2
  | AZURE_BLOCKCHAIN_SERVICE => 3
  | AZURE_BLOCKCHAIN_PROJECT => 7
  | MEMBER => 11
  | AZURE_BLOCKCHAIN_NETWORK_NODE => 22
  | LOCAL_SERVICE => 30
  | LOCAL_PROJECT => 31
  | LOCAL_NETWORK_NODE => 32
  end.

End ItemType.

(** ** Values thrown *)

Inductive Exn : Set :=
| JsError (message : string)      (* new Error(message) *)
| TypeError                       (* a method called on null or undefined *)
| Rejected (what : string).       (* whatever a callee outside this file throws *)

(** ** Tree items *)

(** [networkId: number | string]. *)
Inductive NetworkId : Set :=
| IdNumber (n : Z)
| IdString (s : string).

(** The two classes that extend the abstract class [NetworkNode]; only
    [LocalNetworkNode] has a [port]. *)
Inductive NetworkNodeClass : Set :=
| AzureBlockchainNetworkNode
| LocalNetworkNode (port : N).

(** A [NetworkNode].  [rpcAddress] is the string its [getRPCAddress()]
    resolves to (the class itself is declared outside the files at hand). *)
Record NetworkNode : Set := {
  nodeClass : NetworkNodeClass;
  label : string;
  networkId : NetworkId;
  rpcAddress : string
}.

(** An [ExtensionItem] with its children: a network node or an item of
    another class (service, project, member, ...). *)
Inductive ExtensionItem : Set :=
| OfNetworkNode (n : NetworkNode) (children : list ExtensionItem)
| OfOther (itemType : ItemType.t) (itemLabel : string) (children : list ExtensionItem).

Definition getChildren (i : ExtensionItem) : list ExtensionItem :=
  match i with
  | OfNetworkNode _ c => c
  | OfOther _ _ c => c
  end.

(** [child instanceof NetworkNode] *)
Definition instanceofNetworkNode (i : ExtensionItem) : bool :=
  match i with
  | OfNetworkNode _ _ => true
  | OfOther _ _ _ => false
  end.

(** [items.filter((child) => child instanceof NetworkNode) as NetworkNode[]] *)
Fixpoint filterNetworkNodes (items : list ExtensionItem) : list NetworkNode :=
  match items with
  | [] => []
  | OfNetworkNode n _ :: rest => n :: filterNetworkNodes rest
  | OfOther _ _ _ :: rest => filterNetworkNodes rest
  end.

(** [networkNode instanceof LocalNetworkNode && networkNode.port === p] *)
Definition isLocalNetworkNodeOnPort (n : NetworkNode) (p : N) : bool :=
  match nodeClass n with
  | LocalNetworkNode port => N.eqb port p
  | AzureBlockchainNetworkNode => false
  end.

(** ** Project.ts *)

Module Project.

(** [Project.getRPCAddress]: the address of the first network node among
    the children, the empty string when there is none. *)
Definition getRPCAddress (this : ExtensionItem) : string :=
  let networkNodes := filterNetworkNodes (getChildren this) in
  if Nat.eqb (List.length networkNodes) 0 then ""
  else match nth_error networkNodes 0 with
       | Some n => rpcAddress n
       | None => ""
       end.

End Project.

(** ** Truffle configuration networks *)

Record IProvider : Set := { url : option string }.

Record INetworkOption : Set := {
  provider : option IProvider;
  host : option string;
  port : option N;
  network_id : NetworkId
}.

Record INetwork : Set := {
  name : string;
  options : INetworkOption
}.

(** ** Deploy destinations and the closures they carry *)

(** The closures built with [bind] over the functions that deploy. *)
Inductive Cmd : Set :=
| deployToLocalGanache_bound (networkName truffleConfigPath url : string)
| deployToMainNetwork_bound (networkName truffleConfigPath : string)
| deployToNetwork_bound (networkName truffleConfigPath : string)
| createLocalGanacheNetwork_bound (node : NetworkNode) (truffleConfigPath : string)
| createNetwork_bound (node : NetworkNode) (truffleConfigPath : string).

(** The closures a destination of [deployContracts] can carry: one of the
    above, or [createNewDeploymentService.bind(undefined, truffleConfigPath)]. *)
Inductive TopCmd : Set :=
| createNewDeploymentService_bound (truffleConfigPath : string)
| Deploy (c : Cmd).

(** [IDeployDestination]; [F] is the set of closures [cmd] ranges over. *)
Record IDeployDestination (F : Set) : Set := {
  cmd : F;
  cwd : option string;
  description : option string;
  detail : option string;
  dlabel : string;
  dnetworkId : NetworkId
}.

Record IExtendedQuickPickItem : Set := {
  qdetail : string;
  extended : string;
  qlabel : string
}.

Record OZContractValidated : Set := {
  contractPath : string;
  isExistedOnDisk : bool;
  isHashValid : bool       (* truthiness of the optional field *)
}.

(** ** Calls answered by the environment

    One constructor per function of the editor host, of Node or of the
    services of the extension that the commands await or call; its index is
    the type of the answer.  The generic helper [showQuickPick<T>] has one
    constructor per type of item it is used at.  Constant arguments
    ([required.Scope.locally], [ignoreFocusOut: true]) are left out, and
    [new TruffleConfig(path).getNetworks()] is the single call
    [getNetworks path] (likewise [setNetworks]). *)

Inductive Call : Set -> Type :=
| getTruffleConfigUri : Call string
| getNetworks (truffleConfigPath : string) : Call (list INetwork)
| setNetworks (truffleConfigPath : string) (network : INetwork) : Call unit
| TreeManager_getItems : Call (list ExtensionItem)
| showQuickPick (items : list (IDeployDestination TopCmd)) (placeHolder : string)
  : Call (IDeployDestination TopCmd)
| showQuickPick_service (items : list (IDeployDestination Cmd)) (placeHolder : string)
  : Call (IDeployDestination Cmd)
| showQuickPick_mnemonic (items : list IExtendedQuickPickItem) (placeHolder : string)
  : Call IExtendedQuickPickItem
| checkAppsSilent (app : string) : Call bool
| installTruffle : Call unit
| isHdWalletProviderRequired : Call bool
| checkHdWalletProviderVersion : Call bool
| installTruffleHdWalletProvider : Call unit
| validateContracts : Call (list OZContractValidated)
| connectProject : Call ExtensionItem
| startGanacheServer (port : option N) : Call unit
| getTruffleNetwork (node : NetworkNode) : Call INetwork
| showConfirmPaidOperationDialog : Call unit
| fs_ensureDir (dir : string) : Call unit
| executeCommand (workingDirectory command : string) (args : list string) : Call unit
| ContractDB_updateContracts : Call unit
| writeToClipboard (text : string) : Call unit
| getExistedMnemonicPaths : Call (list string)
| getMnemonic (mnemonicPath : string) : Call string.

(** Notifications, recorded and never failing. *)
Inductive Effect : Set :=
| Telemetry_sendEvent (eventName : string) (properties : list (string * string))
| Telemetry_sendException (e : Exn)
| Output_outputLine (category message : string)
| window_showErrorMessage (message : string)
| window_showInformationMessage (message : string)
| window_withProgress (title : string).

Inductive Entry : Type :=
| Did (e : Effect)
| Called (X : Set) (c : Call X) (answer : Exn + X).

Definition Trace := list Entry.

(** The environment answers a call knowing what happened before it. *)
Definition Env := forall X : Set, Trace -> Call X -> Exn + X.

(** ** Programs *)

Inductive prog (A : Type) : Type :=
| Ret (a : A)
| Throw (e : Exn)
| Emit (e : Effect) (k : prog A)
| Await (X : Set) (c : Call X) (k : Exn + X -> prog A).

Arguments Ret {A} a.
Arguments Throw {A} e.
Arguments Emit {A} e k.
Arguments Await {A X} c k.

Fixpoint bind {A B : Type} (p : prog A) (f : A -> prog B) : prog B :=
  match p with
  | Ret a => f a
  | Throw e => Throw e
  | Emit e k => Emit e (bind k f)
  | Await c k => Await c (fun r => bind (k r) f)
  end.

(** [try { p } catch (error) { h error }] *)
Fixpoint tryCatch {A : Type} (p : prog A) (h : Exn -> prog A) : prog A :=
  match p with
  | Ret a => Ret a
  | Throw e => h e
  | Emit e k => Emit e (tryCatch k h)
  | Await c k => Await c (fun r => tryCatch (k r) h)
  end.

(** [await c]: the answer, or the rejection rethrown. *)
Definition call {X : Set} (c : Call X) : prog X :=
  Await c (fun r => match r with inl e => Throw e | inr x => Ret x end).

Definition emit (e : Effect) : prog unit := Emit e (Ret tt).

(** The value of a computation that can throw, run inside a program. *)
Definition lift {A : Type} (r : Exn + A) : prog A :=
  match r with inl e => Throw e | inr a => Ret a end.

Declare Scope prog_scope.
Delimit Scope prog_scope with prog.
Notation "x <- p ;; q" := (bind p (fun x => q))
  (at level 61, p at next level, right associativity) : prog_scope.
Notation "p ;; q" := (bind p (fun _ => q))
  (at level 61, right associativity) : prog_scope.
Local Open Scope prog_scope.

(** [for (x of l) { f x }] and [l.map(f)] with effects, in list order. *)
Fixpoint forEach {A : Type} (l : list A) (f : A -> prog unit) : prog unit :=
  match l with
  | [] => Ret tt
  | x :: rest => f x ;; forEach rest f
  end.

Fixpoint mapM {A B : Type} (f : A -> prog B) (l : list A) : prog (list B) :=
  match l with
  | [] => Ret []
  | x :: rest => y <- f x ;; ys <- mapM f rest ;; Ret (y :: ys)
  end.

(** [run env p past]: what [p] does after [past], and how it ends. *)
Fixpoint run {A : Type} (env : Env) (p : prog A) (past : Trace) : Trace * (Exn + A) :=
  match p with
  | Ret a => ([], inr a)
  | Throw e => ([], inl e)
  | Emit e k =>
      let (t, r) := run env k (past ++ [Did e]) in (Did e :: t, r)
  | Await c k =>
      let a := env _ past c in
      let (t, r) := run env (k a) (past ++ [Called c a]) in (Called c a :: t, r)
  end.

(** ** The regular expression of [localGanacheRegexp]

    The source builds it from the template literal
    [`127\.0\.0\.1\:${Constants.defaultLocalhostPort}`].  In a template
    literal a backslash before [.] or [:] is dropped, so the pattern
    handed to [RegExp] is [127.0.0.1:] followed by the port: its dots are
    wildcards.  [url.match] searches the whole string for it. *)

Inductive Atom : Set :=
| Lit (c : ascii)
| AnyChar.

(** [.] matches every character but a line terminator. *)
Definition isLineTerminator (c : ascii) : bool :=
  Ascii.eqb c "010"%char || Ascii.eqb c "013"%char.

Definition atomMatches (a : Atom) (c : ascii) : bool :=
  match a with
  | Lit x => Ascii.eqb x c
  | AnyChar => negb (isLineTerminator c)
  end.

(** A pattern source made of dots and of characters that stand for
    themselves (digits and the colon, here). *)
Definition compile (source : string) : list Atom :=
  map (fun c => if Ascii.eqb c "."%char then AnyChar else Lit c)
      (list_ascii_of_string source).

Fixpoint matchHere (pat : list Atom) (s : list ascii) : bool :=
  match pat, s with
  | [], _ => true
  | _ :: _, [] => false
  | a :: pat', c :: s' => atomMatches a c && matchHere pat' s'
  end.

Fixpoint search (pat : list Atom) (s : list ascii) : bool :=
  matchHere pat s ||
  match s with
  | [] => false
  | _ :: s' => search pat s'
  end.

(** [s.match(new RegExp(source, 'g'))] is not null. *)
Definition String_match (s source : string) : bool :=
  search (compile source) (list_ascii_of_string s).

(** [String(n)] for a non-negative integer (decimal digits below 10^21,
    which covers every port). *)
Definition Number_toString (n : N) : string :=
  NilZero.string_of_uint (N.to_uint n).

(** Truthiness of a string and of a number. *)
Definition truthy (s : string) : bool := negb (String.eqb s "").
Definition truthyN (n : N) : bool := negb (N.eqb n 0).

(** [a || b] on strings. *)
Definition orElse (a b : string) : string := if truthy a then a else b.

(** ** What the commands take from the rest of the extension *)

(** The members of the class [Constants] that the commands read. *)
Record ConstantsT : Set := {
  defaultLocalhostPort : N;
  uiCommandStrings_createProject : string;
  placeholders_selectDeployDestination : string;
  placeholders_selectMnemonicExtractKey : string;
  informationMessage_rpcEndpointCopiedToClipboard : string;
  informationMessage_privateKeyWasCopiedToClipboard : string;
  errorMessageStrings_ThereAreNoMnemonics : string;
  errorMessageStrings_MnemonicFileHaveNoText : string;
  errorMessageStrings_InvalidMnemonic : string;
  statusBarMessages_deployingContracts : string -> string;
  openZeppelin_validHashMessage : string -> string;
  openZeppelin_invalidHashMessage : string -> string;
  openZeppelin_contractNotExistedOnDisk : string -> string;
  validationMessages_openZeppelinFilesAreInvalid : list string -> string
}.

(** Pure functions of Node, of the key-derivation libraries and of the
    helpers of the extension, with the values of [RequiredApps] in use.
    [GanacheService_getPortFromUrl] answers a number or nothing (the source
    asserts the port with [port!], which checks nothing at run time).  A
    library function that can throw answers in [Exn + _]. *)
Record Library : Type := {
  Buffer : Type;
  HDKey : Type;
  RequiredApps_truffle : string;
  path_dirname : string -> string;
  Telemetry_obfuscate : string -> string;
  GanacheService_getPortFromUrl : string -> option N;
  MnemonicRepository_MaskMnemonic : string -> string;
  bip39_mnemonicToSeed : string -> Exn + Buffer;
  hdkey_fromMasterSeed : Buffer -> Exn + HDKey;
  hdkey_derive : HDKey -> string -> Exn + HDKey;
  hdkey_privateKey : HDKey -> option Buffer;     (* null when absent *)
  Buffer_toString_hex : Buffer -> string
}.

(** ** The functions of the file around the namespace *)

Section Functions.

Variable Constants : ConstantsT.
Variable Lib : Library.

(** The cooked template literal handed to [new RegExp(..., 'g')]. *)
Definition localGanacheRegexp : string :=
  ("127.0.0.1:" ++ Number_toString (defaultLocalhostPort Constants))%string.

Definition sendEvent (eventName : string) : prog unit :=
  emit (Telemetry_sendEvent eventName []).

(** [command.description || ''] *)
Definition descriptionOrEmpty (F : Set) (d : IDeployDestination F) : string :=
  match description d with
  | Some s => orElse s ""
  | None => ""
  end.

Definition validateOpenZeppelinContracts : prog unit :=
  validatedContracts <- call validateContracts ;;
  forEach validatedContracts (fun ozContract =>
    if isExistedOnDisk ozContract
    then emit (Output_outputLine ""
                 (if isHashValid ozContract
                  then openZeppelin_validHashMessage Constants (contractPath ozContract)
                  else openZeppelin_invalidHashMessage Constants (contractPath ozContract)))
    else emit (Output_outputLine ""
                 (openZeppelin_contractNotExistedOnDisk Constants (contractPath ozContract)))) ;;
  let invalidContractsPaths :=
    map contractPath
        (filter (fun ozContract =>
                   negb (isExistedOnDisk ozContract) || negb (isHashValid ozContract))
                validatedContracts) in
  if negb (Nat.eqb (List.length invalidContractsPaths) 0)
  then
    let errorMsg :=
      validationMessages_openZeppelinFilesAreInvalid Constants invalidContractsPaths in
    let error := JsError errorMsg in
    emit (window_showErrorMessage errorMsg) ;;
    emit (Telemetry_sendException error) ;;
    Throw error
  else Ret tt.

Definition getDefaultDeployDestinations (truffleConfigPath : string)
  : list (IDeployDestination TopCmd) :=
  [ {| cmd := createNewDeploymentService_bound truffleConfigPath;
       cwd := None;
       description := None;
       detail := None;
       dlabel := uiCommandStrings_createProject Constants;
       dnetworkId := IdString "*" |} ].

(** [networkId === 1 || networkId === '1'] *)
Definition isMainNetworkId (id : NetworkId) : bool :=
  match id with
  | IdNumber n => Z.eqb n 1
  | IdString s => String.eqb s "1"
  end.

Definition getTruffleDeployFunction
  (url name truffleConfigPath : string) (networkId : NetworkId) : prog Cmd :=
  if String_match url localGanacheRegexp
  then
    sendEvent "TruffleCommands.getTruffleDeployFunction.returnDeployToLocalGanache" ;;
    Ret (deployToLocalGanache_bound name truffleConfigPath url)
  else if isMainNetworkId networkId
  then
    sendEvent "TruffleCommands.getTruffleDeployFunction.returnDeployToMainNetwork" ;;
    Ret (deployToMainNetwork_bound name truffleConfigPath)
  else
    sendEvent "TruffleCommands.getTruffleDeployFunction.returnDeployToNetwork" ;;
    Ret (deployToNetwork_bound name truffleConfigPath).

Definition getServiceCreateFunction
  (networkNode : NetworkNode) (truffleConfigPath : string) : prog Cmd :=
  if isLocalNetworkNodeOnPort networkNode (defaultLocalhostPort Constants)
  then
    sendEvent "TruffleCommands.getServiceCreateFunction.returnCreateLocalGanacheNetwork" ;;
    Ret (createLocalGanacheNetwork_bound networkNode truffleConfigPath)
  else
    sendEvent "TruffleCommands.getServiceCreateFunction.returnCreateService" ;;
    Ret (createNetwork_bound networkNode truffleConfigPath).

(** The [url] computed for a network of the configuration:
    [`${provider ? provider.url : ''}` || `${host ? host : ''}${port ? ':' + port : ''}`]. *)
Definition networkUrl (o : INetworkOption) : string :=
  orElse
    match provider o with
    | Some p => match url p with Some u => u | None => "undefined" end
    | None => ""
    end
    ((match host o with
      | Some h => if truthy h then h else ""
      | None => ""
      end ++
      match port o with
      | Some p => if truthyN p then ":" ++ Number_toString p else ""
      | None => ""
      end)%string).

(** The loop pushes one destination per network, in the order of the
    configuration. *)
Definition getTruffleDeployDestinations (truffleConfigPath : string)
  : prog (list (IDeployDestination TopCmd)) :=
  networksFromConfig <- call (getNetworks truffleConfigPath) ;;
  mapM (fun network =>
          let options := options network in
          let url := networkUrl options in
          f <- getTruffleDeployFunction url (name network) truffleConfigPath
                 (network_id options) ;;
          Ret {| cmd := Deploy f;
                 cwd := Some (path_dirname Lib truffleConfigPath);
                 description := Some url;
                 detail := Some "From truffle-config.js";
                 dlabel := name network;
                 dnetworkId := network_id options |})
       networksFromConfig.

Definition getTreeDeployDestinations (truffleConfigPath : string)
  : prog (list (IDeployDestination TopCmd)) :=
  services <- call TreeManager_getItems ;;
  let projects :=
    fold_left (fun res service => res ++ getChildren service) services [] in
  let networks :=
    fold_left (fun res project => res ++ filterNetworkNodes (getChildren project))
              projects [] in
  mapM (fun network =>
          f <- getServiceCreateFunction network truffleConfigPath ;;
          Ret {| cmd := Deploy f;
                 cwd := None;
                 description := Some (rpcAddress network);
                 detail := Some "Tree Item";
                 dlabel := label network;
                 dnetworkId := networkId network |})
       networks.

(** [window.withProgress(options, task)] runs [task] under a progress
    notification: the notification is recorded, then the task runs. *)
Definition deployToNetwork (networkName truffleConfigPath : string) : prog unit :=
  emit (window_withProgress (statusBarMessages_deployingContracts Constants networkName)) ;;
  let workspaceRoot := path_dirname Lib truffleConfigPath in
  call (fs_ensureDir workspaceRoot) ;;
  call (executeCommand workspaceRoot "npx"
          [RequiredApps_truffle Lib; "migrate"; "--reset"; "--network"; networkName]) ;;
  call ContractDB_updateContracts.

Definition createNetwork (networkNode : NetworkNode) (truffleConfigPath : string)
  : prog unit :=
  network <- call (getTruffleNetwork networkNode) ;;
  call (setNetworks truffleConfigPath network) ;;
  deployToNetwork (name network) truffleConfigPath.

(** A [LocalNetworkNode] passes its own port; a node of another class has
    none to pass. *)
Definition createLocalGanacheNetwork (localNetworkNode : NetworkNode)
  (truffleConfigPath : string) : prog unit :=
  call (startGanacheServer
          match nodeClass localNetworkNode with
          | LocalNetworkNode port => Some port
          | AzureBlockchainNetworkNode => None
          end) ;;
  createNetwork localNetworkNode truffleConfigPath.

Definition deployToLocalGanache (networkName truffleConfigPath url : string)
  : prog unit :=
  let port := GanacheService_getPortFromUrl Lib url in
  call (startGanacheServer port) ;;
  deployToNetwork networkName truffleConfigPath.

Definition deployToMainNetwork (networkName truffleConfigPath : string) : prog unit :=
  call showConfirmPaidOperationDialog ;;
  deployToNetwork networkName truffleConfigPath.

(** Calling a closure built with [bind]. *)
Definition invoke (c : Cmd) : prog unit :=
  match c with
  | deployToLocalGanache_bound n p u => deployToLocalGanache n p u
  | deployToMainNetwork_bound n p => deployToMainNetwork n p
  | deployToNetwork_bound n p => deployToNetwork n p
  | createLocalGanacheNetwork_bound node p => createLocalGanacheNetwork node p
  | createNetwork_bound node p => createNetwork node p
  end.

(** The callbacks of [networks.map] each push their destination once the
    address of their node is there.  The address is a field of the node
    here, there at once: the pushes are done when the quick pick opens,
    and the list is complete and in the order of the nodes. *)
Definition createNewDeploymentService (truffleConfigPath : string) : prog unit :=
  sendEvent "TruffleCommands.createNewDeploymentService.commandStarted" ;;
  project <- call connectProject ;;
  let networks := filterNetworkNodes (getChildren project) in
  let deployDestination :=
    map (fun network =>
           {| cmd := createNetwork_bound network truffleConfigPath;
              cwd := None;
              description := Some (rpcAddress network);
              detail := Some "Tree Item";
              dlabel := label network;
              dnetworkId := networkId network |})
        networks in
  command <- call (showQuickPick_service deployDestination
                     (placeholders_selectDeployDestination Constants)) ;;
  emit (Telemetry_sendEvent
          "TruffleCommands.deployContracts.createNewDeploymentService.selectedDestination"
          [("url", Telemetry_obfuscate Lib (descriptionOrEmpty command))]) ;;
  invoke (cmd command).

Definition invokeTop (c : TopCmd) : prog unit :=
  match c with
  | createNewDeploymentService_bound p => createNewDeploymentService p
  | Deploy c' => invoke c'
  end.

End Functions.

(** ** The namespace [TruffleCommands] *)

Module TruffleCommands.

Section Commands.

Variable Constants : ConstantsT.
Variable Lib : Library.

Definition deployContracts : prog unit :=
  sendEvent "TruffleCommands.deployContracts.commandStarted" ;;
  truffleConfigsUri <- call getTruffleConfigUri ;;
  let defaultDeployDestinations := getDefaultDeployDestinations Constants truffleConfigsUri in
  truffleDeployDestinations <- getTruffleDeployDestinations Constants Lib truffleConfigsUri ;;
  treeDeployDestinations <- getTreeDeployDestinations Constants truffleConfigsUri ;;
  let deployDestinations :=
    (([] ++ defaultDeployDestinations) ++ truffleDeployDestinations)
      ++ treeDeployDestinations in
  let uniqueDestinations := filter (fun _ => true) deployDestinations in
  command <- call (showQuickPick uniqueDestinations
                     (placeholders_selectDeployDestination Constants)) ;;
  emit (Telemetry_sendEvent "TruffleCommands.deployContracts.selectedDestination"
          [("url", Telemetry_obfuscate Lib (descriptionOrEmpty command))]) ;;
  hasTruffle <- call (checkAppsSilent (RequiredApps_truffle Lib)) ;;
  (if negb hasTruffle
   then sendEvent "TruffleCommands.deployContracts.installTruffle" ;;
        call installTruffle
   else Ret tt) ;;
  required <- call isHdWalletProviderRequired ;;
  versionOk <- (if required then call checkHdWalletProviderVersion else Ret true) ;;
  (if required && negb versionOk
   then sendEvent "TruffleCommands.deployContracts.installTruffleHdWalletProvider" ;;
        call installTruffleHdWalletProvider
   else Ret tt) ;;
  validateOpenZeppelinContracts Constants ;;
  invokeTop Constants Lib (cmd command) ;;
  sendEvent "TruffleCommands.deployContracts.commandFinished".

Definition writeRPCEndpointAddressToBuffer (projectView : ExtensionItem) : prog unit :=
  sendEvent "TruffleCommands.writeRPCEndpointAddressToBuffer.commandStarted" ;;
  let rpcEndpointAddress := Project.getRPCAddress projectView in
  emit (Telemetry_sendEvent "TruffleCommands.writeRPCEndpointAddressToBuffer.getRPCAddress"
          [("data", Telemetry_obfuscate Lib rpcEndpointAddress)]) ;;
  if truthy rpcEndpointAddress
  then call (writeToClipboard rpcEndpointAddress) ;;
       emit (window_showInformationMessage
               (informationMessage_rpcEndpointCopiedToClipboard Constants))
  else Ret tt.

(** The items of the quick pick: one per saved mnemonic path. *)
Definition mnemonicItems : prog (list IExtendedQuickPickItem) :=
  paths <- call getExistedMnemonicPaths ;;
  mapM (fun mnemonicPath =>
          savedMnemonic <- call (getMnemonic mnemonicPath) ;;
          Ret {| qdetail := mnemonicPath;
                 extended := savedMnemonic;
                 qlabel := MnemonicRepository_MaskMnemonic Lib savedMnemonic |})
       paths.

(** The body of the [try] block. *)
Definition copyPrivateKey (mnemonic : string) : prog unit :=
  buffer <- lift (bip39_mnemonicToSeed Lib mnemonic) ;;
  key <- lift (hdkey_fromMasterSeed Lib buffer) ;;
  childKey <- lift (hdkey_derive Lib key "m/44'/60'/0'/0/0") ;;
  privateKey <- match hdkey_privateKey Lib childKey with
                | Some b => Ret (Buffer_toString_hex Lib b)
                | None => Throw TypeError
                end ;;
  call (writeToClipboard privateKey) ;;
  emit (window_showInformationMessage
          (informationMessage_privateKeyWasCopiedToClipboard Constants)).

Definition getPrivateKeyFromMnemonic : prog unit :=
  sendEvent "TruffleCommands.getPrivateKeyFromMnemonic.commandStarted" ;;
  mnemonicItems <- mnemonicItems ;;
  if Nat.eqb (List.length mnemonicItems) 0
  then
    sendEvent "TruffleCommands.getPrivateKeyFromMnemonic.thereAreNoMnemonics" ;;
    emit (window_showErrorMessage (errorMessageStrings_ThereAreNoMnemonics Constants))
  else
    mnemonicItem <- call (showQuickPick_mnemonic mnemonicItems
                            (placeholders_selectMnemonicExtractKey Constants)) ;;
    let mnemonic := extended mnemonicItem in
    if negb (truthy mnemonic)
    then
      sendEvent "TruffleCommands.getPrivateKeyFromMnemonic.mnemonicFileHaveNoText" ;;
      emit (window_showErrorMessage (errorMessageStrings_MnemonicFileHaveNoText Constants))
    else
      tryCatch (copyPrivateKey mnemonic)
        (fun error =>
           emit (Telemetry_sendException error) ;;
           emit (window_showErrorMessage (errorMessageStrings_InvalidMnemonic Constants))) ;;
      sendEvent "TruffleCommands.getPrivateKeyFromMnemonic.commandFinished".

End Commands.

End TruffleCommands.

(** ** Reading a trace *)

Definition succeeded (X : Set) (a : Exn + X) : bool :=
  match a with inr _ => true | inl _ => false end.

(** The lists handed to the quick pick of [deployContracts]. *)
Definition offered (t : Trace) : list (list (IDeployDestination TopCmd)) :=
  flat_map (fun e =>
              match e with
              | Called c _ =>
                  match c with
                  | showQuickPick items _ => [items]
                  | _ => []
                  end
              | Did _ => []
              end) t.

(** The texts handed to [vscodeEnvironment.writeToClipboard]. *)
Definition clipboardWrites (t : Trace) : list string :=
  flat_map (fun e =>
              match e with
              | Called c _ =>
                  match c with
                  | writeToClipboard text => [text]
                  | _ => []
                  end
              | Did _ => []
              end) t.

Definition shows (message : Effect) (t : Trace) : Prop := In (Did message) t.

(** A step of [deployToNetwork]: its progress notification, the directory
    check, the migration and the refresh of the contract database. *)
Definition isDeployToNetworkStep (e : Entry) : bool :=
  match e with
  | Did (window_withProgress _) => true
  | Did _ => false
  | Called c _ =>
      match c with
      | fs_ensureDir _ | executeCommand _ _ _ | ContractDB_updateContracts => true
      | _ => false
      end
  end.

(** A step that only a deployment strategy makes: those of
    [deployToNetwork], and what the strategies do before it. *)
Definition isStrategyStep (e : Entry) : bool :=
  isDeployToNetworkStep e ||
  match e with
  | Did _ => false
  | Called c _ =>
      match c with
      | startGanacheServer _ | showConfirmPaidOperationDialog | getTruffleNetwork _
      | setNetworks _ _ | connectProject | showQuickPick_service _ _ => true
      | _ => false
      end
  end.

Definition isRegistration (e : Entry) : bool :=
  match e with
  | Called c _ => match c with setNetworks _ _ => true | _ => false end
  | Did _ => false
  end.

(** The confirmation dialog has completed. *)
Definition confirmed (e : Entry) : bool :=
  match e with
  | Called c a =>
      match c with showConfirmPaidOperationDialog => true | _ => false end && succeeded a
  | Did _ => false
  end.

Definition optionN_eqb (a b : option N) : bool :=
  match a, b with
  | Some x, Some y => N.eqb x y
  | None, None => true
  | _, _ => false
  end.

(** The Ganache server has been started on [port]. *)
Definition startedGanache (port : option N) (e : Entry) : bool :=
  match e with
  | Called c a =>
      match c with startGanacheServer p => optionN_eqb p port | _ => false end
      && succeeded a
  | Did _ => false
  end.

(** The network has been written to the truffle configuration at [path]. *)
Definition registered (path : string) (e : Entry) : bool :=
  match e with
  | Called c a =>
      match c with setNetworks p _ => String.eqb p path | _ => false end && succeeded a
  | Did _ => false
  end.

(** Every [step] of the trace comes after a [guard]. *)
Definition precedes (guard step : Entry -> bool) (t : Trace) : Prop :=
  forall before e after,
    t = before ++ e :: after -> step e = true -> existsb guard before = true.

Fixpoint guardedb (guard step : Entry -> bool) (t : Trace) : bool :=
  match t with
  | [] => true
  | e :: t' =>
      if step e then false
      else if guard e then true
      else guardedb guard step t'
  end.

(** ** What the pattern of [localGanacheRegexp] accepts *)

Definition notLineTerminator (c : ascii) : Prop :=
  c <> "010"%char /\ c <> "013"%char.

(** [url] contains [127], [0], [0] and [1:port] separated by one
    character each, any character that does not end a line. *)
Definition LocalGanacheUrl (port : N) (url : string) : Prop :=
  exists (pre post : string) (a b c : ascii),
    notLineTerminator a /\ notLineTerminator b /\ notLineTerminator c /\
    url = (pre ++ "127" ++ String a ("0" ++ String b ("0" ++ String c
             ("1:" ++ Number_toString port ++ post))))%string.

(** [networkId === 1 || networkId === '1'] as a proposition. *)
Definition MainNetworkId (id : NetworkId) : Prop :=
  id = IdNumber 1 \/ id = IdString "1".

(** The network nodes below the services of the tree: the children of
    the children of the services, in order. *)
Definition treeNetworkNodes (services : list ExtensionItem) : list NetworkNode :=
  flat_map (fun service =>
              flat_map (fun project => filterNetworkNodes (getChildren project))
                       (getChildren service))
           services.

(** A validated contract that is missing on disk or has an invalid hash. *)
Definition isInvalidContract (c : OZContractValidated) : bool :=
  negb (isExistedOnDisk c) || negb (isHashValid c).

(** The lists that [OpenZeppelinService.validateContracts] answered. *)
Definition validations (t : Trace) : list (list OZContractValidated) :=
  flat_map (fun e =>
              match e with
              | Called c a =>
                  match c in Call X return Exn + X -> list (list OZContractValidated) with
                  | validateContracts =>
                      fun a => match a with inr l => [l] | inl _ => [] end
                  | _ => fun _ => []
                  end a
              | Did _ => []
              end) t.

(** The items the user picked among the mnemonics. *)
Definition pickedMnemonics (t : Trace) : list IExtendedQuickPickItem :=
  flat_map (fun e =>
              match e with
              | Called c a =>
                  match c in Call X return Exn + X -> list IExtendedQuickPickItem with
                  | showQuickPick_mnemonic _ _ =>
                      fun a => match a with inr i => [i] | inl _ => [] end
                  | _ => fun _ => []
                  end a
              | Did _ => []
              end) t.

Definition isValidation (e : Entry) : bool :=
  match e with
  | Called c _ => match c with validateContracts => true | _ => false end
  | Did _ => false
  end.

(** The quick pick of [deployContracts] opens. *)
Definition isOffer (e : Entry) : bool :=
  match e with
  | Called c _ => match c with showQuickPick _ _ => true | _ => false end
  | Did _ => false
  end.

Definition isClipboardWrite (e : Entry) : bool :=
  match e with
  | Called c _ => match c with writeToClipboard _ => true | _ => false end
  | Did _ => false
  end.

Definition isMnemonicPick (e : Entry) : bool :=
  match e with
  | Called c _ => match c with showQuickPick_mnemonic _ _ => true | _ => false end
  | Did _ => false
  end.

(** Entries that are neither a step of a deployment strategy nor an answer
    of the contract validation. *)
Definition preparatory (e : Entry) : bool :=
  negb (isStrategyStep e) && negb (isValidation e).

(** Entries that neither write to the clipboard nor pick a mnemonic. *)
Definition silent (e : Entry) : bool :=
  negb (isClipboardWrite e) && negb (isMnemonicPick e).

(** One of the library calls of the key derivation throws for [mnemonic]
    (reading the private key of a key that has none counts as one). *)
Definition derivationThrows (L : Library) (mnemonic : string) : Prop :=
  match bip39_mnemonicToSeed L mnemonic with
  | inl _ => True
  | inr seed =>
      match hdkey_fromMasterSeed L seed with
      | inl _ => True
      | inr key =>
          match hdkey_derive L key "m/44'/60'/0'/0/0" with
          | inl _ => True
          | inr childKey => hdkey_privateKey L childKey = None
          end
      end
  end.

(** ** Reasoning about every run of a program *)

(** Every entry that [p] can leave in a trace satisfies [P], whatever the
    environment answers. *)
Fixpoint only (P : Entry -> bool) (A : Type) (p : prog A) : Prop :=
  match p with
  | Ret _ => True
  | Throw _ => True
  | Emit e k => P (Did e) = true /\ only P k
  | Await c k => forall a, P (Called c a) = true /\ only P (k a)
  end.

(** The outcome of [p] after [past] satisfies [Q]. *)
Definition satisfies (A : Type) (env : Env) (p : prog A) (past : Trace)
  (Q : Trace -> Exn + A -> Prop) : Prop :=
  Q (fst (run env p past)) (snd (run env p past)).

(** ** A concrete host, for running the commands *)

Module Sample.

Definition constants : ConstantsT :=
  {| defaultLocalhostPort := 8545;
     uiCommandStrings_createProject := "Create a new network";
     placeholders_selectDeployDestination := "Select deploy destination";
     placeholders_selectMnemonicExtractKey := "Select mnemonic to extract key";
     informationMessage_rpcEndpointCopiedToClipboard := "RPCEndpointAddress copied to clipboard";
     informationMessage_privateKeyWasCopiedToClipboard := "Private key was copied to clipboard";
     errorMessageStrings_ThereAreNoMnemonics := "There are no mnemonics";
     errorMessageStrings_MnemonicFileHaveNoText := "Mnemonic file have no text";
     errorMessageStrings_InvalidMnemonic := "Invalid mnemonic";
     statusBarMessages_deployingContracts := fun n => ("Deploying contracts to " ++ n)%string;
     openZeppelin_validHashMessage := fun p => (p ++ " - valid hash")%string;
     openZeppelin_invalidHashMessage := fun p => (p ++ " - invalid hash")%string;
     openZeppelin_contractNotExistedOnDisk := fun p => (p ++ " - not existed on disk")%string;
     validationMessages_openZeppelinFilesAreInvalid :=
       fun paths => ("OpenZeppelin files are invalid: " ++ String.concat ", " paths)%string |}.

(** Buffers and keys as tagged strings: enough to follow a derivation. *)
Definition library : Library :=
  {| Buffer := string;
     HDKey := string;
     RequiredApps_truffle := "truffle";
     path_dirname := fun _ => "/ws";
     Telemetry_obfuscate := fun _ => "***";
     GanacheService_getPortFromUrl := fun _ => Some 8545%N;
     MnemonicRepository_MaskMnemonic := fun _ => "... ...";
     bip39_mnemonicToSeed :=
       fun m => if String.eqb m "not a mnemonic" then inl (JsError "Invalid mnemonic")
                else inr ("seed(" ++ m ++ ")")%string;
     hdkey_fromMasterSeed := fun b => inr ("master(" ++ b ++ ")")%string;
     hdkey_derive := fun k p => inr (k ++ "/" ++ p)%string;
     hdkey_privateKey := fun k => Some k;
     Buffer_toString_hex := fun b => ("hex(" ++ b ++ ")")%string |}.

(** What the world answers in one run. *)
Record Scenario : Set := {
  networks : list INetwork;
  services : list ExtensionItem;
  pick : nat;                                 (* index chosen in a quick pick *)
  confirm : bool;                             (* the paid operation is confirmed *)
  contracts : list OZContractValidated;
  mnemonicPaths : list string;
  mnemonic : string                           (* the text of every mnemonic file *)
}.

Definition configPath : string := "/ws/truffle-config.js".

Definition cancelled : Exn := Rejected "CancellationEvent".

Definition picked (X : Set) (items : list X) (i : nat) : Exn + X :=
  match nth_error items i with
  | Some x => inr x
  | None => inl cancelled
  end.

Definition env (s : Scenario) : Env :=
  fun X _ c =>
    match c in Call X return Exn + X with
    | getTruffleConfigUri => inr configPath
    | getNetworks _ => inr (networks s)
    | setNetworks _ _ => inr tt
    | TreeManager_getItems => inr (services s)
    | showQuickPick items _ => picked items (pick s)
    | showQuickPick_service items _ => picked items (pick s)
    | showQuickPick_mnemonic items _ => picked items (pick s)
    | checkAppsSilent _ => inr true
    | installTruffle => inr tt
    | isHdWalletProviderRequired => inr false
    | checkHdWalletProviderVersion => inr true
    | installTruffleHdWalletProvider => inr tt
    | validateContracts => inr (contracts s)
    | connectProject => inr (OfOther ItemType.LOCAL_PROJECT "local" [])
    | startGanacheServer _ => inr tt
    | getTruffleNetwork node =>
        inr {| name := label node;
               options := {| provider := None; host := None; port := None;
                             network_id := networkId node |} |}
    | showConfirmPaidOperationDialog => if confirm s then inr tt else inl cancelled
    | fs_ensureDir _ => inr tt
    | executeCommand _ _ _ => inr tt
    | ContractDB_updateContracts => inr tt
    | writeToClipboard _ => inr tt
    | getExistedMnemonicPaths => inr (mnemonicPaths s)
    | getMnemonic _ => inr (mnemonic s)
    end.

Definition network (n h : string) (p : N) (id : NetworkId) : INetwork :=
  {| name := n;
     options := {| provider := None; host := Some h; port := Some p; network_id := id |} |}.

Definition localNode : NetworkNode :=
  {| nodeClass := LocalNetworkNode 8545;
     label := "development";
     networkId := IdString "*";
     rpcAddress := "http://127.0.0.1:8545" |}.

Definition azureNode : NetworkNode :=
  {| nodeClass := AzureBlockchainNetworkNode;
     label := "member1";
     networkId := IdString "*";
     rpcAddress := "https://member1.blockchain.azure.com:3200/key" |}.

Definition localProject : ExtensionItem :=
  OfOther ItemType.LOCAL_PROJECT "local"
          [OfOther ItemType.MEMBER "m" []; OfNetworkNode localNode []; OfNetworkNode azureNode []].

Definition emptyProject : ExtensionItem := OfOther ItemType.LOCAL_PROJECT "empty" [].

Definition localService : ExtensionItem :=
  OfOther ItemType.LOCAL_SERVICE "Local Service" [localProject].

(** The quiet world: nothing configured, everything confirmed. *)
Definition quiet : Scenario :=
  {| networks := []; services := []; pick := 0; confirm := true;
     contracts := []; mnemonicPaths := []; mnemonic := "" |}.

(** A configuration that lists the local chain twice, under two names. *)
Definition twoNames : Scenario :=
  {| networks := [network "development" "127.0.0.1" 8545 (IdString "*");
                  network "ganache" "127.0.0.1" 8545 (IdString "*")];
     services := []; pick := 1; confirm := true;
     contracts := []; mnemonicPaths := []; mnemonic := "" |}.

(** A tree with one local service. *)
Definition withTree : Scenario :=
  {| networks := []; services := [localService]; pick := 1; confirm := true;
     contracts := []; mnemonicPaths := []; mnemonic := "" |}.

(** Two OpenZeppelin contracts, one of them changed on disk. *)
Definition changedContract : Scenario :=
  {| networks := [network "development" "127.0.0.1" 8545 (IdString "*")];
     services := []; pick := 1; confirm := true;
     contracts := [ {| contractPath := "contracts/Ownable.sol";
                       isExistedOnDisk := true; isHashValid := true |};
                    {| contractPath := "contracts/ERC20.sol";
                       isExistedOnDisk := true; isHashValid := false |} ];
     mnemonicPaths := []; mnemonic := "" |}.

(** One saved mnemonic. *)
Definition oneMnemonic : Scenario :=
  {| networks := []; services := []; pick := 0; confirm := true;
     contracts := []; mnemonicPaths := ["/home/user/.mnemonic.env"];
     mnemonic := "test test test" |}.

Definition mnemonicItem : IExtendedQuickPickItem :=
  {| qdetail := "/home/user/.mnemonic.env";
     extended := "test test test";
     qlabel := "... ..." |}.

End Sample.

(** * The rest of the commands *)

(** ** extension.ts: how a command is run *)

(** What the handler of [tryExecute] reads from a caught value.  An
    [Error] built by this code or by the engine is no [CancellationEvent]
    and an [Error] built with [new Error(m)] has the message [m]; for a
    value thrown elsewhere both are given from outside. *)
Record Thrown : Set := {
  isCancellationEvent : string -> bool;
  foreignMessage : Exn -> string
}.

(** [error instanceof CancellationEvent] *)
Definition instanceofCancellationEvent (T : Thrown) (error : Exn) : bool :=
  match error with
  | Rejected what => isCancellationEvent T what
  | JsError _ => false
  | TypeError => false
  end.

(** [error.message] *)
Definition Exn_message (T : Thrown) (error : Exn) : string :=
  match error with
  | JsError m => m
  | _ => foreignMessage T error
  end.

(** [tryExecute(func, errorMessage = null)] *)
Definition tryExecute (T : Thrown) (A : Type) (func : prog A)
  (errorMessage : option string) : prog unit :=
  tryCatch (func ;; Ret tt)
    (fun error =>
       if instanceofCancellationEvent T error then Ret tt
       else emit (window_showErrorMessage
                    match errorMessage with
                    | Some m => orElse m (Exn_message T error)
                    | None => Exn_message T error
                    end)).

(** The handler that [activate] registers for [deployContracts]. *)
Module Extension.

Section Handlers.

Variable T : Thrown.
Variable Constants : ConstantsT.
Variable Lib : Library.

(** [truffle.deployContracts] *)
Definition deployContracts : prog unit :=
  tryExecute T (TruffleCommands.deployContracts Constants Lib) None.

End Handlers.

End Extension.

(** ** Further readings of a trace *)

Definition isErrorMessage (e : Entry) : bool :=
  match e with
  | Did (window_showErrorMessage _) => true
  | _ => false
  end.

(** The messages shown with [window.showErrorMessage]. *)
Definition errorMessages (t : Trace) : list string :=
  flat_map (fun e =>
              match e with
              | Did (window_showErrorMessage m) => [m]
              | _ => []
              end) t.

Definition isInstallTruffle (e : Entry) : bool :=
  match e with
  | Called c _ => match c with installTruffle => true | _ => false end
  | Did _ => false
  end.

(** [required.checkAppsSilent] answered that the application is missing. *)
Definition foundMissing (e : Entry) : bool :=
  match e with
  | Called c a =>
      match c in Call X return Exn + X -> bool with
      | checkAppsSilent _ => fun a => match a with inr false => true | _ => false end
      | _ => fun _ => false
      end a
  | Did _ => false
  end.

Definition isInstallHdWalletProvider (e : Entry) : bool :=
  match e with
  | Called c _ => match c with installTruffleHdWalletProvider => true | _ => false end
  | Did _ => false
  end.

Definition isVersionCheck (e : Entry) : bool :=
  match e with
  | Called c _ => match c with checkHdWalletProviderVersion => true | _ => false end
  | Did _ => false
  end.

(** [required.isHdWalletProviderRequired] answered yes. *)
Definition providerRequired (e : Entry) : bool :=
  match e with
  | Called c a =>
      match c in Call X return Exn + X -> bool with
      | isHdWalletProviderRequired =>
          fun a => match a with inr true => true | _ => false end
      | _ => fun _ => false
      end a
  | Did _ => false
  end.

(** [required.checkHdWalletProviderVersion] answered no. *)
Definition versionRefused (e : Entry) : bool :=
  match e with
  | Called c a =>
      match c in Call X return Exn + X -> bool with
      | checkHdWalletProviderVersion =>
          fun a => match a with inr false => true | _ => false end
      | _ => fun _ => false
      end a
  | Did _ => false
  end.

(** The validation answered a list without an invalid contract. *)
Definition validationPassed (e : Entry) : bool :=
  match e with
  | Called c a =>
      match c in Call X return Exn + X -> bool with
      | validateContracts =>
          fun a => match a with
                   | inr l => negb (existsb isInvalidContract l)
                   | inl _ => false
                   end
      | _ => fun _ => false
      end a
  | Did _ => false
  end.

Definition isEvent (eventName : string) (e : Entry) : bool :=
  match e with
  | Did (Telemetry_sendEvent n _) => String.eqb n eventName
  | _ => false
  end.


(** The quick pick of [deployContracts] rejected with these values. *)
Definition offerRejections (t : Trace) : list Exn :=
  flat_map (fun e =>
              match e with
              | Called c a =>
                  match c in Call X return Exn + X -> list Exn with
                  | showQuickPick _ _ =>
                      fun a => match a with inl e => [e] | inr _ => [] end
                  | _ => fun _ => []
                  end a
              | Did _ => []
              end) t.

(** A check or an installation of a required application. *)
Definition isRequirementStep (e : Entry) : bool :=
  match e with
  | Called c _ =>
      match c with
      | checkAppsSilent _ | installTruffle | isHdWalletProviderRequired
      | checkHdWalletProviderVersion | installTruffleHdWalletProvider => true
      | _ => false
      end
  | Did _ => false
  end.

Definition isCheckApps (e : Entry) : bool :=
  match e with
  | Called c _ => match c with checkAppsSilent _ => true | _ => false end
  | Did _ => false
  end.

(** The line that [validateOpenZeppelinContracts] writes to the output
    channel for one validated contract. *)
Definition contractReport (C : ConstantsT) (ozContract : OZContractValidated) : Entry :=
  Did (Output_outputLine ""
         (if isExistedOnDisk ozContract
          then if isHashValid ozContract
               then openZeppelin_validHashMessage C (contractPath ozContract)
               else openZeppelin_invalidHashMessage C (contractPath ozContract)
          else openZeppelin_contractNotExistedOnDisk C (contractPath ozContract))).

(** The message of the error thrown for invalid contracts. *)
Definition invalidContractsMessage (C : ConstantsT) (l : list OZContractValidated)
  : string :=
  validationMessages_openZeppelinFilesAreInvalid C
    (map contractPath (filter isInvalidContract l)).

Fixpoint strings_eqb (a b : list string) : bool :=
  match a, b with
  | [], [] => true
  | x :: a', y :: b' => String.eqb x y && strings_eqb a' b'
  | _, _ => false
  end.

Definition isExecuteCommand (e : Entry) : bool :=
  match e with
  | Called c _ => match c with executeCommand _ _ _ => true | _ => false end
  | Did _ => false
  end.

(** The call [npx <truffle> migrate --reset --network <network>] in [dir]. *)
Definition isMigration (dir truffle network : string) (e : Entry) : bool :=
  match e with
  | Called c _ =>
      match c with
      | executeCommand wd command args =>
          String.eqb wd dir && String.eqb command "npx"
          && strings_eqb args [truffle; "migrate"; "--reset"; "--network"; network]
      | _ => false
      end
  | Did _ => false
  end.

(** That call has completed. *)
Definition migrated (dir truffle network : string) (e : Entry) : bool :=
  isMigration dir truffle network e
  && match e with Called _ a => succeeded a | Did _ => false end.

(** [fs.ensureDir(dir)] has completed. *)
Definition ensuredDir (dir : string) (e : Entry) : bool :=
  match e with
  | Called c a =>
      match c with fs_ensureDir d => String.eqb d dir | _ => false end && succeeded a
  | Did _ => false
  end.

Definition isUpdateContracts (e : Entry) : bool :=
  match e with
  | Called c _ => match c with ContractDB_updateContracts => true | _ => false end
  | Did _ => false
  end.

(** [ContractDB.updateContracts()] has completed. *)
Definition updatedContracts (e : Entry) : bool :=
  isUpdateContracts e && match e with Called _ a => succeeded a | Did _ => false end.

(** A write to the clipboard was rejected. *)
Definition rejectedWrite (e : Entry) : bool :=
  match e with
  | Called c a =>
      match c with writeToClipboard _ => true | _ => false end && negb (succeeded a)
  | Did _ => false
  end.




(** ** The commands that work on the files of the workspace

    [buildContracts], [writeAbiToBuffer], [writeBytecodeToBuffer] and
    [readCompiledContract] make calls that the commands above do not make:
    they ask for the workspace root, read a file, show the output channel
    and hand a value of type [any] to the clipboard.  Their programs are
    trees over the calls above ([host]) and these. *)

Module Workspace.

Section Values.

(** The JavaScript values that [JSON.parse] produces and that property
    access and [JSON.stringify] work on ([undefined] among them). *)
Variable V : Set.

Inductive WCall : Set -> Type :=
| host (X : Set) (c : Call X) : WCall X
| getWorkspaceRoot : WCall string
| fs_readFileSync (fsPath : string) : WCall string    (* the text of the buffer read *)
| writeValueToClipboard (value : V) : WCall unit.

Inductive WEffect : Set :=
| notify (e : Effect)
| Output_show.

Inductive WEntry : Type :=
| WDid (e : WEffect)
| WCalled (X : Set) (c : WCall X) (answer : Exn + X).

Definition WEnv := forall X : Set, list WEntry -> WCall X -> Exn + X.

Inductive wprog (A : Type) : Type :=
| wRet (a : A)
| wThrow (e : Exn)
| wEmit (e : WEffect) (k : wprog A)
| wAwait (X : Set) (c : WCall X) (k : Exn + X -> wprog A).

Arguments wRet {A} a.
Arguments wThrow {A} e.
Arguments wEmit {A} e k.
Arguments wAwait {A X} c k.

Fixpoint wbind {A B : Type} (p : wprog A) (f : A -> wprog B) : wprog B :=
  match p with
  | wRet a => f a
  | wThrow e => wThrow e
  | wEmit e k => wEmit e (wbind k f)
  | wAwait c k => wAwait c (fun r => wbind (k r) f)
  end.

Definition wcall {X : Set} (c : WCall X) : wprog X :=
  wAwait c (fun r => match r with inl e => wThrow e | inr x => wRet x end).

Definition wemit (e : WEffect) : wprog unit := wEmit e (wRet tt).

Definition wlift {A : Type} (r : Exn + A) : wprog A :=
  match r with inl e => wThrow e | inr a => wRet a end.

Fixpoint wrun {A : Type} (env : WEnv) (p : wprog A) (past : list WEntry)
  : list WEntry * (Exn + A) :=
  match p with
  | wRet a => ([], inr a)
  | wThrow e => ([], inl e)
  | wEmit e k =>
      let (t, r) := wrun env k (past ++ [WDid e]) in (WDid e :: t, r)
  | wAwait c k =>
      let a := env _ past c in
      let (t, r) := wrun env (k a) (past ++ [WCalled c a]) in (WCalled c a :: t, r)
  end.

(** What these commands take from Node, from [JSON] and from [Constants]. *)
Record Files : Type := {
  path_extname : string -> string;
  JSON_parse : string -> Exn + V;
  JSON_stringify : V -> V;
  getProperty : V -> string -> Exn + V;      (* throws on null and undefined *)
  contractExtension_json : string;
  contractProperties_abi : string;
  contractProperties_bytecode : string;
  errorMessageStrings_InvalidContract : string;
  statusBarMessages_buildingContracts : string
}.

Variable F : Files.
Variable Lib : Library.

Local Notation "x <- p ;; q" := (wbind p (fun x => q))
  (at level 61, p at next level, right associativity).
Local Notation "p ;; q" := (wbind p (fun _ => q))
  (at level 61, right associativity).

Definition wsendEvent (eventName : string) : wprog unit :=
  wemit (notify (Telemetry_sendEvent eventName [])).

(** [uri] stands for [uri.fsPath]. *)
Definition readCompiledContract (uri : string) : wprog V :=
  if negb (String.eqb (path_extname F uri) (contractExtension_json F))
  then
    let error := JsError (errorMessageStrings_InvalidContract F) in
    wemit (notify (Telemetry_sendException error)) ;;
    wThrow error
  else
    data <- wcall (fs_readFileSync uri) ;;
    wlift (JSON_parse F data).

Definition buildContracts : wprog unit :=
  wsendEvent "TruffleCommands.buildContracts.commandStarted" ;;
  wemit (notify (window_withProgress (statusBarMessages_buildingContracts F))) ;;
  hasTruffle <- wcall (host (checkAppsSilent (RequiredApps_truffle Lib))) ;;
  (if negb hasTruffle
   then wsendEvent "TruffleCommands.buildContracts.truffleInstallation" ;;
        wcall (host installTruffle)
   else wRet tt) ;;
  wemit Output_show ;;
  workspaceRoot <- wcall getWorkspaceRoot ;;
  wcall (host (executeCommand workspaceRoot "npx" [RequiredApps_truffle Lib; "compile"])) ;;
  wsendEvent "TruffleCommands.buildContracts.commandFinished".

Definition writeAbiToBuffer (uri : string) : wprog unit :=
  wsendEvent "TruffleCommands.writeAbiToBuffer.commandStarted" ;;
  contract <- readCompiledContract uri ;;
  abi <- wlift (getProperty F contract (contractProperties_abi F)) ;;
  wcall (writeValueToClipboard (JSON_stringify F abi)) ;;
  wsendEvent "TruffleCommands.writeAbiToBuffer.commandFinished".

Definition writeBytecodeToBuffer (uri : string) : wprog unit :=
  wsendEvent "TruffleCommands.writeBytecodeToBuffer.commandStarted" ;;
  contract <- readCompiledContract uri ;;
  bytecode <- wlift (getProperty F contract (contractProperties_bytecode F)) ;;
  wcall (writeValueToClipboard bytecode) ;;
  wsendEvent "TruffleCommands.writeBytecodeToBuffer.commandFinished".

(** *** Reading their traces *)

Definition wsucceeded (X : Set) (a : Exn + X) : bool :=
  match a with inr _ => true | inl _ => false end.

(** The values handed to the clipboard. *)
Definition clipboardValues (t : list WEntry) : list V :=
  flat_map (fun e =>
              match e with
              | WCalled c _ =>
                  match c with writeValueToClipboard v => [v] | _ => [] end
              | WDid _ => []
              end) t.

(** The texts that [fs.readFileSync] answered for [uri]. *)
Definition textsRead (uri : string) (t : list WEntry) : list string :=
  flat_map (fun e =>
              match e with
              | WCalled c a =>
                  match c in WCall X return Exn + X -> list string with
                  | fs_readFileSync p =>
                      fun a => match a with
                               | inr data => if String.eqb p uri then [data] else []
                               | inl _ => []
                               end
                  | _ => fun _ => []
                  end a
              | WDid _ => []
              end) t.

Definition isWEvent (eventName : string) (e : WEntry) : bool :=
  match e with
  | WDid (notify (Telemetry_sendEvent n _)) => String.eqb n eventName
  | _ => false
  end.

Definition isCompile (e : WEntry) : bool :=
  match e with
  | WCalled c _ =>
      match c with
      | host c' => match c' with executeCommand _ _ _ => true | _ => false end
      | _ => false
      end
  | WDid _ => false
  end.

(** The roots that [getWorkspaceRoot] answered. *)
Definition workspaceRoots (t : list WEntry) : list string :=
  flat_map (fun e =>
              match e with
              | WCalled c a =>
                  match c in WCall X return Exn + X -> list string with
                  | getWorkspaceRoot =>
                      fun a => match a with inr root => [root] | inl _ => [] end
                  | _ => fun _ => []
                  end a
              | WDid _ => []
              end) t.

(** The commands executed, each with its directory and arguments. *)
Definition commandsExecuted (t : list WEntry) : list (string * string * list string) :=
  flat_map (fun e =>
              match e with
              | WCalled c _ =>
                  match c with
                  | host c' =>
                      match c' with
                      | executeCommand wd command args => [(wd, command, args)]
                      | _ => []
                      end
                  | _ => []
                  end
              | WDid _ => []
              end) t.

Definition isWInstallTruffle (e : WEntry) : bool :=
  match e with
  | WCalled c _ =>
      match c with
      | host c' => match c' with installTruffle => true | _ => false end
      | _ => false
      end
  | WDid _ => false
  end.

(** Truffle is there: the silent check found it, or its installation
    completed. *)
Definition truffleReady (e : WEntry) : bool :=
  match e with
  | WCalled c a =>
      match c in WCall X return Exn + X -> bool with
      | host c' =>
          match c' in Call X return Exn + X -> bool with
          | checkAppsSilent _ => fun a => match a with inr true => true | _ => false end
          | installTruffle => fun a => wsucceeded a
          | _ => fun _ => false
          end
      | _ => fun _ => false
      end a
  | WDid _ => false
  end.

(** The silent check answered that truffle is missing. *)
Definition truffleMissing (e : WEntry) : bool :=
  match e with
  | WCalled c a =>
      match c in WCall X return Exn + X -> bool with
      | host c' =>
          match c' in Call X return Exn + X -> bool with
          | checkAppsSilent _ => fun a => match a with inr false => true | _ => false end
          | _ => fun _ => false
          end
      | _ => fun _ => false
      end a
  | WDid _ => false
  end.

(** Every [step] of the list comes after a [guard]. *)
Definition comesAfter (guard step : WEntry -> bool) (t : list WEntry) : Prop :=
  forall before e after,
    t = before ++ e :: after -> step e = true -> existsb guard before = true.

Fixpoint comesAfterb (guard step : WEntry -> bool) (t : list WEntry) : bool :=
  match t with
  | [] => true
  | e :: t' =>
      if step e then false
      else if guard e then true
      else comesAfterb guard step t'
  end.

End Values.

Arguments WDid {V} e.
Arguments getWorkspaceRoot {V}.
Arguments fs_readFileSync {V} fsPath.
Arguments host {V X} c.

End Workspace.

(** ** More of the sample host *)

Module Sample2.

(** A [CancellationEvent] is the value thrown under that name. *)
Definition thrown : Thrown :=
  {| isCancellationEvent := String.eqb "CancellationEvent";
     foreignMessage := fun _ => "Something went wrong" |}.

(** The user dismisses every quick pick. *)
Definition dismissed : Sample.Scenario :=
  {| Sample.networks := []; Sample.services := []; Sample.pick := 7;
     Sample.confirm := true; Sample.contracts := []; Sample.mnemonicPaths := [];
     Sample.mnemonic := "" |}.

(** One saved mnemonic file, empty. *)
Definition emptyMnemonic : Sample.Scenario :=
  {| Sample.networks := []; Sample.services := []; Sample.pick := 0;
     Sample.confirm := true; Sample.contracts := [];
     Sample.mnemonicPaths := ["/home/user/.mnemonic.env"]; Sample.mnemonic := "" |}.

Definition emptyItem : IExtendedQuickPickItem :=
  {| qdetail := "/home/user/.mnemonic.env"; extended := ""; qlabel := "... ..." |}.

(** Truffle is not installed. *)
Definition withoutTruffle (s : Sample.Scenario) : Env :=
  fun X past c =>
    match c in Call X0 return Exn + X0 with
    | checkAppsSilent _ => inr false
    | c0 => Sample.env s past c0
    end.

(** The HD wallet provider is required and its version is refused. *)
Definition outdatedProvider (s : Sample.Scenario) : Env :=
  fun X past c =>
    match c in Call X0 return Exn + X0 with
    | isHdWalletProviderRequired => inr true
    | checkHdWalletProviderVersion => inr false
    | c0 => Sample.env s past c0
    end.

(** The clipboard cannot be written. *)
Definition lockedClipboard (s : Sample.Scenario) : Env :=
  fun X past c =>
    match c in Call X0 return Exn + X0 with
    | writeToClipboard _ => inl (Rejected "clipboard")
    | c0 => Sample.env s past c0
    end.


Definition loopback : INetworkOption :=
  {| provider := None; host := Some "127.0.0.1"; port := Some 8545%N;
     network_id := IdNumber 1 |}.

Definition localhost : INetworkOption :=
  {| provider := None; host := Some "localhost"; port := Some 8545%N;
     network_id := IdString "*" |}.

(** Values as their JSON text. *)
Definition files : Workspace.Files string :=
  {| Workspace.path_extname :=
       fun p => if String.eqb p "build/contracts/Token.json" then ".json" else ".sol";
     Workspace.JSON_parse := fun text => inr text;
     Workspace.JSON_stringify := fun v => ("stringify(" ++ v ++ ")")%string;
     Workspace.getProperty := fun v k => inr (v ++ "." ++ k)%string;
     Workspace.contractExtension_json := ".json";
     Workspace.contractProperties_abi := "abi";
     Workspace.contractProperties_bytecode := "bytecode";
     Workspace.errorMessageStrings_InvalidContract := "This file is not a valid contract";
     Workspace.statusBarMessages_buildingContracts := "Building contracts" |}.

Definition wenv (hasTruffle : bool) : Workspace.WEnv string :=
  fun X past c =>
    match c in Workspace.WCall _ X0 return Exn + X0 with
    | Workspace.host c' =>
        if hasTruffle then Sample.env Sample.quiet [] c'
        else withoutTruffle Sample.quiet [] c'
    | Workspace.getWorkspaceRoot => inr "/ws"
    | Workspace.fs_readFileSync _ => inr "contract"
    | Workspace.writeValueToClipboard _ => inr tt
    end.

End Sample2.

(** * Properties *)

(** ** Running programs *)

Lemma run_bind (A B : Type) (env : Env) (p : prog A) (f : A -> prog B) (past : Trace) :
  run env (bind p f) past =
  let (t, r) := run env p past in
  match r with
  | inl e => (t, inl e)
  | inr a => let (t', r') := run env (f a) (past ++ t) in (t ++ t', r')
  end.
Proof.
  revert past. induction p as [a | e | e k IH | X c k IH]; intros past; simpl.
  - rewrite app_nil_r. destruct (run env (f a) past); reflexivity.
  - reflexivity.
  - rewrite IH. destruct (run env k (past ++ [Did e])) as [t [x | a]].
    + reflexivity.
    + rewrite <- app_assoc. simpl.
      destruct (run env (f a) (past ++ Did e :: t)); reflexivity.
  - rewrite IH. destruct (run env (k (env X past c)) _) as [t [x | a]].
    + reflexivity.
    + rewrite <- app_assoc. simpl.
      destruct (run env (f a) _); reflexivity.
Qed.

Lemma run_call (X : Set) (B : Type) (env : Env) (c : Call X) (f : X -> prog B)
  (past : Trace) :
  run env (bind (call c) f) past =
  match env _ past c with
  | inl e => ([Called c (inl e)], inl e)
  | inr x =>
      (Called c (inr x) :: fst (run env (f x) (past ++ [Called c (inr x)])),
       snd (run env (f x) (past ++ [Called c (inr x)])))
  end.
Proof.
  simpl. destruct (env X past c) as [e | x]; simpl; [reflexivity |].
  destruct (run env (f x) _); reflexivity.
Qed.

Lemma run_bind_ok (A B : Type) (env : Env) (p : prog A) (f : A -> prog B)
  (past t : Trace) (a : A) :
  run env p past = (t, inr a) ->
  run env (bind p f) past =
  (t ++ fst (run env (f a) (past ++ t)), snd (run env (f a) (past ++ t))).
Proof.
  intros E. rewrite run_bind, E. destruct (run env (f a) (past ++ t)); reflexivity.
Qed.

Lemma run_bind_err (A B : Type) (env : Env) (p : prog A) (f : A -> prog B)
  (past t : Trace) (e : Exn) :
  run env p past = (t, inl e) -> run env (bind p f) past = (t, inl e).
Proof. intros E. rewrite run_bind, E. reflexivity. Qed.

Lemma run_emit (B : Type) (env : Env) (e : Effect) (f : unit -> prog B) (past : Trace) :
  run env (bind (emit e) f) past =
  (Did e :: fst (run env (f tt) (past ++ [Did e])),
   snd (run env (f tt) (past ++ [Did e]))).
Proof. simpl. destruct (run env (f tt) _); reflexivity. Qed.

Lemma guardedb_precedes (guard step : Entry -> bool) (t : Trace) :
  guardedb guard step t = true -> precedes guard step t.
Proof.
  induction t as [| x t IH]; intros G before e after E S.
  - destruct before; discriminate.
  - simpl in G. destruct before as [| b before]; simpl in E; injection E as -> ->.
    + rewrite S in G. discriminate.
    + simpl. destruct (step b); [discriminate |].
      destruct (guard b); [reflexivity |].
      simpl. exact (IH G before e after eq_refl S).
Qed.

Lemma precedes_cons_guard (guard step : Entry -> bool) (x : Entry) (t : Trace) :
  step x = false -> guard x = true -> precedes guard step (x :: t).
Proof.
  intros Sx Gx before e after E S.
  destruct before as [| b before]; simpl in E; injection E as -> ->.
  - congruence.
  - simpl. rewrite Gx. reflexivity.
Qed.

Lemma precedes_none (guard step : Entry -> bool) (t : Trace) :
  forallb (fun e => negb (step e)) t = true -> precedes guard step t.
Proof.
  intros F before e after -> S.
  rewrite forallb_app in F. apply andb_true_iff in F as [_ F].
  simpl in F. rewrite S in F. discriminate.
Qed.

(** ** The pattern *)

Lemma matchHere_spec (pat : list Atom) (s : list ascii) :
  matchHere pat s = true <->
  exists m rest, s = m ++ rest /\ Forall2 (fun a c => atomMatches a c = true) pat m.
Proof.
  revert s. induction pat as [| a pat IH]; intros s; simpl.
  - split; [intros _; exists [], s; split; [reflexivity | constructor] | reflexivity].
  - destruct s as [| c s].
    + split; [discriminate |].
      intros (m & rest & E & F). inversion F; subst. discriminate.
    + rewrite andb_true_iff, IH. split.
      * intros (Hc & m & rest & -> & F). exists (c :: m), rest.
        split; [reflexivity | constructor; assumption].
      * intros (m & rest & E & F). inversion F; subst.
        simpl in E. injection E as -> ->. split; [assumption |]. eauto.
Qed.

Lemma search_spec (pat : list Atom) (s : list ascii) :
  search pat s = true <->
  exists pre m post,
    s = pre ++ m ++ post /\ Forall2 (fun a c => atomMatches a c = true) pat m.
Proof.
  induction s as [| c s IH]; simpl; rewrite orb_true_iff, matchHere_spec.
  - split.
    + intros [(m & rest & E & F) | D]; [| discriminate]. exists [], m, rest. auto.
    + intros (pre & m & post & E & F). left.
      destruct pre; [| discriminate]. exists m, post. auto.
  - rewrite IH. split.
    + intros [(m & rest & E & F) | (pre & m & post & E & F)].
      * exists [], m, rest. auto.
      * exists (c :: pre), m, post. subst s. auto.
    + intros (pre & m & post & E & F). destruct pre as [| x pre].
      * left. exists m, post. auto.
      * right. simpl in E. injection E as -> ->. exists pre, m, post. auto.
Qed.

Lemma Forall2_Lit (l m : list ascii) :
  Forall2 (fun a c => atomMatches a c = true) (map Lit l) m <-> m = l.
Proof.
  revert m. induction l as [| x l IH]; intros m; simpl.
  - split; [inversion 1; reflexivity | intros ->; constructor].
  - split.
    + inversion 1; subst. simpl in *. apply Ascii.eqb_eq in H2. subst.
      f_equal. apply IH. assumption.
    + intros ->. constructor; [apply Ascii.eqb_refl | apply IH; reflexivity].
Qed.

Lemma isLineTerminator_false (c : ascii) :
  negb (isLineTerminator c) = true <-> notLineTerminator c.
Proof.
  unfold isLineTerminator, notLineTerminator.
  rewrite negb_true_iff, orb_false_iff, !Ascii.eqb_neq. reflexivity.
Qed.

(** The decimal form of a number has no dot in it, so the port is matched
    character for character. *)
Lemma compile_digits (d : Decimal.uint) :
  compile (NilZero.string_of_uint d) =
  map Lit (list_ascii_of_string (NilZero.string_of_uint d)).
Proof.
  assert (H : forall u, compile (NilEmpty.string_of_uint u) =
                        map Lit (list_ascii_of_string (NilEmpty.string_of_uint u))).
  { induction u; simpl; try reflexivity;
      unfold compile in *; simpl; rewrite IHu; reflexivity. }
  destruct d; try apply H. reflexivity.
Qed.

Lemma list_ascii_of_string_app (a b : string) :
  list_ascii_of_string (a ++ b)%string = list_ascii_of_string a ++ list_ascii_of_string b.
Proof. induction a; simpl; [reflexivity | rewrite IHa; reflexivity]. Qed.

Lemma list_ascii_of_string_inj (a b : string) :
  list_ascii_of_string a = list_ascii_of_string b -> a = b.
Proof.
  intros E. rewrite <- (string_of_list_ascii_of_string a), E.
  apply string_of_list_ascii_of_string.
Qed.

Lemma compile_app (a b : string) : compile (a ++ b)%string = compile a ++ compile b.
Proof. unfold compile. rewrite list_ascii_of_string_app. apply map_app. Qed.

(** The test [url.match(localGanacheRegexp)] succeeds exactly on the
    strings described by [LocalGanacheUrl]. *)
Lemma String_match_localGanache (C : ConstantsT) (url : string) :
  String_match url (localGanacheRegexp C) = true <->
  LocalGanacheUrl (defaultLocalhostPort C) url.
Proof.
  unfold String_match, localGanacheRegexp, LocalGanacheUrl, Number_toString.
  rewrite compile_app, compile_digits, search_spec.
  set (ds := NilZero.string_of_uint (N.to_uint (defaultLocalhostPort C))).
  split.
  - intros (pre & m & post & E & F).
    apply Forall2_app_inv_l in F as (m1 & m2 & F1 & F2 & ->).
    apply Forall2_Lit in F2. subst m2.
    cbn in F1.
    repeat match goal with
           | H : Forall2 _ (_ :: _) _ |- _ => inversion H; clear H; subst
           | H : Forall2 _ [] _ |- _ => inversion H; clear H; subst
           end.
    unfold atomMatches in *.
    repeat match goal with
           | H : Ascii.eqb _ _ = true |- _ => apply Ascii.eqb_eq in H; subst
           | H : negb (isLineTerminator _) = true |- _ => apply isLineTerminator_false in H
           end.
    match goal with
    | Ha : notLineTerminator ?a, Hb : notLineTerminator ?b, Hc : notLineTerminator ?c |- _ =>
        exists (string_of_list_ascii pre), (string_of_list_ascii post), a, b, c
    end.
    repeat (split; [assumption |]).
    apply list_ascii_of_string_inj. rewrite E.
    rewrite list_ascii_of_string_app, list_ascii_of_string_of_list_ascii.
    cbn. repeat f_equal.
    rewrite !list_ascii_of_string_app, list_ascii_of_string_of_list_ascii.
    reflexivity.
  - intros (pre & post & a & b & c & Ha & Hb & Hc & ->).
    exists (list_ascii_of_string pre),
      (list_ascii_of_string ("127" ++ String a ("0" ++ String b ("0" ++ String c "1:")))
         ++ list_ascii_of_string ds),
      (list_ascii_of_string post).
    split.
    + rewrite list_ascii_of_string_app. cbn.
      rewrite !list_ascii_of_string_app. reflexivity.
    + apply Forall2_app; [| apply Forall2_Lit; reflexivity].
      apply isLineTerminator_false in Ha, Hb, Hc.
      cbn. repeat constructor; unfold atomMatches; try assumption; reflexivity.
Qed.

(** The dots of the pattern are wildcards and the search is not anchored. *)
Example localGanacheRegexp_examples :
  String_match "http://127.0.0.1:8545" (localGanacheRegexp Sample.constants) = true
  /\ String_match "127.0.0.1:85450" (localGanacheRegexp Sample.constants) = true
  /\ String_match "127x0y0z1:8545" (localGanacheRegexp Sample.constants) = true
  /\ String_match "http://localhost:8545" (localGanacheRegexp Sample.constants) = false
  /\ String_match "http://127.0.0.1:7545" (localGanacheRegexp Sample.constants) = false.
Proof. repeat split; reflexivity. Qed.

Lemma String_match_not_localGanache (C : ConstantsT) (url : string) :
  String_match url (localGanacheRegexp C) = false <->
  ~ LocalGanacheUrl (defaultLocalhostPort C) url.
Proof.
  rewrite <- String_match_localGanache.
  destruct (String_match url (localGanacheRegexp C)); split; congruence.
Qed.

Lemma isMainNetworkId_spec (id : NetworkId) :
  isMainNetworkId id = true <-> MainNetworkId id.
Proof.
  unfold MainNetworkId. destruct id as [n | s]; simpl.
  - rewrite Z.eqb_eq. split; [intros ->; auto | intros [E | E]; congruence].
  - rewrite String.eqb_eq. split; [intros ->; auto | intros [E | E]; congruence].
Qed.

(** ** Rules for [only] and [satisfies] *)

Lemma only_bind (P : Entry -> bool) (A B : Type) (p : prog A) (f : A -> prog B) :
  only P p -> (forall a, only P (f a)) -> only P (bind p f).
Proof.
  intros Hp Hf. induction p as [a | e | e k IH | X c k IH]; simpl in *.
  - apply Hf.
  - exact I.
  - destruct Hp. split; auto.
  - intros a. destruct (Hp a). split; auto.
Qed.

Lemma only_call (P : Entry -> bool) (X : Set) (c : Call X) :
  (forall a, P (Called c a) = true) -> only P (call c).
Proof. intros H a. split; [apply H | destruct a; exact I]. Qed.

Lemma only_emit (P : Entry -> bool) (e : Effect) :
  P (Did e) = true -> only P (emit e).
Proof. intros H. split; [exact H | exact I]. Qed.

Lemma only_mapM (P : Entry -> bool) (A B : Type) (f : A -> prog B) (l : list A) :
  (forall x, only P (f x)) -> only P (mapM f l).
Proof.
  intros H. induction l as [| x l IH]; simpl; [exact I |].
  apply only_bind; [apply H |]. intros y.
  apply only_bind; [exact IH |]. intros ys. exact I.
Qed.

Lemma only_forEach (P : Entry -> bool) (A : Type) (f : A -> prog unit) (l : list A) :
  (forall x, only P (f x)) -> only P (forEach l f).
Proof.
  intros H. induction l as [| x l IH]; simpl; [exact I |].
  apply only_bind; [apply H | intros _; exact IH].
Qed.

Lemma only_run (P : Entry -> bool) (A : Type) (p : prog A) (env : Env) (past : Trace) :
  only P p -> forallb P (fst (run env p past)) = true.
Proof.
  revert past. induction p as [a | e | e k IH | X c k IH]; intros past H; simpl in *.
  - reflexivity.
  - reflexivity.
  - destruct H as [H1 H2]. specialize (IH (past ++ [Did e]) H2).
    destruct (run env k (past ++ [Did e])). simpl in *. rewrite H1. exact IH.
  - destruct (H (env X past c)) as [H1 H2].
    specialize (IH _ (past ++ [Called c (env X past c)]) H2).
    destruct (run env (k (env X past c)) _). simpl in *. rewrite H1. exact IH.
Qed.

Lemma satisfies_bind (A B : Type) (env : Env) (p : prog A) (f : A -> prog B)
  (past : Trace) (Q : Trace -> Exn + B -> Prop) :
  satisfies env p past
    (fun t r =>
       match r with
       | inl e => Q t (inl e)
       | inr a => satisfies env (f a) (past ++ t) (fun t' r' => Q (t ++ t') r')
       end) ->
  satisfies env (bind p f) past Q.
Proof.
  unfold satisfies. rewrite run_bind.
  destruct (run env p past) as [t [e | a]]; simpl; [auto |].
  destruct (run env (f a) (past ++ t)); simpl. auto.
Qed.

Lemma satisfies_call (X : Set) (env : Env) (c : Call X) (past : Trace)
  (Q : Trace -> Exn + X -> Prop) :
  (forall e, Q [Called c (inl e)] (inl e)) ->
  (forall x, Q [Called c (inr x)] (inr x)) ->
  satisfies env (call c) past Q.
Proof.
  intros He Hx. unfold satisfies. simpl.
  destruct (env X past c) as [e | x]; simpl; auto.
Qed.

Lemma satisfies_only (P : Entry -> bool) (A : Type) (env : Env) (p : prog A)
  (past : Trace) (Q : Trace -> Exn + A -> Prop) :
  only P p ->
  (forall t r, forallb P t = true -> Q t r) ->
  satisfies env p past Q.
Proof. intros O H. apply H. apply only_run. exact O. Qed.

(** ** Observers and concatenation *)

Lemma validations_app (t t' : Trace) :
  validations (t ++ t') = validations t ++ validations t'.
Proof. apply flat_map_app. Qed.

Lemma clipboardWrites_app (t t' : Trace) :
  clipboardWrites (t ++ t') = clipboardWrites t ++ clipboardWrites t'.
Proof. apply flat_map_app. Qed.

Lemma pickedMnemonics_app (t t' : Trace) :
  pickedMnemonics (t ++ t') = pickedMnemonics t ++ pickedMnemonics t'.
Proof. apply flat_map_app. Qed.

Lemma offered_app (t t' : Trace) : offered (t ++ t') = offered t ++ offered t'.
Proof. apply flat_map_app. Qed.

Lemma validations_none (t : Trace) :
  forallb (fun e => negb (isValidation e)) t = true -> validations t = [].
Proof.
  induction t as [| e t IH]; [reflexivity |].
  intros H. simpl in H. apply andb_true_iff in H as [He Ht].
  change (e :: t) with ([e] ++ t).
  rewrite validations_app, (IH Ht), app_nil_r.
  destruct e as [| X c a]; [reflexivity |]. destruct c; try reflexivity; discriminate.
Qed.

Lemma clipboardWrites_none (t : Trace) :
  forallb (fun e => negb (isClipboardWrite e)) t = true -> clipboardWrites t = [].
Proof.
  induction t as [| e t IH]; [reflexivity |].
  intros H. simpl in H. apply andb_true_iff in H as [He Ht].
  change (e :: t) with ([e] ++ t).
  rewrite clipboardWrites_app, (IH Ht), app_nil_r.
  destruct e as [| X c a]; [reflexivity |]. destruct c; try reflexivity; discriminate.
Qed.

Lemma pickedMnemonics_none (t : Trace) :
  forallb (fun e => negb (isMnemonicPick e)) t = true -> pickedMnemonics t = [].
Proof.
  induction t as [| e t IH]; [reflexivity |].
  intros H. simpl in H. apply andb_true_iff in H as [He Ht].
  change (e :: t) with ([e] ++ t).
  rewrite pickedMnemonics_app, (IH Ht), app_nil_r.
  destruct e as [| X c a]; [reflexivity |]. destruct c; try reflexivity; discriminate.
Qed.

Lemma offered_none (t : Trace) :
  forallb (fun e => negb (isOffer e)) t = true -> offered t = [].
Proof.
  induction t as [| e t IH]; [reflexivity |].
  intros H. simpl in H. apply andb_true_iff in H as [He Ht].
  change (e :: t) with ([e] ++ t).
  rewrite offered_app, (IH Ht), app_nil_r.
  destruct e as [| X c a]; [reflexivity |]. destruct c; try reflexivity; discriminate.
Qed.

Lemma forallb_impl (A : Type) (P Q : A -> bool) (l : list A) :
  (forall x, P x = true -> Q x = true) -> forallb P l = true -> forallb Q l = true.
Proof.
  intros H. induction l as [| x l IH]; simpl; [reflexivity |].
  intros F. apply andb_true_iff in F as [Fx Fl]. rewrite (H x Fx), (IH Fl). reflexivity.
Qed.

Lemma precedes_cons_skip (guard step : Entry -> bool) (x : Entry) (t : Trace) :
  step x = false -> precedes guard step t -> precedes guard step (x :: t).
Proof.
  intros Sx P before e after E S.
  destruct before as [| b before]; simpl in E; injection E as -> ->.
  - congruence.
  - simpl. rewrite (P before e after eq_refl S). apply orb_true_r.
Qed.

Lemma optionN_eqb_refl (p : option N) : optionN_eqb p p = true.
Proof. destruct p; simpl; [apply N.eqb_refl | reflexivity]. Qed.

(** Destructs the answers of the environment along a run. *)
Ltac answer env :=
  match goal with
  | |- context [env ?X ?p ?c] =>
      let a := fresh "a" in
      let E := fresh "E" in
      destruct (env X p c) as [a | a] eqn:E; simpl
  end.

(** Names the outcome of a run that the goal mentions. *)
Ltac outcome env :=
  match goal with
  | |- context [run env ?p ?h] =>
      let t := fresh "t" in
      let r := fresh "r" in
      destruct (run env p h) as [t r]; simpl
  end.

(** ** Classification of the destinations of the configuration *)

Section Classification.

Variable C : ConstantsT.
Variable L : Library.

Lemma getTruffleDeployFunction_local
  (url name path : string) (id : NetworkId) (env : Env) (past : Trace) :
  String_match url (localGanacheRegexp C) = true ->
  run env (getTruffleDeployFunction C url name path id) past =
  ([Did (Telemetry_sendEvent
           "TruffleCommands.getTruffleDeployFunction.returnDeployToLocalGanache" [])],
   inr (deployToLocalGanache_bound name path url)).
Proof. intros H. unfold getTruffleDeployFunction. rewrite H. reflexivity. Qed.

Lemma getTruffleDeployFunction_main
  (url name path : string) (id : NetworkId) (env : Env) (past : Trace) :
  String_match url (localGanacheRegexp C) = false ->
  isMainNetworkId id = true ->
  run env (getTruffleDeployFunction C url name path id) past =
  ([Did (Telemetry_sendEvent
           "TruffleCommands.getTruffleDeployFunction.returnDeployToMainNetwork" [])],
   inr (deployToMainNetwork_bound name path)).
Proof. intros H M. unfold getTruffleDeployFunction. rewrite H, M. reflexivity. Qed.

Lemma getTruffleDeployFunction_other
  (url name path : string) (id : NetworkId) (env : Env) (past : Trace) :
  String_match url (localGanacheRegexp C) = false ->
  isMainNetworkId id = false ->
  run env (getTruffleDeployFunction C url name path id) past =
  ([Did (Telemetry_sendEvent
           "TruffleCommands.getTruffleDeployFunction.returnDeployToNetwork" [])],
   inr (deployToNetwork_bound name path)).
Proof. intros H M. unfold getTruffleDeployFunction. rewrite H, M. reflexivity. Qed.

(** C2: [getTruffleDeployFunction] returns the closure over
    [deployToLocalGanache] when the URL contains the local-ganache pattern,
    whatever the network id; otherwise the closure over
    [deployToMainNetwork] when the network id is the number 1 or the
    string '1'; otherwise the closure over [deployToNetwork].  In each case
    it reports its choice to the telemetry and returns. *)
Theorem getTruffleDeployFunction_classifies
  (url name path : string) (id : NetworkId) (env : Env) (past : Trace) :
  (LocalGanacheUrl (defaultLocalhostPort C) url ->
   run env (getTruffleDeployFunction C url name path id) past =
   ([Did (Telemetry_sendEvent
            "TruffleCommands.getTruffleDeployFunction.returnDeployToLocalGanache" [])],
    inr (deployToLocalGanache_bound name path url)))
  /\
  (~ LocalGanacheUrl (defaultLocalhostPort C) url -> MainNetworkId id ->
   run env (getTruffleDeployFunction C url name path id) past =
   ([Did (Telemetry_sendEvent
            "TruffleCommands.getTruffleDeployFunction.returnDeployToMainNetwork" [])],
    inr (deployToMainNetwork_bound name path)))
  /\
  (~ LocalGanacheUrl (defaultLocalhostPort C) url -> ~ MainNetworkId id ->
   run env (getTruffleDeployFunction C url name path id) past =
   ([Did (Telemetry_sendEvent
            "TruffleCommands.getTruffleDeployFunction.returnDeployToNetwork" [])],
    inr (deployToNetwork_bound name path))).
Proof.
  repeat split.
  - intros H. apply getTruffleDeployFunction_local.
    apply String_match_localGanache. exact H.
  - intros H M. apply getTruffleDeployFunction_main.
    + apply String_match_not_localGanache. exact H.
    + apply isMainNetworkId_spec. exact M.
  - intros H M. apply getTruffleDeployFunction_other.
    + apply String_match_not_localGanache. exact H.
    + destruct (isMainNetworkId id) eqn:E; [| reflexivity].
      apply isMainNetworkId_spec in E. contradiction.
Qed.

(** C3: for a destination classified as production network (URL without
    the local-ganache pattern, network id 1), the closure selected is the
    one over [deployToMainNetwork], and in every run of it each step of
    [deployToNetwork] comes after the confirmation dialog has completed;
    when the dialog rejects, the run ends there with that rejection. *)
Theorem deployToMainNetwork_confirms_first
  (url name path : string) (id : NetworkId) (env : Env) (past past' : Trace) :
  ~ LocalGanacheUrl (defaultLocalhostPort C) url -> MainNetworkId id ->
  snd (run env (getTruffleDeployFunction C url name path id) past) =
    inr (deployToMainNetwork_bound name path)
  /\ precedes confirmed isDeployToNetworkStep
       (fst (run env (invoke C L (deployToMainNetwork_bound name path)) past'))
  /\ (forall e, env _ past' showConfirmPaidOperationDialog = inl e ->
      run env (invoke C L (deployToMainNetwork_bound name path)) past' =
      ([Called showConfirmPaidOperationDialog (inl e)], inl e))
  /\ (forall u, env _ past' showConfirmPaidOperationDialog = inr u ->
      run env (invoke C L (deployToMainNetwork_bound name path)) past' =
      (Called showConfirmPaidOperationDialog (inr u)
         :: fst (run env (deployToNetwork C L name path)
                   (past' ++ [Called showConfirmPaidOperationDialog (inr u)])),
       snd (run env (deployToNetwork C L name path)
              (past' ++ [Called showConfirmPaidOperationDialog (inr u)])))).
Proof.
  intros H M. split; [| split; [| split]].
  - rewrite getTruffleDeployFunction_main; [reflexivity | |].
    + apply String_match_not_localGanache. exact H.
    + apply isMainNetworkId_spec. exact M.
  - unfold invoke, deployToMainNetwork. rewrite run_bind.
    simpl. answer env.
    + apply guardedb_precedes. reflexivity.
    + outcome env.
      apply precedes_cons_guard; reflexivity.
  - intros e E. simpl. rewrite E. reflexivity.
  - intros u E. unfold invoke, deployToMainNetwork. rewrite run_bind.
    simpl. rewrite E. simpl. outcome env. reflexivity.
Qed.

(** C7: for a destination whose URL contains the local-ganache pattern,
    the closure selected is the one over [deployToLocalGanache]; every run
    of it begins by starting the Ganache server on the port that
    [GanacheService.getPortFromUrl] extracts from the URL, and each step of
    [deployToNetwork] (the migration among them) comes after that start has
    completed. *)
Theorem deployToLocalGanache_starts_server_first
  (url name path : string) (id : NetworkId) (env : Env) (past past' : Trace) :
  LocalGanacheUrl (defaultLocalhostPort C) url ->
  snd (run env (getTruffleDeployFunction C url name path id) past) =
    inr (deployToLocalGanache_bound name path url)
  /\ (exists a rest,
        fst (run env (invoke C L (deployToLocalGanache_bound name path url)) past') =
        Called (startGanacheServer (GanacheService_getPortFromUrl L url)) a :: rest)
  /\ precedes (startedGanache (GanacheService_getPortFromUrl L url)) isDeployToNetworkStep
       (fst (run env (invoke C L (deployToLocalGanache_bound name path url)) past'))
  /\ (forall u,
        env _ past' (startGanacheServer (GanacheService_getPortFromUrl L url)) = inr u ->
        run env (invoke C L (deployToLocalGanache_bound name path url)) past' =
        (Called (startGanacheServer (GanacheService_getPortFromUrl L url)) (inr u)
           :: fst (run env (deployToNetwork C L name path)
                     (past' ++ [Called (startGanacheServer
                                          (GanacheService_getPortFromUrl L url)) (inr u)])),
         snd (run env (deployToNetwork C L name path)
                (past' ++ [Called (startGanacheServer
                                     (GanacheService_getPortFromUrl L url)) (inr u)])))).
Proof.
  intros H. split; [| split; [| split]].
  - rewrite getTruffleDeployFunction_local; [reflexivity |].
    apply String_match_localGanache. exact H.
  - unfold invoke, deployToLocalGanache. rewrite run_bind. simpl.
    answer env; [eauto |].
    outcome env. eauto.
  - unfold invoke, deployToLocalGanache. rewrite run_bind. simpl.
    answer env.
    + apply precedes_none. reflexivity.
    + outcome env.
      apply precedes_cons_guard; [reflexivity |].
      simpl. rewrite optionN_eqb_refl. reflexivity.
  - intros u E. unfold invoke, deployToLocalGanache. rewrite run_bind.
    simpl. rewrite E. simpl. outcome env. reflexivity.
Qed.

End Classification.

(** ** Destinations of the tree *)

Lemma fold_left_push (A B : Type) (f : A -> list B) (l : list A) (acc : list B) :
  fold_left (fun res x => res ++ f x) l acc = acc ++ flat_map f l.
Proof.
  revert acc. induction l as [| x l IH]; intros acc; simpl.
  - symmetry. apply app_nil_r.
  - rewrite IH, app_assoc. reflexivity.
Qed.

Lemma flat_map_flat_map (A B D : Type) (f : B -> list D) (g : A -> list B) (l : list A) :
  flat_map f (flat_map g l) = flat_map (fun x => flat_map f (g x)) l.
Proof.
  induction l as [| x l IH]; simpl; [reflexivity |].
  rewrite flat_map_app, IH. reflexivity.
Qed.

Section Tree.

Variable C : ConstantsT.
Variable L : Library.

Lemma isLocalNetworkNodeOnPort_spec (node : NetworkNode) (p : N) :
  isLocalNetworkNodeOnPort node p = true <-> nodeClass node = LocalNetworkNode p.
Proof.
  unfold isLocalNetworkNodeOnPort. destruct (nodeClass node) as [| q].
  - split; discriminate.
  - rewrite N.eqb_eq. split; [intros ->; reflexivity | intros E; injection E; auto].
Qed.

Lemma getServiceCreateFunction_returns (node : NetworkNode) (path : string)
  (env : Env) (past : Trace) :
  exists ev c, run env (getServiceCreateFunction C node path) past = ([Did ev], inr c).
Proof.
  unfold getServiceCreateFunction.
  destruct (isLocalNetworkNodeOnPort node (defaultLocalhostPort C)); simpl; eauto.
Qed.

(** C6: [getServiceCreateFunction] returns the closure over
    [createLocalGanacheNetwork] exactly when the node is a
    [LocalNetworkNode] whose port is the default localhost port, and the
    closure over [createNetwork] for every other node.  A run of
    [createLocalGanacheNetwork] begins by starting the Ganache server on
    the port of the node, and registers and deploys only after that start
    completed (it then goes on as [createNetwork]).  A run of
    [createNetwork] deploys only after the network was written to the
    truffle configuration, and then goes on as [deployToNetwork] for the
    name of that network. *)
Theorem getServiceCreateFunction_classifies
  (node : NetworkNode) (path : string) (env : Env) (past past' : Trace) :
  (nodeClass node = LocalNetworkNode (defaultLocalhostPort C) ->
   run env (getServiceCreateFunction C node path) past =
   ([Did (Telemetry_sendEvent
            "TruffleCommands.getServiceCreateFunction.returnCreateLocalGanacheNetwork" [])],
    inr (createLocalGanacheNetwork_bound node path))
   /\ (exists a rest,
         fst (run env (invoke C L (createLocalGanacheNetwork_bound node path)) past') =
         Called (startGanacheServer (Some (defaultLocalhostPort C))) a :: rest)
   /\ precedes (startedGanache (Some (defaultLocalhostPort C)))
        (fun e => isRegistration e || isDeployToNetworkStep e)
        (fst (run env (invoke C L (createLocalGanacheNetwork_bound node path)) past'))
   /\ (forall u,
         env _ past' (startGanacheServer (Some (defaultLocalhostPort C))) = inr u ->
         run env (invoke C L (createLocalGanacheNetwork_bound node path)) past' =
         (Called (startGanacheServer (Some (defaultLocalhostPort C))) (inr u)
            :: fst (run env (createNetwork C L node path)
                      (past' ++ [Called (startGanacheServer
                                           (Some (defaultLocalhostPort C))) (inr u)])),
          snd (run env (createNetwork C L node path)
                 (past' ++ [Called (startGanacheServer
                                      (Some (defaultLocalhostPort C))) (inr u)])))))
  /\
  (nodeClass node <> LocalNetworkNode (defaultLocalhostPort C) ->
   run env (getServiceCreateFunction C node path) past =
   ([Did (Telemetry_sendEvent
            "TruffleCommands.getServiceCreateFunction.returnCreateService" [])],
    inr (createNetwork_bound node path)))
  /\ precedes (registered path) isDeployToNetworkStep
       (fst (run env (invoke C L (createNetwork_bound node path)) past'))
  /\ (forall network u,
        env _ past' (getTruffleNetwork node) = inr network ->
        env _ (past' ++ [Called (getTruffleNetwork node) (inr network)])
          (setNetworks path network) = inr u ->
        run env (invoke C L (createNetwork_bound node path)) past' =
        (Called (getTruffleNetwork node) (inr network)
           :: Called (setNetworks path network) (inr u)
           :: fst (run env (deployToNetwork C L (name network) path)
                     ((past' ++ [Called (getTruffleNetwork node) (inr network)])
                        ++ [Called (setNetworks path network) (inr u)])),
         snd (run env (deployToNetwork C L (name network) path)
                ((past' ++ [Called (getTruffleNetwork node) (inr network)])
                   ++ [Called (setNetworks path network) (inr u)])))).
Proof.
  split; [| split; [| split]].
  - intros H. split; [| split; [| split]].
    + unfold getServiceCreateFunction.
      apply isLocalNetworkNodeOnPort_spec in H. rewrite H. reflexivity.
    + unfold invoke, createLocalGanacheNetwork. rewrite H, run_bind. simpl.
      answer env; [eauto |]. outcome env. eauto.
    + unfold invoke, createLocalGanacheNetwork. rewrite H, run_bind. simpl.
      answer env.
      * apply precedes_none. reflexivity.
      * outcome env. apply precedes_cons_guard; [reflexivity |].
        simpl. rewrite N.eqb_refl. reflexivity.
    + intros u E. unfold invoke, createLocalGanacheNetwork. rewrite H, run_bind.
      simpl. rewrite E. simpl. outcome env. reflexivity.
  - intros H. unfold getServiceCreateFunction.
    destruct (isLocalNetworkNodeOnPort node (defaultLocalhostPort C)) eqn:E;
      [| reflexivity].
    apply isLocalNetworkNodeOnPort_spec in E. contradiction.
  - unfold invoke, createNetwork. rewrite run_bind. simpl.
    answer env; [apply precedes_none; reflexivity |].
    rewrite run_bind. simpl.
    answer env; [apply precedes_none; reflexivity |].
    outcome env.
    apply precedes_cons_skip; [reflexivity |].
    apply precedes_cons_guard; [reflexivity |].
    simpl. rewrite String.eqb_refl. reflexivity.
  - intros network u E1 E2. unfold invoke, createNetwork.
    rewrite run_call, E1, run_call, E2. reflexivity.
Qed.

Lemma run_tree_destinations (path : string) (env : Env) (nodes : list NetworkNode)
  (past : Trace) :
  exists t dests,
    run env
      (mapM (fun network =>
               f <- getServiceCreateFunction C network path ;;
               Ret {| cmd := Deploy f;
                      cwd := None;
                      description := Some (rpcAddress network);
                      detail := Some "Tree Item";
                      dlabel := label network;
                      dnetworkId := networkId network |})
            nodes) past = (t, inr dests)
    /\ Forall2 (fun d n =>
                  dlabel d = label n
                  /\ description d = Some (rpcAddress n)
                  /\ dnetworkId d = networkId n)
               dests nodes.
Proof.
  revert past. induction nodes as [| n nodes IH]; intros past; simpl.
  - exists [], []. split; [reflexivity | constructor].
  - rewrite !run_bind.
    destruct (getServiceCreateFunction_returns n path env past) as (ev & c & R).
    rewrite R. simpl.
    destruct (IH (past ++ [Did ev])) as (t & dests & Rt & F).
    rewrite run_bind, Rt. simpl.
    eexists _, _. split; [reflexivity |].
    constructor; [simpl; auto | exact F].
Qed.

(** C5: when the tree manager hands over its services,
    [getTreeDeployDestinations] returns one destination for each network
    node among the children of the projects of those services, in order,
    with the label, the RPC address (as description) and the network id of
    that node. *)
Theorem getTreeDeployDestinations_one_per_network_node
  (path : string) (env : Env) (past : Trace) (services : list ExtensionItem) :
  env _ past TreeManager_getItems = inr services ->
  exists t dests,
    run env (getTreeDeployDestinations C path) past =
    (Called TreeManager_getItems (inr services) :: t, inr dests)
    /\ Forall2 (fun d n =>
                  dlabel d = label n
                  /\ description d = Some (rpcAddress n)
                  /\ dnetworkId d = networkId n)
               dests (treeNetworkNodes services).
Proof.
  intros E. unfold getTreeDeployDestinations. rewrite run_bind. simpl. rewrite E. simpl.
  rewrite !fold_left_push. simpl. rewrite flat_map_flat_map.
  fold (treeNetworkNodes services).
  destruct (run_tree_destinations path env (treeNetworkNodes services)
              (past ++ [Called TreeManager_getItems (inr services)]))
    as (t & dests & R & F).
  rewrite R. simpl. eauto.
Qed.

End Tree.

(** ** The commands of the namespace *)

(** Solves [only P p] by following the structure of [p]. *)
Ltac footprint :=
  repeat first
    [ exact I
    | apply only_emit; reflexivity
    | apply only_call; intro; reflexivity
    | apply only_bind; [| intro]
    | apply only_mapM; intro
    | apply only_forEach; intro
    | match goal with
      | |- only _ (if ?b then _ else _) => destruct b
      | |- only _ (match ?x with _ => _ end) => destruct x
      end
    | progress unfold sendEvent, lift ].

(** A postcondition that ignores a prefix of entries satisfying [P] can be
    established after any program that leaves only such entries. *)
Section Prefix.

Variable P : Entry -> bool.
Variable B : Type.
Variable Q : Trace -> Exn + B -> Prop.
Hypothesis Q_stop : forall t e, forallb P t = true -> Q t (inl e).
Hypothesis Q_skip : forall t t' r, forallb P t = true -> Q t' r -> Q (t ++ t') r.

Lemma satisfies_after (A : Type) (env : Env) (p : prog A) (f : A -> prog B)
  (past : Trace) :
  only P p ->
  (forall a past', satisfies env (f a) past' Q) ->
  satisfies env (bind p f) past Q.
Proof.
  intros O H. apply satisfies_bind. unfold satisfies.
  pose proof (only_run P p env past O) as F.
  destruct (run env p past) as [t [e | a]]; simpl in *.
  - apply Q_stop. exact F.
  - apply Q_skip; [exact F | apply H].
Qed.

End Prefix.

(** One step of a command that leaves only preparatory entries. *)
Ltac after stop skip tac :=
  eapply satisfies_after with (P := preparatory); [exact stop | exact skip | tac |].

Lemma filter_nil_existsb (A : Type) (f : A -> bool) (l : list A) :
  filter f l = [] <-> existsb f l = false.
Proof.
  induction l as [| x l IH]; simpl; [tauto |].
  destruct (f x); simpl; [split; discriminate | exact IH].
Qed.

Lemma run_forEach_returns (A : Type) (env : Env) (f : A -> prog unit) (l : list A)
  (past : Trace) :
  (forall x past', snd (run env (f x) past') = inr tt) ->
  snd (run env (forEach l f) past) = inr tt.
Proof.
  intros H. revert past. induction l as [| x l IH]; intros past; simpl; [reflexivity |].
  rewrite run_bind. specialize (H x past).
  destruct (run env (f x) past) as [t r]. simpl in H. subst r.
  specialize (IH (past ++ t)). destruct (run env (forEach l f) (past ++ t)).
  simpl in *. exact IH.
Qed.

Section Commands.

Variable C : ConstantsT.
Variable L : Library.

Lemma getTruffleDeployDestinations_only (P : Entry -> bool) (path : string) :
  (forall a, P (Called (getNetworks path) a) = true) ->
  (forall n, P (Did (Telemetry_sendEvent n [])) = true) ->
  only P (getTruffleDeployDestinations C L path).
Proof.
  intros H1 H2. unfold getTruffleDeployDestinations.
  apply only_bind; [apply only_call; exact H1 | intros networks].
  apply only_mapM. intros network. apply only_bind; [| intro; exact I].
  unfold getTruffleDeployFunction, sendEvent.
  destruct (String_match _ _); [| destruct (isMainNetworkId _)];
    (apply only_bind; [apply only_emit; apply H2 | intro; exact I]).
Qed.

Lemma getTreeDeployDestinations_only (P : Entry -> bool) (path : string) :
  (forall a, P (Called TreeManager_getItems a) = true) ->
  (forall n, P (Did (Telemetry_sendEvent n [])) = true) ->
  only P (getTreeDeployDestinations C path).
Proof.
  intros H1 H2. unfold getTreeDeployDestinations.
  apply only_bind; [apply only_call; exact H1 | intros services].
  apply only_mapM. intros network. apply only_bind; [| intro; exact I].
  unfold getServiceCreateFunction, sendEvent.
  destruct (isLocalNetworkNodeOnPort _ _);
    (apply only_bind; [apply only_emit; apply H2 | intro; exact I]).
Qed.

Lemma deployToNetwork_no_validation (n p : string) :
  only (fun e => negb (isValidation e)) (deployToNetwork C L n p).
Proof. unfold deployToNetwork. footprint. Qed.

Lemma invoke_no_validation (c : Cmd) :
  only (fun e => negb (isValidation e)) (invoke C L c).
Proof.
  pose proof deployToNetwork_no_validation as D.
  destruct c; unfold invoke, deployToLocalGanache, deployToMainNetwork,
    createLocalGanacheNetwork, createNetwork; footprint; apply D.
Qed.

Lemma invokeTop_no_validation (c : TopCmd) :
  only (fun e => negb (isValidation e)) (invokeTop C L c).
Proof.
  destruct c as [p | c]; unfold invokeTop; [| apply invoke_no_validation].
  unfold createNewDeploymentService. footprint. apply invoke_no_validation.
Qed.

Lemma deployToNetwork_no_offer (n p : string) :
  only (fun e => negb (isOffer e)) (deployToNetwork C L n p).
Proof. unfold deployToNetwork. footprint. Qed.

Lemma invoke_no_offer (c : Cmd) :
  only (fun e => negb (isOffer e)) (invoke C L c).
Proof.
  pose proof deployToNetwork_no_offer as D.
  destruct c; unfold invoke, deployToLocalGanache, deployToMainNetwork,
    createLocalGanacheNetwork, createNetwork; footprint; apply D.
Qed.

Lemma invokeTop_no_offer (c : TopCmd) :
  only (fun e => negb (isOffer e)) (invokeTop C L c).
Proof.
  destruct c as [p | c]; unfold invokeTop; [| apply invoke_no_offer].
  unfold createNewDeploymentService. footprint. apply invoke_no_offer.
Qed.

(** Whatever closure is called, the call shows in the trace as a step of
    a strategy. *)
Lemma invokeTop_leaves_strategy_step (c : TopCmd) (env : Env) (past : Trace) :
  existsb isStrategyStep (fst (run env (invokeTop C L c) past)) = true.
Proof.
  destruct c as [p | c].
  - unfold invokeTop, createNewDeploymentService, sendEvent.
    rewrite run_emit, run_call. destruct (env _ _ connectProject); reflexivity.
  - destruct c; unfold invokeTop, invoke, deployToLocalGanache, deployToMainNetwork,
      deployToNetwork, createLocalGanacheNetwork, createNetwork;
      rewrite ?run_emit, ?run_call;
      match goal with
      | |- context [match ?a with inl _ => _ | inr _ => _ end] => destruct a
      | _ => idtac
      end; reflexivity.
Qed.

(** What [validateOpenZeppelinContracts] does: it asks for the validated
    contracts, reports on each, and throws when one of them is invalid. *)
Lemma validateOpenZeppelinContracts_outcome (env : Env) (past : Trace) :
  exists a t,
    fst (run env (validateOpenZeppelinContracts C) past) = Called validateContracts a :: t
    /\ forallb preparatory t = true
    /\ snd (run env (validateOpenZeppelinContracts C) past) =
       match a with
       | inl e => inl e
       | inr l =>
           if existsb isInvalidContract l
           then inl (JsError (validationMessages_openZeppelinFilesAreInvalid C
                                (map contractPath (filter isInvalidContract l))))
           else inr tt
       end.
Proof.
  unfold validateOpenZeppelinContracts. rewrite run_call.
  destruct (env _ past validateContracts) as [e | l].
  - exists (inl e), []. auto.
  - exists (inr l). simpl fst. simpl snd. rewrite run_bind.
    set (report := forEach l _).
    assert (O : only preparatory report) by (unfold report; footprint).
    assert (R : snd (run env report (past ++ [Called validateContracts (inr l)])) = inr tt).
    { apply run_forEach_returns. intros x past'.
      destruct (isExistedOnDisk x); reflexivity. }
    pose proof (only_run _ _ env (past ++ [Called validateContracts (inr l)]) O) as F.
    destruct (run env report _) as [t r]. simpl in R, F. subst r.
    fold isInvalidContract.
    change (fun ozContract : OZContractValidated =>
              negb (isExistedOnDisk ozContract) || negb (isHashValid ozContract))
      with isInvalidContract.
    destruct (filter isInvalidContract l) as [| x rest] eqn:Ef.
    + apply filter_nil_existsb in Ef. rewrite Ef. simpl.
      exists t. rewrite app_nil_r. auto.
    + assert (Ex : existsb isInvalidContract l = true).
      { destruct (existsb isInvalidContract l) eqn:Ex; [reflexivity |].
        apply filter_nil_existsb in Ex. congruence. }
      rewrite Ex. simpl. eexists. split; [reflexivity |].
      split; [| reflexivity].
      rewrite forallb_app, F. reflexivity.
Qed.

(** C9: in every run of [deployContracts] in which the validation
    answered a list with a contract that is missing on disk or has an
    invalid hash, [deployContracts] throws the error that names the
    invalid contracts, and no step of any deployment strategy (starting
    Ganache, confirming, registering a network, connecting a project,
    migrating) is in the trace.  By [invokeTop_leaves_strategy_step] a
    call of any closure would leave such a step. *)
Theorem deployContracts_stops_on_invalid_contracts
  (env : Env) (past : Trace) (validated : list OZContractValidated) :
  In validated (validations (fst (run env (TruffleCommands.deployContracts C L) past))) ->
  existsb isInvalidContract validated = true ->
  snd (run env (TruffleCommands.deployContracts C L) past) =
    inl (JsError (validationMessages_openZeppelinFilesAreInvalid C
                    (map contractPath (filter isInvalidContract validated))))
  /\ forallb (fun e => negb (isStrategyStep e))
       (fst (run env (TruffleCommands.deployContracts C L) past)) = true.
Proof.
  set (Q := fun (t : Trace) (r : Exn + unit) =>
              In validated (validations t) ->
              existsb isInvalidContract validated = true ->
              r = inl (JsError (validationMessages_openZeppelinFilesAreInvalid C
                                  (map contractPath (filter isInvalidContract validated))))
              /\ forallb (fun e => negb (isStrategyStep e)) t = true).
  change (satisfies env (TruffleCommands.deployContracts C L) past Q).
  assert (Q_stop : forall t e, forallb preparatory t = true -> Q t (inl e)).
  { intros t e F V. rewrite validations_none in V; [destruct V |].
    revert F. apply forallb_impl. intros x Hx.
    apply andb_true_iff in Hx. tauto. }
  assert (Q_skip : forall t t' r, forallb preparatory t = true -> Q t' r -> Q (t ++ t') r).
  { intros t t' r F H V I. rewrite validations_app in V.
    rewrite validations_none in V.
    2:{ revert F. apply forallb_impl. intros x Hx. apply andb_true_iff in Hx. tauto. }
    destruct (H V I) as [-> S]. split; [reflexivity |].
    rewrite forallb_app, S, andb_true_r.
    revert F. apply forallb_impl. intros x Hx. apply andb_true_iff in Hx. tauto. }
  unfold TruffleCommands.deployContracts.
  after Q_stop Q_skip ltac:(footprint); intros _ past1.
  after Q_stop Q_skip ltac:(footprint); intros uri past2.
  after Q_stop Q_skip ltac:(apply getTruffleDeployDestinations_only; reflexivity);
    intros T past3.
  after Q_stop Q_skip ltac:(apply getTreeDeployDestinations_only; reflexivity);
    intros Tr past4.
  after Q_stop Q_skip ltac:(footprint); intros command past5.
  after Q_stop Q_skip ltac:(footprint); intros _ past6.
  after Q_stop Q_skip ltac:(footprint); intros hasTruffle past7.
  after Q_stop Q_skip ltac:(footprint); intros _ past8.
  after Q_stop Q_skip ltac:(footprint); intros required past9.
  after Q_stop Q_skip ltac:(footprint); intros versionOk past10.
  after Q_stop Q_skip ltac:(footprint); intros _ past11.
  apply satisfies_bind. unfold satisfies at 1.
  destruct (validateOpenZeppelinContracts_outcome env past11) as (a & t & Et & Ft & Er).
  rewrite Et, Er. clear Et Er.
  assert (Fs : forallb (fun e => negb (isStrategyStep e)) t = true).
  { revert Ft. apply forallb_impl. intros x Hx. apply andb_true_iff in Hx. tauto. }
  assert (Vt : validations t = []).
  { apply validations_none. revert Ft. apply forallb_impl.
    intros x Hx. apply andb_true_iff in Hx. tauto. }
  destruct a as [e | l].
  - intros V. change (Called validateContracts (inl e) :: t)
      with ([Called validateContracts (inl e)] ++ t) in V.
    rewrite validations_app, Vt in V. destruct V.
  - destruct (existsb isInvalidContract l) eqn:El.
    + intros V _. change (Called validateContracts (inr l) :: t)
        with ([Called validateContracts (inr l)] ++ t) in V.
      rewrite validations_app, Vt in V. simpl in V.
      destruct V as [<- | []]. split; [reflexivity |]. simpl. exact Fs.
    + unfold satisfies.
      set (rest := bind (invokeTop C L (cmd command)) _).
      assert (O : only (fun e => negb (isValidation e)) rest).
      { unfold rest. apply only_bind; [apply invokeTop_no_validation |].
        intro. footprint. }
      pose proof (only_run _ _ env (past11 ++ Called validateContracts (inr l) :: t) O) as F.
      apply validations_none in F.
      intros V I.
      rewrite validations_app, F, app_nil_r in V.
      change (Called validateContracts (inr l) :: t)
        with ([Called validateContracts (inr l)] ++ t) in V.
      rewrite validations_app, Vt in V. simpl in V.
      destruct V as [<- | []]. congruence.
Qed.

Lemma silent_no_pick (t : Trace) : forallb silent t = true -> pickedMnemonics t = [].
Proof.
  intros F. apply pickedMnemonics_none. revert F. apply forallb_impl.
  intros x Hx. apply andb_true_iff in Hx. tauto.
Qed.

Lemma silent_no_write (t : Trace) : forallb silent t = true -> clipboardWrites t = [].
Proof.
  intros F. apply clipboardWrites_none. revert F. apply forallb_impl.
  intros x Hx. apply andb_true_iff in Hx. tauto.
Qed.

(** Identifies two derivations from the same mnemonic step by step. *)
Ltac same_derivation :=
  intros;
  repeat match goal with
         | E : ?f = inr _, H : ?f = inr _ |- _ => rewrite E in H; injection H as <-
         | E : ?f = Some _, H : ?f = Some _ |- _ => rewrite E in H; injection H as <-
         | E : ?f = inl _, H : ?f = inr _ |- _ => rewrite E in H; discriminate
         | E : ?f = None, H : ?f = Some _ |- _ => rewrite E in H; discriminate
         end;
  try reflexivity.

(** C8: in every run of [getPrivateKeyFromMnemonic] in which the user
    picked a mnemonic whose text is not empty: when the library calls
    succeed, the one text written to the clipboard is the hex encoding of
    the private key of the child key derived at m/44'/60'/0'/0/0 from the
    HD key of the BIP-39 seed of that mnemonic; when one of them throws,
    nothing is written to the clipboard and the invalid-mnemonic error is
    shown. *)
Theorem getPrivateKeyFromMnemonic_copies_derived_key
  (env : Env) (past : Trace) (item : IExtendedQuickPickItem) :
  In item (pickedMnemonics
             (fst (run env (TruffleCommands.getPrivateKeyFromMnemonic C L) past))) ->
  extended item <> "" ->
  (forall seed key childKey privateKey,
      bip39_mnemonicToSeed L (extended item) = inr seed ->
      hdkey_fromMasterSeed L seed = inr key ->
      hdkey_derive L key "m/44'/60'/0'/0/0" = inr childKey ->
      hdkey_privateKey L childKey = Some privateKey ->
      clipboardWrites (fst (run env (TruffleCommands.getPrivateKeyFromMnemonic C L) past))
      = [Buffer_toString_hex L privateKey])
  /\ (derivationThrows L (extended item) ->
      clipboardWrites (fst (run env (TruffleCommands.getPrivateKeyFromMnemonic C L) past))
      = []
      /\ shows (window_showErrorMessage (errorMessageStrings_InvalidMnemonic C))
           (fst (run env (TruffleCommands.getPrivateKeyFromMnemonic C L) past))).
Proof.
  set (Q := fun (t : Trace) (r : Exn + unit) =>
              In item (pickedMnemonics t) ->
              extended item <> "" ->
              (forall seed key childKey privateKey,
                  bip39_mnemonicToSeed L (extended item) = inr seed ->
                  hdkey_fromMasterSeed L seed = inr key ->
                  hdkey_derive L key "m/44'/60'/0'/0/0" = inr childKey ->
                  hdkey_privateKey L childKey = Some privateKey ->
                  clipboardWrites t = [Buffer_toString_hex L privateKey])
              /\ (derivationThrows L (extended item) ->
                  clipboardWrites t = []
                  /\ shows (window_showErrorMessage
                              (errorMessageStrings_InvalidMnemonic C)) t)).
  change (satisfies env (TruffleCommands.getPrivateKeyFromMnemonic C L) past Q).
  assert (Q_none : forall t r, forallb silent t = true -> Q t r).
  { intros t r F V. rewrite (silent_no_pick t F) in V. destruct V. }
  assert (Q_stop : forall t e, forallb silent t = true -> Q t (inl e)).
  { intros t e. apply Q_none. }
  assert (Q_skip : forall t t' r, forallb silent t = true -> Q t' r -> Q (t ++ t') r).
  { intros t t' r F H V N.
    rewrite pickedMnemonics_app, (silent_no_pick t F) in V.
    rewrite clipboardWrites_app, (silent_no_write t F). simpl.
    destruct (H V N) as [H1 H2]. split; [exact H1 |].
    intros D. destruct (H2 D) as [W S]. split; [exact W |].
    unfold shows. apply in_or_app. right. exact S. }
  unfold TruffleCommands.getPrivateKeyFromMnemonic.
  eapply satisfies_after with (P := silent);
    [exact Q_stop | exact Q_skip | footprint | intros _ past1].
  eapply satisfies_after with (P := silent);
    [exact Q_stop | exact Q_skip | unfold TruffleCommands.mnemonicItems; footprint
    | intros items past2].
  destruct (Nat.eqb (List.length items) 0).
  { apply satisfies_only with (P := silent); [footprint | intros t r; apply Q_none]. }
  apply satisfies_bind. apply satisfies_call.
  { intros e V. destruct V. }
  intros x. set (here := past2 ++ _).
  destruct (truthy (extended x)) eqn:Tx; simpl negb; cbv iota.
  2:{ unfold satisfies.
      set (p := bind _ _).
      assert (O : only silent p) by (unfold p; footprint).
      pose proof (only_run _ _ env here O) as F.
      intros V N. rewrite pickedMnemonics_app, (silent_no_pick _ F) in V.
      simpl in V. destruct V as [<- | []].
      unfold truthy in Tx. apply negb_false_iff, String.eqb_eq in Tx. contradiction. }
  unfold TruffleCommands.copyPrivateKey, satisfies.
  destruct (bip39_mnemonicToSeed L (extended x)) as [e1 | seed] eqn:E1; simpl.
  { intros [<- | []] N. split.
    - same_derivation.
    - intros _. unfold shows. simpl. auto. }
  destruct (hdkey_fromMasterSeed L seed) as [e2 | key] eqn:E2; simpl.
  { intros [<- | []] N. split.
    - same_derivation.
    - intros _. unfold shows. simpl. auto. }
  destruct (hdkey_derive L key "m/44'/60'/0'/0/0") as [e3 | childKey] eqn:E3; simpl.
  { intros [<- | []] N. split.
    - same_derivation.
    - intros _. unfold shows. simpl. auto. }
  destruct (hdkey_privateKey L childKey) as [privateKey |] eqn:E4; simpl.
  2:{ intros [<- | []] N. split.
      - same_derivation.
      - intros _. unfold shows. simpl. auto. }
  answer env.
  - intros [<- | []] N. split.
    + same_derivation.
    + unfold derivationThrows. rewrite E1, E2, E3, E4. discriminate.
  - intros [<- | []] N. split.
    + same_derivation.
    + unfold derivationThrows. rewrite E1, E2, E3, E4. discriminate.
Qed.

(** C10: [Project.getRPCAddress] is the empty string when no child of
    the project is a network node, and the RPC address of the first child
    that is one otherwise; [writeRPCEndpointAddressToBuffer] writes that
    address to the clipboard when it is not empty and writes nothing when
    it is empty, and shows its confirmation message only after a write. *)
Theorem writeRPCEndpointAddressToBuffer_copies_nonempty_address
  (project : ExtensionItem) (env : Env) (past : Trace) :
  Project.getRPCAddress project =
    match find instanceofNetworkNode (getChildren project) with
    | Some (OfNetworkNode n _) => rpcAddress n
    | _ => ""
    end
  /\ clipboardWrites
       (fst (run env (TruffleCommands.writeRPCEndpointAddressToBuffer C L project) past)) =
     (if String.eqb (Project.getRPCAddress project) "" then []
      else [Project.getRPCAddress project])
  /\ (shows (window_showInformationMessage
               (informationMessage_rpcEndpointCopiedToClipboard C))
        (fst (run env (TruffleCommands.writeRPCEndpointAddressToBuffer C L project) past)) ->
      Project.getRPCAddress project <> "").
Proof.
  split; [| split].
  - unfold Project.getRPCAddress.
    induction (getChildren project) as [| c l IH]; simpl; [reflexivity |].
    destruct c as [n cs | it lb cs]; simpl; [reflexivity | exact IH].
  - unfold TruffleCommands.writeRPCEndpointAddressToBuffer, truthy, sendEvent.
    rewrite !run_emit.
    destruct (String.eqb (Project.getRPCAddress project) ""); simpl; [reflexivity |].
    answer env; reflexivity.
  - unfold TruffleCommands.writeRPCEndpointAddressToBuffer, truthy, sendEvent, shows.
    rewrite !run_emit.
    destruct (String.eqb (Project.getRPCAddress project) "") eqn:E; simpl.
    + intros [H | [H | []]]; discriminate.
    + intros _. apply String.eqb_neq. exact E.
Qed.

Lemma filter_true (A : Type) (l : list A) : filter (fun _ => true) l = l.
Proof. induction l as [| x l IH]; simpl; [reflexivity | rewrite IH; reflexivity]. Qed.

(** The three pushes and the filter that keeps everything. *)
Lemma candidates (A : Type) (D T Tr : list A) :
  filter (fun _ => true) ((([] ++ D) ++ T) ++ Tr) = D ++ T ++ Tr.
Proof. rewrite filter_true, app_nil_l, <- app_assoc. reflexivity. Qed.

Lemma deployContracts_reaches_quick_pick
  (env : Env) (past tT tTr : Trace) (uri : string)
  (T Tr : list (IDeployDestination TopCmd)) :
  env _ (past ++ [Did (Telemetry_sendEvent
                         "TruffleCommands.deployContracts.commandStarted" [])])
    getTruffleConfigUri = inr uri ->
  run env (getTruffleDeployDestinations C L uri)
    ((past ++ [Did (Telemetry_sendEvent
                      "TruffleCommands.deployContracts.commandStarted" [])])
       ++ [Called getTruffleConfigUri (inr uri)]) = (tT, inr T) ->
  run env (getTreeDeployDestinations C uri)
    (((past ++ [Did (Telemetry_sendEvent
                       "TruffleCommands.deployContracts.commandStarted" [])])
        ++ [Called getTruffleConfigUri (inr uri)]) ++ tT) = (tTr, inr Tr) ->
  exists a rest,
    fst (run env (TruffleCommands.deployContracts C L) past) =
    Did (Telemetry_sendEvent "TruffleCommands.deployContracts.commandStarted" [])
      :: Called getTruffleConfigUri (inr uri)
      :: tT ++ tTr
      ++ Called (showQuickPick (getDefaultDeployDestinations C uri ++ T ++ Tr)
                   (placeholders_selectDeployDestination C)) a
      :: rest.
Proof.
  intros Huri HT HTr.
  unfold TruffleCommands.deployContracts, sendEvent.
  rewrite run_emit, run_call, Huri.
  rewrite run_bind_ok with (1 := HT). rewrite run_bind_ok with (1 := HTr).
  rewrite run_call, candidates. cbn [fst snd].
  match goal with
  | |- context [env ?X ?h (showQuickPick ?l ?ph)] =>
      destruct (env X h (showQuickPick l ph)) as [e | command]
  end; cbn [fst snd]; eauto.
Qed.

Lemma deployContracts_offered
  (env : Env) (past : Trace) (items : list (IDeployDestination TopCmd)) :
  In items (offered (fst (run env (TruffleCommands.deployContracts C L) past))) ->
  exists uri past1 past2 T Tr,
    In (Called getTruffleConfigUri (inr uri))
       (fst (run env (TruffleCommands.deployContracts C L) past))
    /\ snd (run env (getTruffleDeployDestinations C L uri) past1) = inr T
    /\ snd (run env (getTreeDeployDestinations C uri) past2) = inr Tr
    /\ items = getDefaultDeployDestinations C uri ++ T ++ Tr.
Proof.
  unfold TruffleCommands.deployContracts, sendEvent.
  rewrite run_emit, run_call.
  set (past1 := past ++ _).
  destruct (env _ past1 getTruffleConfigUri) as [e | uri]; [intros [] |].
  set (past2 := past1 ++ _).
  pose proof (only_run (fun e => negb (isOffer e)) _ env past2
                (getTruffleDeployDestinations_only (fun e => negb (isOffer e)) uri
                   (fun _ => eq_refl) (fun _ => eq_refl))) as FT.
  destruct (run env (getTruffleDeployDestinations C L uri) past2)
    as [tT [e | T]] eqn:ET; simpl in FT; apply offered_none in FT.
  { rewrite run_bind_err with (1 := ET). simpl. rewrite FT. intros []. }
  rewrite run_bind_ok with (1 := ET).
  pose proof (only_run (fun e => negb (isOffer e)) _ env (past2 ++ tT)
                (getTreeDeployDestinations_only (fun e => negb (isOffer e)) uri
                   (fun _ => eq_refl) (fun _ => eq_refl))) as FTr.
  destruct (run env (getTreeDeployDestinations C uri) (past2 ++ tT))
    as [tTr [e | Tr]] eqn:ETr; simpl in FTr; apply offered_none in FTr.
  { rewrite run_bind_err with (1 := ETr). simpl. rewrite offered_app, FT, FTr. intros []. }
  rewrite run_bind_ok with (1 := ETr). rewrite run_call, candidates.
  set (shown := getDefaultDeployDestinations C uri ++ T ++ Tr).
  set (ask := showQuickPick shown (placeholders_selectDeployDestination C)).
  set (past3 := (past2 ++ tT) ++ tTr).
  assert (W : forall t,
             In items (offered (Did (Telemetry_sendEvent
                                       "TruffleCommands.deployContracts.commandStarted" [])
                                  :: Called getTruffleConfigUri (inr uri)
                                  :: tT ++ tTr ++ t)) ->
             In items (offered t)).
  { intros t. change (Did ?a :: Called ?c ?r :: tT ++ tTr ++ t)
      with ([Did a; Called c r] ++ tT ++ tTr ++ t).
    rewrite !offered_app, FT, FTr. simpl. auto. }
  cbn [fst snd]. intros H. apply W in H. clear W.
  exists uri, past2, (past2 ++ tT), T, Tr.
  rewrite ET, ETr.
  split; [right; left; reflexivity |].
  split; [reflexivity |]. split; [reflexivity |].
  destruct (env _ past3 ask) as [e | command]; cbn [fst snd] in H.
  - simpl in H. destruct H as [E | []]. symmetry. exact E.
  - match type of H with
    | context [run env ?p ?h] =>
        assert (O : only (fun e => negb (isOffer e)) p);
        [ unfold validateOpenZeppelinContracts; footprint; apply invokeTop_no_offer
        | pose proof (only_run _ _ env h O) as F ]
    end.
    apply offered_none in F.
    change (Called ?c ?r :: ?t) with ([Called c r] ++ t) in H.
    rewrite offered_app, F in H. simpl in H. destruct H as [E | []].
    symmetry. exact E.
Qed.

(** C4: in every run of [deployContracts], a list handed to the quick
    pick is the concatenation of the default destinations for the
    configuration path, the destinations that [getTruffleDeployDestinations]
    returned and the destinations that [getTreeDeployDestinations]
    returned, in this order; and whenever the path and the two lists are
    obtained, the quick pick is opened on that concatenation. *)
Theorem deployContracts_offers_concatenation (env : Env) (past : Trace) :
  (forall items,
      In items (offered (fst (run env (TruffleCommands.deployContracts C L) past))) ->
      exists uri past1 past2 T Tr,
        In (Called getTruffleConfigUri (inr uri))
           (fst (run env (TruffleCommands.deployContracts C L) past))
        /\ snd (run env (getTruffleDeployDestinations C L uri) past1) = inr T
        /\ snd (run env (getTreeDeployDestinations C uri) past2) = inr Tr
        /\ items = getDefaultDeployDestinations C uri ++ T ++ Tr)
  /\
  (forall uri tT tTr T Tr,
      env _ (past ++ [Did (Telemetry_sendEvent
                             "TruffleCommands.deployContracts.commandStarted" [])])
        getTruffleConfigUri = inr uri ->
      run env (getTruffleDeployDestinations C L uri)
        ((past ++ [Did (Telemetry_sendEvent
                          "TruffleCommands.deployContracts.commandStarted" [])])
           ++ [Called getTruffleConfigUri (inr uri)]) = (tT, inr T) ->
      run env (getTreeDeployDestinations C uri)
        (((past ++ [Did (Telemetry_sendEvent
                           "TruffleCommands.deployContracts.commandStarted" [])])
            ++ [Called getTruffleConfigUri (inr uri)]) ++ tT) = (tTr, inr Tr) ->
      exists a rest,
        fst (run env (TruffleCommands.deployContracts C L) past) =
        Did (Telemetry_sendEvent "TruffleCommands.deployContracts.commandStarted" [])
          :: Called getTruffleConfigUri (inr uri)
          :: tT ++ tTr
          ++ Called (showQuickPick (getDefaultDeployDestinations C uri ++ T ++ Tr)
                       (placeholders_selectDeployDestination C)) a
          :: rest).
Proof.
  split.
  - intros items. apply deployContracts_offered.
  - intros uri tT tTr T Tr. apply deployContracts_reaches_quick_pick.
Qed.

End Commands.

(** ** The list offered is not deduplicated *)

(** C1 (the code departs from it): with a configuration that lists the
    local chain under two names, the list that [deployContracts] hands to
    the quick pick holds the URL 127.0.0.1:8545 twice. *)
Theorem deployContracts_offers_duplicate_urls :
  map (map (@description TopCmd))
      (offered (fst (run (Sample.env Sample.twoNames)
                       (TruffleCommands.deployContracts Sample.constants Sample.library)
                       []))) =
  [[None; Some "127.0.0.1:8545"; Some "127.0.0.1:8545"]].
Proof. vm_compute. reflexivity. Qed.

(** ** The theorems at work on the sample host *)

Lemma sample_local_url :
  LocalGanacheUrl (defaultLocalhostPort Sample.constants) "http://127.0.0.1:8545".
Proof. apply String_match_localGanache. reflexivity. Qed.

Lemma sample_remote_url :
  ~ LocalGanacheUrl (defaultLocalhostPort Sample.constants)
      "https://mainnet.infura.io/v3/key".
Proof. apply String_match_not_localGanache. reflexivity. Qed.

(** A local URL wins over the network id 1. *)
Lemma getTruffleDeployFunction_classifies_witness :
  run (Sample.env Sample.quiet)
      (getTruffleDeployFunction Sample.constants "http://127.0.0.1:8545"
         "development" Sample.configPath (IdNumber 1))
      [] =
  ([Did (Telemetry_sendEvent
           "TruffleCommands.getTruffleDeployFunction.returnDeployToLocalGanache" [])],
   inr (deployToLocalGanache_bound "development" Sample.configPath
          "http://127.0.0.1:8545")).
Proof.
  exact (proj1 (getTruffleDeployFunction_classifies Sample.constants
                  "http://127.0.0.1:8545" "development" Sample.configPath
                  (IdNumber 1) (Sample.env Sample.quiet) [])
               sample_local_url).
Defined.

Lemma deployToMainNetwork_confirms_first_witness :
  precedes confirmed isDeployToNetworkStep
    (fst (run (Sample.env Sample.quiet)
            (invoke Sample.constants Sample.library
               (deployToMainNetwork_bound "mainnet" Sample.configPath))
            [])).
Proof.
  exact (proj1 (proj2 (deployToMainNetwork_confirms_first
                         Sample.constants Sample.library
                         "mainnet" Sample.configPath
                         (Sample.env Sample.quiet) [] []
                         sample_remote_url (or_introl eq_refl)))).
Defined.

Lemma deployToLocalGanache_starts_server_first_witness :
  precedes (startedGanache (Some 8545%N)) isDeployToNetworkStep
    (fst (run (Sample.env Sample.quiet)
            (invoke Sample.constants Sample.library
               (deployToLocalGanache_bound "development" Sample.configPath
                  "http://127.0.0.1:8545"))
            [])).
Proof.
  exact (proj1 (proj2 (proj2 (deployToLocalGanache_starts_server_first
                                Sample.constants Sample.library
                                "development" Sample.configPath (IdString "*")
                                (Sample.env Sample.quiet) [] []
                                sample_local_url)))).
Defined.

Lemma getServiceCreateFunction_classifies_witness :
  run (Sample.env Sample.withTree)
      (getServiceCreateFunction Sample.constants Sample.localNode Sample.configPath)
      [] =
  ([Did (Telemetry_sendEvent
           "TruffleCommands.getServiceCreateFunction.returnCreateLocalGanacheNetwork" [])],
   inr (createLocalGanacheNetwork_bound Sample.localNode Sample.configPath)).
Proof.
  exact (proj1 (proj1 (getServiceCreateFunction_classifies
                         Sample.constants Sample.library
                         Sample.localNode Sample.configPath
                         (Sample.env Sample.withTree) [] [])
                      eq_refl)).
Defined.

Lemma getTreeDeployDestinations_one_per_network_node_witness :
  exists t dests,
    run (Sample.env Sample.withTree)
        (getTreeDeployDestinations Sample.constants Sample.configPath) [] =
    (Called TreeManager_getItems (inr [Sample.localService]) :: t, inr dests)
    /\ Forall2 (fun d n =>
                  dlabel d = label n
                  /\ description d = Some (rpcAddress n)
                  /\ dnetworkId d = networkId n)
               dests [Sample.localNode; Sample.azureNode].
Proof.
  exact (getTreeDeployDestinations_one_per_network_node
           Sample.constants Sample.configPath
           (Sample.env Sample.withTree) [] eq_refl).
Defined.

Lemma deployContracts_offers_concatenation_witness :
  exists tT tTr T Tr a rest,
    fst (run (Sample.env Sample.twoNames)
           (TruffleCommands.deployContracts Sample.constants Sample.library) []) =
    Did (Telemetry_sendEvent "TruffleCommands.deployContracts.commandStarted" [])
      :: Called getTruffleConfigUri (inr Sample.configPath)
      :: tT ++ tTr
      ++ Called (showQuickPick
                   (getDefaultDeployDestinations Sample.constants Sample.configPath
                      ++ T ++ Tr)
                   (placeholders_selectDeployDestination Sample.constants)) a
      :: rest.
Proof.
  do 4 eexists.
  eapply (proj2 (deployContracts_offers_concatenation Sample.constants Sample.library
                   (Sample.env Sample.twoNames) []));
    [reflexivity | vm_compute; reflexivity | vm_compute; reflexivity].
Defined.

Lemma deployContracts_stops_on_invalid_contracts_witness :
  snd (run (Sample.env Sample.changedContract)
         (TruffleCommands.deployContracts Sample.constants Sample.library) []) =
    inl (JsError "OpenZeppelin files are invalid: contracts/ERC20.sol")
  /\ forallb (fun e => negb (isStrategyStep e))
       (fst (run (Sample.env Sample.changedContract)
               (TruffleCommands.deployContracts Sample.constants Sample.library) []))
     = true.
Proof.
  apply (deployContracts_stops_on_invalid_contracts Sample.constants Sample.library
           (Sample.env Sample.changedContract) []
           (Sample.contracts Sample.changedContract)).
  - vm_compute. left. reflexivity.
  - reflexivity.
Defined.

Lemma getPrivateKeyFromMnemonic_copies_derived_key_witness :
  clipboardWrites
    (fst (run (Sample.env Sample.oneMnemonic)
            (TruffleCommands.getPrivateKeyFromMnemonic Sample.constants Sample.library)
            [])) =
  ["hex(master(seed(test test test))/m/44'/60'/0'/0/0)"].
Proof.
  refine (proj1 (getPrivateKeyFromMnemonic_copies_derived_key
                   Sample.constants Sample.library
                   (Sample.env Sample.oneMnemonic) [] Sample.mnemonicItem _ _)
                _ _ _ _ eq_refl eq_refl eq_refl eq_refl).
  - vm_compute. left. reflexivity.
  - discriminate.
Defined.

Lemma writeRPCEndpointAddressToBuffer_copies_nonempty_address_witness :
  clipboardWrites
    (fst (run (Sample.env Sample.quiet)
            (TruffleCommands.writeRPCEndpointAddressToBuffer
               Sample.constants Sample.library Sample.localProject) [])) =
  ["http://127.0.0.1:8545"]
  /\ clipboardWrites
       (fst (run (Sample.env Sample.quiet)
               (TruffleCommands.writeRPCEndpointAddressToBuffer
                  Sample.constants Sample.library Sample.emptyProject) [])) =
     [].
Proof.
  split.
  - exact (proj1 (proj2 (writeRPCEndpointAddressToBuffer_copies_nonempty_address
                           Sample.constants Sample.library
                           Sample.localProject (Sample.env Sample.quiet) []))).
  - exact (proj1 (proj2 (writeRPCEndpointAddressToBuffer_copies_nonempty_address
                           Sample.constants Sample.library
                           Sample.emptyProject (Sample.env Sample.quiet) []))).
Defined.

(** * Further properties *)

(** ** Catching *)

Lemma run_tryCatch (A : Type) (env : Env) (p : prog A) (h : Exn -> prog A)
  (past : Trace) :
  run env (tryCatch p h) past =
  match snd (run env p past) with
  | inr a => (fst (run env p past), inr a)
  | inl e =>
      (fst (run env p past) ++ fst (run env (h e) (past ++ fst (run env p past))),
       snd (run env (h e) (past ++ fst (run env p past))))
  end.
Proof.
  revert past. induction p as [a | e | e k IH | X c k IH]; intros past; simpl.
  - reflexivity.
  - rewrite app_nil_r. destruct (run env (h e) past); reflexivity.
  - rewrite IH. destruct (run env k (past ++ [Did e])) as [t [x | a]]; simpl.
    + rewrite <- app_assoc. reflexivity.
    + reflexivity.
  - rewrite IH. destruct (run env (k (env X past c)) _) as [t [x | a]]; simpl.
    + rewrite <- app_assoc. reflexivity.
    + reflexivity.
Qed.

Lemma run_then_ret (A : Type) (env : Env) (p : prog A) (past : Trace) :
  run env (p ;; Ret tt) past =
  (fst (run env p past),
   match snd (run env p past) with inl e => inl e | inr _ => inr tt end).
Proof.
  rewrite run_bind. destruct (run env p past) as [t [e | a]]; simpl; [reflexivity |].
  rewrite app_nil_r. reflexivity.
Qed.

Section TryExecute.

Variable T : Thrown.


End TryExecute.

(** ** More rules for traces *)

Lemma satisfies_emit (env : Env) (e : Effect) (past : Trace)
  (Q : Trace -> Exn + unit -> Prop) :
  Q [Did e] (inr tt) -> satisfies env (emit e) past Q.
Proof. intros H. exact H. Qed.

Lemma satisfies_weaken (A : Type) (env : Env) (p : prog A) (past : Trace)
  (Q1 Q2 : Trace -> Exn + A -> Prop) :
  satisfies env p past Q1 -> (forall t r, Q1 t r -> Q2 t r) -> satisfies env p past Q2.
Proof. intros H W. apply W. exact H. Qed.

Lemma precedes_app_clean (guard step : Entry -> bool) (t t' : Trace) :
  forallb (fun e => negb (step e)) t = true ->
  precedes guard step t' -> precedes guard step (t ++ t').
Proof.
  induction t as [| x t IH]; simpl; intros F H; [exact H |].
  apply andb_true_iff in F as [Fx Ft]. apply negb_true_iff in Fx.
  apply precedes_cons_skip; auto.
Qed.

Lemma offerRejections_app (t t' : Trace) :
  offerRejections (t ++ t') = offerRejections t ++ offerRejections t'.
Proof. apply flat_map_app. Qed.

Lemma offerRejections_none (t : Trace) :
  forallb (fun e => negb (isOffer e)) t = true -> offerRejections t = [].
Proof.
  induction t as [| e t IH]; [reflexivity |].
  intros H. simpl in H. apply andb_true_iff in H as [He Ht].
  change (e :: t) with ([e] ++ t).
  rewrite offerRejections_app, (IH Ht), app_nil_r.
  destruct e as [| X c a]; [reflexivity |]. destruct c; try reflexivity; discriminate.
Qed.

Lemma errorMessages_app (t t' : Trace) :
  errorMessages (t ++ t') = errorMessages t ++ errorMessages t'.
Proof. apply flat_map_app. Qed.

Lemma errorMessages_none (t : Trace) :
  forallb (fun e => negb (isErrorMessage e)) t = true -> errorMessages t = [].
Proof.
  induction t as [| e t IH]; [reflexivity |].
  intros H. simpl in H. apply andb_true_iff in H as [He Ht].
  change (e :: t) with ([e] ++ t).
  rewrite errorMessages_app, (IH Ht), app_nil_r.
  destruct e as [eff | X c a]; [| reflexivity].
  destruct eff; try reflexivity; discriminate.
Qed.

Lemma forallb_and (A : Type) (P Q : A -> bool) (l : list A) :
  forallb (fun x => P x && Q x) l = true <->
  forallb P l = true /\ forallb Q l = true.
Proof.
  induction l as [| x l IH]; simpl; [tauto |].
  rewrite !andb_true_iff, IH. tauto.
Qed.

(** ** What the strategies leave in a trace *)

Section Strategies.

Variable C : ConstantsT.
Variable L : Library.
Variable P : Entry -> bool.
Hypothesis P_steps : forall e, isStrategyStep e = true -> P e = true.
Hypothesis P_started :
  P (Did (Telemetry_sendEvent
            "TruffleCommands.createNewDeploymentService.commandStarted" [])) = true.
Hypothesis P_selected :
  forall v,
    P (Did (Telemetry_sendEvent
              "TruffleCommands.deployContracts.createNewDeploymentService.selectedDestination"
              [("url", v)])) = true.

Ltac strategy :=
  repeat first
    [ exact I
    | apply only_bind; [| intro]
    | apply only_call; intro; apply P_steps; reflexivity
    | apply only_emit; first [apply P_steps; reflexivity | apply P_started | apply P_selected]
    | progress unfold sendEvent ].

Lemma deployToNetwork_only (n p : string) : only P (deployToNetwork C L n p).
Proof. unfold deployToNetwork. strategy. Qed.

Lemma invoke_only (c : Cmd) : only P (invoke C L c).
Proof.
  pose proof deployToNetwork_only as D.
  destruct c; unfold invoke, deployToLocalGanache, deployToMainNetwork,
    createLocalGanacheNetwork, createNetwork; strategy; apply D.
Qed.

Lemma invokeTop_only (c : TopCmd) : only P (invokeTop C L c).
Proof.
  destruct c as [p | c]; unfold invokeTop; [| apply invoke_only].
  unfold createNewDeploymentService. strategy. apply invoke_only.
Qed.

End Strategies.

(** The names of the telemetry events of the two functions that choose a
    closure. *)
Lemma getTruffleDeployDestinations_footprint (C : ConstantsT) (L : Library)
  (P : Entry -> bool) (path : string) :
  (forall a, P (Called (getNetworks path) a) = true) ->
  P (Did (Telemetry_sendEvent
            "TruffleCommands.getTruffleDeployFunction.returnDeployToLocalGanache" [])) = true ->
  P (Did (Telemetry_sendEvent
            "TruffleCommands.getTruffleDeployFunction.returnDeployToMainNetwork" [])) = true ->
  P (Did (Telemetry_sendEvent
            "TruffleCommands.getTruffleDeployFunction.returnDeployToNetwork" [])) = true ->
  only P (getTruffleDeployDestinations C L path).
Proof.
  intros H0 H1 H2 H3. unfold getTruffleDeployDestinations.
  apply only_bind; [apply only_call; exact H0 | intros networks].
  apply only_mapM. intros network. apply only_bind; [| intro; exact I].
  unfold getTruffleDeployFunction, sendEvent.
  destruct (String_match _ _); [| destruct (isMainNetworkId _)];
    (apply only_bind; [apply only_emit; assumption | intro; exact I]).
Qed.

Lemma getTreeDeployDestinations_footprint (C : ConstantsT)
  (P : Entry -> bool) (path : string) :
  (forall a, P (Called TreeManager_getItems a) = true) ->
  P (Did (Telemetry_sendEvent
            "TruffleCommands.getServiceCreateFunction.returnCreateLocalGanacheNetwork" []))
  = true ->
  P (Did (Telemetry_sendEvent
            "TruffleCommands.getServiceCreateFunction.returnCreateService" [])) = true ->
  only P (getTreeDeployDestinations C path).
Proof.
  intros H0 H1 H2. unfold getTreeDeployDestinations.
  apply only_bind; [apply only_call; exact H0 | intros services].
  apply only_mapM. intros network. apply only_bind; [| intro; exact I].
  unfold getServiceCreateFunction, sendEvent.
  destruct (isLocalNetworkNodeOnPort _ _);
    (apply only_bind; [apply only_emit; assumption | intro; exact I]).
Qed.

(** Solves [only P p] for the parts of [deployContracts], [P] concrete. *)
Ltac part C L :=
  first
    [ solve [footprint]
    | solve [apply getTruffleDeployDestinations_footprint; first [reflexivity | intro; reflexivity]]
    | solve [apply getTreeDeployDestinations_footprint; first [reflexivity | intro; reflexivity]]
    | solve [unfold validateOpenZeppelinContracts; footprint]
    | solve [apply invokeTop_only;
             [ intros [? | ? ? ?] ?;
               match goal with
               | H : isStrategyStep (Did ?eff) = true |- _ => destruct eff
               | H : isStrategyStep (Called ?c _) = true |- _ => destruct c
               end;
               first [ reflexivity
                     | match goal with
                       | H : isStrategyStep _ = true |- _ => simpl in H; discriminate H
                       end ]
             | reflexivity
             | intro; reflexivity ]] ].

(** One step of a command whose entries all satisfy [P]. *)
Ltac pass P stop skip C L :=
  eapply satisfies_after with (P := P); [exact stop | exact skip | part C L |].

Section DeployContracts.

Variable C : ConstantsT.
Variable L : Library.

Lemma deployContracts_cancelled_pick (env : Env) (past : Trace) (e : Exn) :
  In e (offerRejections (fst (run env (TruffleCommands.deployContracts C L) past))) ->
  snd (run env (TruffleCommands.deployContracts C L) past) = inl e
  /\ forallb (fun x => negb (isRequirementStep x) && negb (isValidation x)
                       && negb (isStrategyStep x) && negb (isErrorMessage x))
       (fst (run env (TruffleCommands.deployContracts C L) past)) = true.
Proof.
  set (quietly := fun x => negb (isRequirementStep x) && negb (isValidation x)
                           && negb (isStrategyStep x) && negb (isErrorMessage x)).
  set (P := fun x => quietly x && negb (isOffer x)).
  set (Q := fun (t : Trace) (r : Exn + unit) =>
              In e (offerRejections t) -> r = inl e /\ forallb quietly t = true).
  change (satisfies env (TruffleCommands.deployContracts C L) past Q).
  assert (clean : forall t, forallb P t = true ->
                            forallb quietly t = true /\ offerRejections t = []).
  { intros t F. apply forallb_and in F as [F1 F2]. split; [exact F1 |].
    apply offerRejections_none. exact F2. }
  assert (Q_stop : forall t x, forallb P t = true -> Q t (inl x)).
  { intros t x F H. apply clean in F as [_ F]. rewrite F in H. destruct H. }
  assert (Q_skip : forall t t' r, forallb P t = true -> Q t' r -> Q (t ++ t') r).
  { intros t t' r F H I. apply clean in F as [F1 F2].
    rewrite offerRejections_app, F2 in I. destruct (H I) as [-> G].
    split; [reflexivity |]. rewrite forallb_app, F1, G. reflexivity. }
  unfold TruffleCommands.deployContracts.
  pass P Q_stop Q_skip C L; intros _ past1.
  pass P Q_stop Q_skip C L; intros uri past2.
  pass P Q_stop Q_skip C L; intros T past3.
  pass P Q_stop Q_skip C L; intros Tr past4.
  apply satisfies_bind, satisfies_call.
  - intros x [<- | []]. split; reflexivity.
  - intros command. unfold satisfies.
    match goal with
    | |- context [run env ?p ?h] =>
        assert (O : only (fun x => negb (isOffer x)) p);
        [ footprint; first [part C L | apply invokeTop_no_offer]
        | pose proof (only_run _ _ env h O) as F ]
    end.
    apply offerRejections_none in F.
    intros H. rewrite offerRejections_app, F in H. destruct H.
Qed.

(** X2: when the quick pick of [deployContracts] rejects (the user
    dismissed it), [deployContracts] rejects with the same value, and
    nothing has been checked, installed, validated or deployed. *)
Theorem deployContracts_cancelled_pick_does_nothing
  (env : Env) (past : Trace) (e : Exn) :
  In e (offerRejections (fst (run env (TruffleCommands.deployContracts C L) past))) ->
  snd (run env (TruffleCommands.deployContracts C L) past) = inl e
  /\ forallb (fun x => negb (isRequirementStep x) && negb (isValidation x)
                       && negb (isStrategyStep x))
       (fst (run env (TruffleCommands.deployContracts C L) past)) = true.
Proof.
  intros H. destruct (deployContracts_cancelled_pick env past e H) as [R F].
  split; [exact R |]. revert F. apply forallb_impl.
  intros x Hx. apply andb_true_iff in Hx. tauto.
Qed.

(** X9: when the quick pick of the command truffle.deployContracts
    rejects with a [CancellationEvent], the command ends normally, shows no
    error message, and nothing has been checked, installed, validated or
    deployed. *)
Theorem deployContracts_command_cancelled_silently
  (T : Thrown) (env : Env) (past : Trace) (e : Exn) :
  In e (offerRejections (fst (run env (Extension.deployContracts T C L) past))) ->
  instanceofCancellationEvent T e = true ->
  snd (run env (Extension.deployContracts T C L) past) = inr tt
  /\ errorMessages (fst (run env (Extension.deployContracts T C L) past)) = []
  /\ forallb (fun x => negb (isRequirementStep x) && negb (isValidation x)
                       && negb (isStrategyStep x))
       (fst (run env (Extension.deployContracts T C L) past)) = true.
Proof.
  unfold Extension.deployContracts, tryExecute.
  rewrite run_tryCatch, run_then_ret. cbn [fst snd].
  intros H Ce.
  assert (H' : In e (offerRejections
                       (fst (run env (TruffleCommands.deployContracts C L) past)))).
  { destruct (snd (run env (TruffleCommands.deployContracts C L) past)) as [x | u];
      cbn [fst snd] in H; [| exact H].
    rewrite offerRejections_app in H. apply in_app_or in H as [H | H]; [exact H |].
    destruct (instanceofCancellationEvent T x); simpl in H; destruct H. }
  destruct (deployContracts_cancelled_pick env past e H') as [R F].
  rewrite R. cbn [fst snd]. rewrite Ce. cbn [fst snd run]. rewrite app_nil_r.
  split; [reflexivity |]. split.
  - apply errorMessages_none. revert F. apply forallb_impl.
    intros x Hx. apply andb_true_iff in Hx. tauto.
  - revert F. apply forallb_impl. intros x Hx. apply andb_true_iff in Hx. tauto.
Qed.

(** X3: [deployContracts] installs truffle exactly when the silent check
    answered that it is missing: [required.installTruffle] is called only
    after [required.checkAppsSilent] answered false, and is called whenever
    it did. *)
Theorem deployContracts_installs_truffle_when_missing (env : Env) (past : Trace) :
  precedes foundMissing isInstallTruffle
    (fst (run env (TruffleCommands.deployContracts C L) past))
  /\ (existsb foundMissing (fst (run env (TruffleCommands.deployContracts C L) past)) = true ->
      existsb isInstallTruffle (fst (run env (TruffleCommands.deployContracts C L) past))
      = true).
Proof.
  set (P := fun x => negb (isInstallTruffle x) && negb (isCheckApps x)).
  set (Q := fun (t : Trace) (r : Exn + unit) =>
              precedes foundMissing isInstallTruffle t
              /\ (existsb foundMissing t = true -> existsb isInstallTruffle t = true)).
  change (satisfies env (TruffleCommands.deployContracts C L) past Q).
  assert (clean : forall t, forallb P t = true ->
                            forallb (fun x => negb (isInstallTruffle x)) t = true
                            /\ existsb foundMissing t = false).
  { intros t F. apply forallb_and in F as [F1 F2]. split; [exact F1 |].
    clear F1. induction t as [| x t IH]; [reflexivity |].
    simpl in F2. apply andb_true_iff in F2 as [Fx Ft]. simpl. rewrite (IH Ft).
    destruct x as [| X c a]; [reflexivity |]. destruct c; try reflexivity; discriminate. }
  assert (Q_none : forall t r, forallb P t = true -> Q t r).
  { intros t r F. apply clean in F as [F1 F2]. split.
    - apply precedes_none. exact F1.
    - rewrite F2. discriminate. }
  assert (Q_stop : forall t x, forallb P t = true -> Q t (inl x)).
  { intros t x. apply Q_none. }
  assert (Q_skip : forall t t' r, forallb P t = true -> Q t' r -> Q (t ++ t') r).
  { intros t t' r F [H1 H2]. apply clean in F as [F1 F2]. split.
    - apply precedes_app_clean; assumption.
    - rewrite !existsb_app, F2. simpl. intros H. rewrite (H2 H). apply orb_true_r. }
  unfold TruffleCommands.deployContracts.
  pass P Q_stop Q_skip C L; intros _ past1.
  pass P Q_stop Q_skip C L; intros uri past2.
  pass P Q_stop Q_skip C L; intros T past3.
  pass P Q_stop Q_skip C L; intros Tr past4.
  pass P Q_stop Q_skip C L; intros command past5.
  pass P Q_stop Q_skip C L; intros _ past6.
  apply satisfies_bind, satisfies_call.
  - intros x. split; [apply precedes_none; reflexivity | discriminate].
  - intros [|].
    + (* truffle is there: nothing later installs it or checks again *)
      apply satisfies_only with (P := P); [| intros t r F].
      * footprint; part C L.
      * apply clean in F as [F1 F2]. split.
        -- apply precedes_cons_skip; [reflexivity | apply precedes_none; exact F1].
        -- simpl. rewrite F2. discriminate.
    + (* truffle is missing: the installation is the next call *)
      apply satisfies_weaken
        with (Q1 := fun t (_ : Exn + unit) => existsb isInstallTruffle t = true).
      * simpl negb. cbv iota. unfold sendEvent.
        apply satisfies_bind, satisfies_bind, satisfies_emit, satisfies_call.
        -- intros x. reflexivity.
        -- intros u. reflexivity.
      * intros t r E. split.
        -- apply precedes_cons_guard; reflexivity.
        -- intros _. simpl. exact E.
Qed.

Lemma existsb_none (A : Type) (f : A -> bool) (l : list A) :
  forallb (fun x => negb (f x)) l = true -> existsb f l = false.
Proof.
  induction l as [| x l IH]; simpl; [reflexivity |].
  intros F. apply andb_true_iff in F as [Fx Fl]. apply negb_true_iff in Fx.
  rewrite Fx, (IH Fl). reflexivity.
Qed.

Lemma versionRefused_is_check (e : Entry) :
  versionRefused e = true -> isVersionCheck e = true.
Proof.
  destruct e as [| X c a]; [discriminate |]. destruct c; try discriminate. reflexivity.
Qed.

(** X4: [deployContracts] asks for the version of the HD wallet provider
    only after [required.isHdWalletProviderRequired] answered true, installs
    the provider only after [required.checkHdWalletProviderVersion]
    answered false, and installs it whenever that check answered false. *)
Theorem deployContracts_installs_provider_when_outdated (env : Env) (past : Trace) :
  precedes providerRequired isVersionCheck
    (fst (run env (TruffleCommands.deployContracts C L) past))
  /\ precedes versionRefused isInstallHdWalletProvider
       (fst (run env (TruffleCommands.deployContracts C L) past))
  /\ (existsb versionRefused (fst (run env (TruffleCommands.deployContracts C L) past))
      = true ->
      existsb isInstallHdWalletProvider
        (fst (run env (TruffleCommands.deployContracts C L) past)) = true).
Proof.
  set (P := fun x => negb (isVersionCheck x) && negb (isInstallHdWalletProvider x)).
  set (Q := fun (t : Trace) (r : Exn + unit) =>
              precedes providerRequired isVersionCheck t
              /\ precedes versionRefused isInstallHdWalletProvider t
              /\ (existsb versionRefused t = true ->
                  existsb isInstallHdWalletProvider t = true)).
  change (satisfies env (TruffleCommands.deployContracts C L) past Q).
  assert (clean : forall t, forallb P t = true ->
                            forallb (fun x => negb (isVersionCheck x)) t = true
                            /\ forallb (fun x => negb (isInstallHdWalletProvider x)) t = true
                            /\ existsb versionRefused t = false).
  { intros t F. apply forallb_and in F as [F1 F2]. repeat split; try assumption.
    apply existsb_none. revert F1. apply forallb_impl. intros x Hx.
    destruct (versionRefused x) eqn:V; [| reflexivity].
    apply versionRefused_is_check in V. rewrite V in Hx. discriminate. }
  assert (Q_none : forall t r, forallb P t = true -> Q t r).
  { intros t r F. apply clean in F as (F1 & F2 & F3). repeat split.
    - apply precedes_none. exact F1.
    - apply precedes_none. exact F2.
    - rewrite F3. discriminate. }
  assert (Q_stop : forall t x, forallb P t = true -> Q t (inl x)).
  { intros t x. apply Q_none. }
  assert (Q_skip : forall t t' r, forallb P t = true -> Q t' r -> Q (t ++ t') r).
  { intros t t' r F (H1 & H2 & H3). apply clean in F as (F1 & F2 & F3). repeat split.
    - apply precedes_app_clean; assumption.
    - apply precedes_app_clean; assumption.
    - rewrite !existsb_app, F3. simpl. intros H. rewrite (H3 H). apply orb_true_r. }
  unfold TruffleCommands.deployContracts.
  pass P Q_stop Q_skip C L; intros _ past1.
  pass P Q_stop Q_skip C L; intros uri past2.
  pass P Q_stop Q_skip C L; intros T past3.
  pass P Q_stop Q_skip C L; intros Tr past4.
  pass P Q_stop Q_skip C L; intros command past5.
  pass P Q_stop Q_skip C L; intros _ past6.
  pass P Q_stop Q_skip C L; intros hasTruffle past7.
  pass P Q_stop Q_skip C L; intros _ past8.
  apply satisfies_bind, satisfies_call.
  { intros x. apply Q_none. reflexivity. }
  intros [|].
  - (* the provider is required: its version is asked for next *)
    apply satisfies_bind, satisfies_call.
    { intros x. repeat split.
      - apply precedes_cons_guard; reflexivity.
      - apply precedes_none. reflexivity.
      - discriminate. }
    intros [|].
    + (* the version is fine: nothing more is asked or installed *)
      apply satisfies_only with (P := P); [footprint; part C L | intros t r F].
      apply clean in F as (F1 & F2 & F3). repeat split.
      * apply precedes_cons_guard; reflexivity.
      * apply precedes_cons_skip; [reflexivity |].
        apply precedes_cons_skip; [reflexivity |].
        apply precedes_none. exact F2.
      * simpl. rewrite F3. discriminate.
    + (* the version is refused: the installation is the next call *)
      apply satisfies_weaken
        with (Q1 := fun t (_ : Exn + unit) => existsb isInstallHdWalletProvider t = true).
      * simpl andb. cbv iota. unfold sendEvent.
        apply satisfies_bind, satisfies_bind, satisfies_emit, satisfies_call.
        -- intros x. reflexivity.
        -- intros u. reflexivity.
      * intros t r E. repeat split.
        -- apply precedes_cons_guard; reflexivity.
        -- apply precedes_cons_skip; [reflexivity |].
           apply precedes_cons_guard; reflexivity.
        -- intros _. simpl. exact E.
  - (* the provider is not required: its version is not asked for *)
    apply satisfies_only with (P := P); [footprint; part C L | intros t r F].
    apply (Q_skip [_] t r); [reflexivity | apply Q_none; exact F].
Qed.

(** X5: in every run of [deployContracts], each step of a deployment
    strategy comes after the validation of the OpenZeppelin contracts
    answered a list without an invalid contract: nothing is deployed when
    the validation rejects, is not reached, or finds an invalid contract. *)
Theorem deployContracts_deploys_after_passed_validation (env : Env) (past : Trace) :
  precedes validationPassed isStrategyStep
    (fst (run env (TruffleCommands.deployContracts C L) past)).
Proof.
  set (P := fun x => negb (isStrategyStep x)).
  set (Q := fun (t : Trace) (r : Exn + unit) => precedes validationPassed isStrategyStep t).
  change (satisfies env (TruffleCommands.deployContracts C L) past Q).
  assert (Q_stop : forall t x, forallb P t = true -> Q t (inl x)).
  { intros t x F. apply precedes_none. exact F. }
  assert (Q_skip : forall t t' r, forallb P t = true -> Q t' r -> Q (t ++ t') r).
  { intros t t' r F H. apply precedes_app_clean; assumption. }
  unfold TruffleCommands.deployContracts.
  pass P Q_stop Q_skip C L; intros _ past1.
  pass P Q_stop Q_skip C L; intros uri past2.
  pass P Q_stop Q_skip C L; intros T past3.
  pass P Q_stop Q_skip C L; intros Tr past4.
  pass P Q_stop Q_skip C L; intros command past5.
  pass P Q_stop Q_skip C L; intros _ past6.
  pass P Q_stop Q_skip C L; intros hasTruffle past7.
  pass P Q_stop Q_skip C L; intros _ past8.
  pass P Q_stop Q_skip C L; intros required past9.
  pass P Q_stop Q_skip C L; intros versionOk past10.
  pass P Q_stop Q_skip C L; intros _ past11.
  apply satisfies_bind. unfold satisfies at 1.
  destruct (validateOpenZeppelinContracts_outcome C env past11) as (a & t & Et & Ft & Er).
  rewrite Et, Er. clear Et Er.
  assert (Fs : forallb P (Called validateContracts a :: t) = true).
  { simpl. revert Ft. apply forallb_impl. intros x Hx.
    apply andb_true_iff in Hx. tauto. }
  destruct a as [e | l].
  - apply precedes_none. exact Fs.
  - destruct (existsb isInvalidContract l) eqn:El.
    + apply precedes_none. exact Fs.
    + unfold satisfies, Q. apply precedes_cons_guard; [reflexivity |].
      simpl. rewrite El. reflexivity.
Qed.

(** X6: [deployContracts] reports
    TruffleCommands.deployContracts.commandFinished to the telemetry
    exactly when it returns normally. *)
Theorem deployContracts_finished_iff_returns (env : Env) (past : Trace) :
  existsb (isEvent "TruffleCommands.deployContracts.commandFinished")
    (fst (run env (TruffleCommands.deployContracts C L) past)) = true
  <-> snd (run env (TruffleCommands.deployContracts C L) past) = inr tt.
Proof.
  set (finished := isEvent "TruffleCommands.deployContracts.commandFinished").
  set (P := fun x => negb (finished x)).
  set (Q := fun (t : Trace) (r : Exn + unit) => existsb finished t = true <-> r = inr tt).
  change (satisfies env (TruffleCommands.deployContracts C L) past Q).
  assert (Q_stop : forall t x, forallb P t = true -> Q t (inl x)).
  { intros t x F. unfold Q. rewrite (existsb_none finished t F). split; discriminate. }
  assert (Q_skip : forall t t' r, forallb P t = true -> Q t' r -> Q (t ++ t') r).
  { intros t t' r F H. unfold Q. rewrite existsb_app, (existsb_none finished t F). exact H. }
  unfold TruffleCommands.deployContracts.
  pass P Q_stop Q_skip C L; intros _ past1.
  pass P Q_stop Q_skip C L; intros uri past2.
  pass P Q_stop Q_skip C L; intros T past3.
  pass P Q_stop Q_skip C L; intros Tr past4.
  pass P Q_stop Q_skip C L; intros command past5.
  pass P Q_stop Q_skip C L; intros _ past6.
  pass P Q_stop Q_skip C L; intros hasTruffle past7.
  pass P Q_stop Q_skip C L; intros _ past8.
  pass P Q_stop Q_skip C L; intros required past9.
  pass P Q_stop Q_skip C L; intros versionOk past10.
  pass P Q_stop Q_skip C L; intros _ past11.
  pass P Q_stop Q_skip C L; intros _ past12.
  pass P Q_stop Q_skip C L; intros _ past13.
  unfold satisfies, Q. simpl. split; reflexivity.
Qed.

End DeployContracts.

(** ** Validation of the OpenZeppelin contracts *)

Lemma run_forEach_emits (A : Type) (env : Env) (f : A -> prog unit) (g : A -> Entry)
  (l : list A) (past : Trace) :
  (forall x past', run env (f x) past' = ([g x], inr tt)) ->
  run env (forEach l f) past = (map g l, inr tt).
Proof.
  intros H. revert past. induction l as [| x l IH]; intros past; simpl; [reflexivity |].
  rewrite run_bind, H, IH. reflexivity.
Qed.

Section Validation.

Variable C : ConstantsT.
Variable L : Library.

Lemma validateOpenZeppelinContracts_run (env : Env) (past : Trace) :
  run env (validateOpenZeppelinContracts C) past =
  match env _ past validateContracts with
  | inl e => ([Called validateContracts (inl e)], inl e)
  | inr l =>
      if existsb isInvalidContract l
      then (Called validateContracts (inr l)
              :: map (contractReport C) l
              ++ [Did (window_showErrorMessage (invalidContractsMessage C l));
                  Did (Telemetry_sendException (JsError (invalidContractsMessage C l)))],
            inl (JsError (invalidContractsMessage C l)))
      else (Called validateContracts (inr l) :: map (contractReport C) l, inr tt)
  end.
Proof.
  unfold validateOpenZeppelinContracts. rewrite run_call.
  destruct (env _ past validateContracts) as [e | l]; [reflexivity |].
  rewrite run_bind.
  rewrite run_forEach_emits with (g := contractReport C).
  2:{ intros x past'. unfold contractReport. destruct (isExistedOnDisk x); reflexivity. }
  change (fun ozContract : OZContractValidated =>
            negb (isExistedOnDisk ozContract) || negb (isHashValid ozContract))
    with isInvalidContract.
  fold (invalidContractsMessage C l). unfold invalidContractsMessage.
  destruct (filter isInvalidContract l) as [| x rest] eqn:Ef.
  - apply filter_nil_existsb in Ef. rewrite Ef. simpl. rewrite app_nil_r. reflexivity.
  - assert (Ex : existsb isInvalidContract l = true).
    { destruct (existsb isInvalidContract l) eqn:Ex; [reflexivity |].
      apply filter_nil_existsb in Ex. congruence. }
    rewrite Ex. simpl. reflexivity.
Qed.


(** X7: when the validation service answers a list of contracts,
    [validateOpenZeppelinContracts] writes one line per contract to the
    output, in order, whether or not it then throws.  When no contract is
    missing or has an invalid hash it returns and shows no error; otherwise
    it shows one error message that names the paths of exactly the invalid
    contracts, in order, reports the error to the telemetry and throws it. *)
Theorem validateOpenZeppelinContracts_reports_then_decides
  (env : Env) (past : Trace) (l : list OZContractValidated) :
  env _ past validateContracts = inr l ->
  (existsb isInvalidContract l = false ->
   run env (validateOpenZeppelinContracts C) past =
   (Called validateContracts (inr l) :: map (contractReport C) l, inr tt))
  /\
  (existsb isInvalidContract l = true ->
   run env (validateOpenZeppelinContracts C) past =
   (Called validateContracts (inr l)
      :: map (contractReport C) l
      ++ [Did (window_showErrorMessage
                 (validationMessages_openZeppelinFilesAreInvalid C
                    (map contractPath (filter isInvalidContract l))));
          Did (Telemetry_sendException
                 (JsError (validationMessages_openZeppelinFilesAreInvalid C
                             (map contractPath (filter isInvalidContract l)))))],
    inl (JsError (validationMessages_openZeppelinFilesAreInvalid C
                    (map contractPath (filter isInvalidContract l)))))).
Proof.
  intros E. rewrite validateOpenZeppelinContracts_run, E.
  split; intros ->; reflexivity.
Qed.

Lemma validations_reports (l : list OZContractValidated) :
  validations (map (contractReport C) l) = [].
Proof. induction l as [| x l IH]; [reflexivity | exact IH]. Qed.

Lemma errorMessages_reports (l : list OZContractValidated) :
  errorMessages (map (contractReport C) l) = [].
Proof. induction l as [| x l IH]; [reflexivity | exact IH]. Qed.

Lemma deployContracts_invalid_contracts_message
  (env : Env) (past : Trace) (validated : list OZContractValidated) :
  In validated (validations (fst (run env (TruffleCommands.deployContracts C L) past))) ->
  existsb isInvalidContract validated = true ->
  snd (run env (TruffleCommands.deployContracts C L) past) =
    inl (JsError (invalidContractsMessage C validated))
  /\ errorMessages (fst (run env (TruffleCommands.deployContracts C L) past)) =
     [invalidContractsMessage C validated].
Proof.
  set (P := fun x => negb (isValidation x) && negb (isErrorMessage x)).
  set (Q := fun (t : Trace) (r : Exn + unit) =>
              In validated (validations t) ->
              existsb isInvalidContract validated = true ->
              r = inl (JsError (invalidContractsMessage C validated))
              /\ errorMessages t = [invalidContractsMessage C validated]).
  change (satisfies env (TruffleCommands.deployContracts C L) past Q).
  assert (clean : forall t, forallb P t = true ->
                            validations t = [] /\ errorMessages t = []).
  { intros t F. apply forallb_and in F as [F1 F2]. split.
    - apply validations_none. exact F1.
    - apply errorMessages_none. exact F2. }
  assert (Q_stop : forall t x, forallb P t = true -> Q t (inl x)).
  { intros t x F V. apply clean in F as [F _]. rewrite F in V. destruct V. }
  assert (Q_skip : forall t t' r, forallb P t = true -> Q t' r -> Q (t ++ t') r).
  { intros t t' r F H V I. apply clean in F as [F1 F2].
    rewrite validations_app, F1 in V. rewrite errorMessages_app, F2.
    exact (H V I). }
  unfold TruffleCommands.deployContracts.
  pass P Q_stop Q_skip C L; intros _ past1.
  pass P Q_stop Q_skip C L; intros uri past2.
  pass P Q_stop Q_skip C L; intros T past3.
  pass P Q_stop Q_skip C L; intros Tr past4.
  pass P Q_stop Q_skip C L; intros command past5.
  pass P Q_stop Q_skip C L; intros _ past6.
  pass P Q_stop Q_skip C L; intros hasTruffle past7.
  pass P Q_stop Q_skip C L; intros _ past8.
  pass P Q_stop Q_skip C L; intros required past9.
  pass P Q_stop Q_skip C L; intros versionOk past10.
  pass P Q_stop Q_skip C L; intros _ past11.
  apply satisfies_bind. unfold satisfies at 1.
  rewrite validateOpenZeppelinContracts_run.
  destruct (env _ past11 validateContracts) as [e | l]; cbn [fst snd].
  - intros [].
  - destruct (existsb isInvalidContract l) eqn:El; cbn [fst snd].
    + intros V _.
      change (Called validateContracts (inr l) :: ?t)
        with ([Called validateContracts (inr l)] ++ t) in V |- *.
      rewrite !validations_app, validations_reports in V. simpl in V.
      destruct V as [<- | []]. split; [reflexivity |].
      rewrite !errorMessages_app, errorMessages_reports. reflexivity.
    + unfold satisfies, Q.
      match goal with
      | |- context [run env ?p ?h] =>
          assert (O : only (fun x => negb (isValidation x)) p);
          [ footprint; part C L | pose proof (only_run _ _ env h O) as F ]
      end.
      apply validations_none in F. intros V I.
      rewrite validations_app, F, app_nil_r in V.
      change (Called validateContracts (inr l) :: ?t)
        with ([Called validateContracts (inr l)] ++ t) in V.
      rewrite validations_app, validations_reports in V. simpl in V.
      destruct V as [<- | []]. congruence.
Qed.

(** X8: when the command truffle.deployContracts (that is
    [deployContracts] run through [tryExecute]) meets an invalid
    OpenZeppelin contract, the command ends normally and the user is shown
    the same error message twice: once by the validation and once by
    [tryExecute]. *)
Theorem deployContracts_command_shows_invalid_contracts_twice
  (T : Thrown) (env : Env) (past : Trace) (validated : list OZContractValidated) :
  In validated (validations (fst (run env (Extension.deployContracts T C L) past))) ->
  existsb isInvalidContract validated = true ->
  snd (run env (Extension.deployContracts T C L) past) = inr tt
  /\ errorMessages (fst (run env (Extension.deployContracts T C L) past)) =
     [validationMessages_openZeppelinFilesAreInvalid C
        (map contractPath (filter isInvalidContract validated));
      validationMessages_openZeppelinFilesAreInvalid C
        (map contractPath (filter isInvalidContract validated))].
Proof.
  unfold Extension.deployContracts, tryExecute.
  rewrite run_tryCatch, run_then_ret. cbn [fst snd].
  intros V I.
  assert (V' : In validated
                 (validations (fst (run env (TruffleCommands.deployContracts C L) past)))).
  { destruct (snd (run env (TruffleCommands.deployContracts C L) past)) as [e | u];
      cbn [fst snd] in V; [| exact V].
    rewrite validations_app in V. apply in_app_or in V as [V | V]; [exact V |].
    destruct (instanceofCancellationEvent T e); simpl in V; destruct V. }
  destruct (deployContracts_invalid_contracts_message env past validated V' I) as [R M].
  rewrite R. cbn [fst snd]. simpl instanceofCancellationEvent. cbv iota.
  split; [reflexivity |].
  rewrite errorMessages_app, M. reflexivity.
Qed.

End Validation.

(** ** The migration *)

Section Migration.

Variable C : ConstantsT.
Variable L : Library.

(** X10: in every run of [deployToNetwork] the only command executed is
    [npx <truffle> migrate --reset --network <networkName>] in the directory
    of the truffle configuration; it is executed only after
    [fs.ensureDir] of that directory completed; the contract database is
    refreshed only after the migration completed; and [deployToNetwork]
    returns normally exactly when that refresh completed. *)
Theorem deployToNetwork_migrates_in_order
  (networkName truffleConfigPath : string) (env : Env) (past : Trace) :
  forallb (fun e => negb (isExecuteCommand e)
                    || isMigration (path_dirname L truffleConfigPath)
                         (RequiredApps_truffle L) networkName e)
    (fst (run env (deployToNetwork C L networkName truffleConfigPath) past)) = true
  /\ precedes (ensuredDir (path_dirname L truffleConfigPath)) isExecuteCommand
       (fst (run env (deployToNetwork C L networkName truffleConfigPath) past))
  /\ precedes (migrated (path_dirname L truffleConfigPath) (RequiredApps_truffle L)
                 networkName)
       isUpdateContracts
       (fst (run env (deployToNetwork C L networkName truffleConfigPath) past))
  /\ (snd (run env (deployToNetwork C L networkName truffleConfigPath) past) = inr tt
      <-> existsb updatedContracts
            (fst (run env (deployToNetwork C L networkName truffleConfigPath) past))
          = true).
Proof.
  unfold deployToNetwork. rewrite run_emit, run_call.
  destruct (env _ _ (fs_ensureDir _)) as [e1 | u1]; cbn [fst snd].
  { repeat split; try reflexivity; try discriminate;
      apply precedes_none; reflexivity. }
  rewrite run_call.
  destruct (env _ _ (executeCommand _ _ _)) as [e2 | u2]; cbn [fst snd].
  { repeat split; try discriminate.
    - simpl. rewrite !String.eqb_refl. reflexivity.
    - apply precedes_cons_skip; [reflexivity |].
      apply precedes_cons_guard; [reflexivity |].
      simpl. rewrite String.eqb_refl. reflexivity.
    - apply precedes_none. reflexivity. }
  simpl run.
  destruct (env _ _ ContractDB_updateContracts) as [e3 | u3]; cbn [fst snd].
  - repeat split; try discriminate.
    + simpl. rewrite !String.eqb_refl. reflexivity.
    + apply precedes_cons_skip; [reflexivity |].
      apply precedes_cons_guard; [reflexivity |].
      simpl. rewrite String.eqb_refl. reflexivity.
    + apply precedes_cons_skip; [reflexivity |].
      apply precedes_cons_skip; [reflexivity |].
      apply precedes_cons_guard; [reflexivity |].
      unfold migrated. simpl. rewrite !String.eqb_refl. reflexivity.
  - destruct u3. repeat split; try reflexivity.
    + simpl. rewrite !String.eqb_refl. reflexivity.
    + apply precedes_cons_skip; [reflexivity |].
      apply precedes_cons_guard; [reflexivity |].
      simpl. rewrite String.eqb_refl. reflexivity.
    + apply precedes_cons_skip; [reflexivity |].
      apply precedes_cons_skip; [reflexivity |].
      apply precedes_cons_guard; [reflexivity |].
      unfold migrated. simpl. rewrite !String.eqb_refl. reflexivity.
Qed.

End Migration.

(** ** Destinations of the truffle configuration *)

Lemma app_split (A : Type) (l1 l2 a b : list A) :
  l1 ++ l2 = a ++ b -> List.length l1 <= List.length a ->
  exists k, a = l1 ++ k /\ l2 = k ++ b.
Proof.
  revert a. induction l1 as [| x l1 IH]; intros a E Len; simpl in *.
  - exists a. auto.
  - destruct a as [| y a]; simpl in *; [lia |].
    injection E as -> E. destruct (IH a E) as (k & -> & ->); [lia |].
    exists k. auto.
Qed.

Lemma string_app_nil_r (s : string) : (s ++ "")%string = s.
Proof. induction s; simpl; [reflexivity | rewrite IHs; reflexivity]. Qed.

Lemma digits_no_colon (n : N) :
  ~ In ":"%char (list_ascii_of_string (Number_toString n)).
Proof.
  unfold Number_toString.
  assert (H : forall u, ~ In ":"%char (list_ascii_of_string (NilEmpty.string_of_uint u))).
  { induction u; simpl; try tauto; intros [E | I]; try discriminate; auto. }
  destruct (N.to_uint n); try apply H. simpl. intros [E | []]. discriminate.
Qed.

Section ConfiguredNetworks.

Variable C : ConstantsT.
Variable L : Library.

Lemma getTruffleDeployFunction_returns
  (url name path : string) (id : NetworkId) (env : Env) (past : Trace) :
  exists ev,
    run env (getTruffleDeployFunction C url name path id) past =
    ([Did ev],
     inr (if String_match url (localGanacheRegexp C)
          then deployToLocalGanache_bound name path url
          else if isMainNetworkId id
               then deployToMainNetwork_bound name path
               else deployToNetwork_bound name path)).
Proof.
  unfold getTruffleDeployFunction.
  destruct (String_match url (localGanacheRegexp C)); [| destruct (isMainNetworkId id)];
    simpl; eauto.
Qed.

(** X11: when the truffle configuration hands over its networks,
    [getTruffleDeployDestinations] returns one destination per network, in
    order: labelled with the name of the network, described by its URL (the
    URL of the provider if that is a non-empty string, host and port
    otherwise), with its network id, the directory of the configuration as
    working directory, and the closure that [getTruffleDeployFunction]
    chooses for that URL and network id. *)
Theorem getTruffleDeployDestinations_one_per_network
  (path : string) (env : Env) (past : Trace) (networks : list INetwork) :
  env _ past (getNetworks path) = inr networks ->
  exists t dests,
    run env (getTruffleDeployDestinations C L path) past =
    (Called (getNetworks path) (inr networks) :: t, inr dests)
    /\ Forall2
         (fun d n =>
            dlabel d = name n
            /\ description d = Some (networkUrl (options n))
            /\ dnetworkId d = network_id (options n)
            /\ cwd d = Some (path_dirname L path)
            /\ detail d = Some "From truffle-config.js"
            /\ (LocalGanacheUrl (defaultLocalhostPort C) (networkUrl (options n)) ->
                cmd d = Deploy (deployToLocalGanache_bound (name n) path
                                  (networkUrl (options n))))
            /\ (~ LocalGanacheUrl (defaultLocalhostPort C) (networkUrl (options n)) ->
                MainNetworkId (network_id (options n)) ->
                cmd d = Deploy (deployToMainNetwork_bound (name n) path))
            /\ (~ LocalGanacheUrl (defaultLocalhostPort C) (networkUrl (options n)) ->
                ~ MainNetworkId (network_id (options n)) ->
                cmd d = Deploy (deployToNetwork_bound (name n) path)))
         dests networks.
Proof.
  intros E. unfold getTruffleDeployDestinations. rewrite run_call, E.
  set (past' := past ++ _). clearbody past'. clear E.
  enough (H : exists t dests,
             run env
               (mapM (fun network =>
                        f <- getTruffleDeployFunction C (networkUrl (options network))
                               (name network) path (network_id (options network)) ;;
                        Ret {| cmd := Deploy f;
                               cwd := Some (path_dirname L path);
                               description := Some (networkUrl (options network));
                               detail := Some "From truffle-config.js";
                               dlabel := name network;
                               dnetworkId := network_id (options network) |})
                     networks) past' = (t, inr dests)
             /\ Forall2
                  (fun d n =>
                     dlabel d = name n
                     /\ description d = Some (networkUrl (options n))
                     /\ dnetworkId d = network_id (options n)
                     /\ cwd d = Some (path_dirname L path)
                     /\ detail d = Some "From truffle-config.js"
                     /\ (LocalGanacheUrl (defaultLocalhostPort C) (networkUrl (options n)) ->
                         cmd d = Deploy (deployToLocalGanache_bound (name n) path
                                           (networkUrl (options n))))
                     /\ (~ LocalGanacheUrl (defaultLocalhostPort C)
                           (networkUrl (options n)) ->
                         MainNetworkId (network_id (options n)) ->
                         cmd d = Deploy (deployToMainNetwork_bound (name n) path))
                     /\ (~ LocalGanacheUrl (defaultLocalhostPort C)
                           (networkUrl (options n)) ->
                         ~ MainNetworkId (network_id (options n)) ->
                         cmd d = Deploy (deployToNetwork_bound (name n) path)))
                  dests networks).
  { destruct H as (t & dests & R & F). exists t, dests. rewrite R. auto. }
  revert past'. induction networks as [| n networks IH]; intros past'; simpl.
  - exists [], []. split; [reflexivity | constructor].
  - rewrite !run_bind.
    destruct (getTruffleDeployFunction_returns (networkUrl (options n)) (name n) path
                (network_id (options n)) env past') as (ev & R).
    rewrite R. simpl.
    destruct (IH (past' ++ [Did ev])) as (t & dests & Rt & F).
    rewrite run_bind, Rt. simpl.
    eexists _, _. split; [reflexivity |].
    constructor; [| exact F]. simpl.
    do 5 (split; [reflexivity |]).
    split; [| split].
    + intros H. apply String_match_localGanache in H. rewrite H. reflexivity.
    + intros H M. apply String_match_not_localGanache in H. rewrite H.
      apply isMainNetworkId_spec in M. rewrite M. reflexivity.
    + intros H M. apply String_match_not_localGanache in H. rewrite H.
      destruct (isMainNetworkId (network_id (options n))) eqn:E; [| reflexivity].
      apply isMainNetworkId_spec in E. contradiction.
Qed.

(** X12: a network of the configuration without provider, on host
    127.0.0.1 and on the default localhost port (not 0), gets the URL
    127.0.0.1:<port> and is deployed through [deployToLocalGanache],
    whatever its network id. *)
Theorem configured_loopback_network_is_local
  (o : INetworkOption) (name path : string) (env : Env) (past : Trace) :
  provider o = None ->
  host o = Some "127.0.0.1" ->
  port o = Some (defaultLocalhostPort C) ->
  defaultLocalhostPort C <> 0%N ->
  networkUrl o = ("127.0.0.1:" ++ Number_toString (defaultLocalhostPort C))%string
  /\ snd (run env (getTruffleDeployFunction C (networkUrl o) name path (network_id o)) past)
     = inr (deployToLocalGanache_bound name path (networkUrl o)).
Proof.
  intros Hp Hh Ho Hn.
  assert (U : networkUrl o
              = ("127.0.0.1:" ++ Number_toString (defaultLocalhostPort C))%string).
  { unfold networkUrl. rewrite Hp, Hh, Ho. unfold truthyN.
    apply N.eqb_neq in Hn. rewrite Hn. reflexivity. }
  split; [exact U |].
  rewrite getTruffleDeployFunction_local; [reflexivity |].
  rewrite U. apply String_match_localGanache.
  exists "", "", "."%char, "."%char, "."%char.
  repeat split; try discriminate.
  simpl. rewrite string_app_nil_r. reflexivity.
Qed.

Lemma localhost_is_not_local (url : string) (tail : list ascii) :
  list_ascii_of_string url = list_ascii_of_string "localhost" ++ tail ->
  (tail = [] \/ exists n, tail = ":"%char :: list_ascii_of_string (Number_toString n)) ->
  ~ LocalGanacheUrl (defaultLocalhostPort C) url.
Proof.
  intros U Htail (pre & post & a & b & c & _ & _ & _ & E).
  apply (f_equal list_ascii_of_string) in E. rewrite U in E.
  rewrite list_ascii_of_string_app in E. cbn [list_ascii_of_string append] in E.
  set (rest := list_ascii_of_string _) in E at 2.
  set (lp := list_ascii_of_string pre) in E.
  assert (E' : list_ascii_of_string "localhost" ++ tail =
               (lp ++ ["1"; "2"; "7"; a; "0"; b; "0"; c; "1"]%char) ++ ":"%char :: rest)
    by (rewrite <- app_assoc; exact E).
  clear E. rename E' into E.
  apply app_split in E.
  2:{ rewrite length_app. simpl. lia. }
  destruct E as (k & Ek & Et).
  assert (k = []) as ->.
  { destruct Htail as [-> | (n & ->)].
    - destruct k; discriminate.
    - destruct k as [| x k]; [reflexivity |]. simpl in Et. injection Et as _ Et.
      exfalso. apply (digits_no_colon n). rewrite Et. apply in_or_app. right. left.
      reflexivity. }
  rewrite app_nil_r in Ek.
  destruct lp as [| x lp]; simpl in Ek; [discriminate |].
  apply (f_equal (@List.length ascii)) in Ek. simpl in Ek.
  rewrite length_app in Ek. simpl in Ek. lia.
Qed.

(** X13: a network of the configuration without provider and on host
    localhost, whatever its port, is never deployed through
    [deployToLocalGanache]: its URL localhost[:port] is not recognised by
    the local-ganache pattern, so only its network id decides between
    [deployToMainNetwork] and [deployToNetwork]. *)
Theorem configured_localhost_network_is_not_local
  (o : INetworkOption) (name path : string) (env : Env) (past : Trace) :
  provider o = None ->
  host o = Some "localhost" ->
  ~ LocalGanacheUrl (defaultLocalhostPort C) (networkUrl o)
  /\ snd (run env (getTruffleDeployFunction C (networkUrl o) name path (network_id o)) past)
     = inr (if isMainNetworkId (network_id o)
            then deployToMainNetwork_bound name path
            else deployToNetwork_bound name path).
Proof.
  intros Hp Hh.
  assert (N : ~ LocalGanacheUrl (defaultLocalhostPort C) (networkUrl o)).
  { unfold networkUrl. rewrite Hp, Hh. cbn [orElse truthy String.eqb negb].
    change (if truthy "localhost" then "localhost" else "") with "localhost".
    destruct (port o) as [p |]; [destruct (truthyN p) |].
    - apply localhost_is_not_local
        with (tail := ":"%char :: list_ascii_of_string (Number_toString p)).
      + reflexivity.
      + right. exists p. reflexivity.
    - apply localhost_is_not_local with (tail := []); [reflexivity | left; reflexivity].
    - apply localhost_is_not_local with (tail := []); [reflexivity | left; reflexivity]. }
  split; [exact N |].
  apply String_match_not_localGanache in N.
  destruct (getTruffleDeployFunction_returns (networkUrl o) name path (network_id o)
              env past) as (ev & R).
  rewrite R, N. reflexivity.
Qed.

End ConfiguredNetworks.

(** ** Edge cases of the private-key command *)

Lemma only_tryCatch (P : Entry -> bool) (A : Type) (p : prog A) (h : Exn -> prog A) :
  only P p -> (forall e, only P (h e)) -> only P (tryCatch p h).
Proof.
  intros Hp Hh. induction p as [a | e | e k IH | X c k IH]; simpl in *.
  - exact I.
  - apply Hh.
  - destruct Hp. split; auto.
  - intros a. destruct (Hp a). split; auto.
Qed.

(** [footprint] for programs with a [try] block. *)
Ltac footprint_try :=
  repeat first [ apply only_tryCatch; [| intro] | progress footprint ].

Lemma rejectedWrite_is_write (e : Entry) :
  rejectedWrite e = true -> isClipboardWrite e = true.
Proof.
  destruct e as [| X c a]; [discriminate |]. destruct c; try discriminate. reflexivity.
Qed.

Section PrivateKey.

Variable C : ConstantsT.
Variable L : Library.

(** X14: when no mnemonic path is saved, [getPrivateKeyFromMnemonic]
    shows the there-are-no-mnemonics error and returns: it opens no quick
    pick, writes nothing to the clipboard and does not report
    commandFinished. *)
Theorem getPrivateKeyFromMnemonic_without_mnemonics (env : Env) (past : Trace) :
  env _ (past ++ [Did (Telemetry_sendEvent
                         "TruffleCommands.getPrivateKeyFromMnemonic.commandStarted" [])])
    getExistedMnemonicPaths = inr [] ->
  run env (TruffleCommands.getPrivateKeyFromMnemonic C L) past =
  ([Did (Telemetry_sendEvent
           "TruffleCommands.getPrivateKeyFromMnemonic.commandStarted" []);
    Called getExistedMnemonicPaths (inr []);
    Did (Telemetry_sendEvent
           "TruffleCommands.getPrivateKeyFromMnemonic.thereAreNoMnemonics" []);
    Did (window_showErrorMessage (errorMessageStrings_ThereAreNoMnemonics C))],
   inr tt).
Proof.
  intros E. unfold TruffleCommands.getPrivateKeyFromMnemonic, TruffleCommands.mnemonicItems.
  simpl. rewrite E. reflexivity.
Qed.

(** X15: when the mnemonic that the user picked has an empty text,
    [getPrivateKeyFromMnemonic] shows the mnemonic-file-has-no-text error
    and returns normally; nothing is written to the clipboard and
    commandFinished is not reported. *)
Theorem getPrivateKeyFromMnemonic_with_empty_text
  (env : Env) (past : Trace) (item : IExtendedQuickPickItem) :
  In item (pickedMnemonics
             (fst (run env (TruffleCommands.getPrivateKeyFromMnemonic C L) past))) ->
  extended item = "" ->
  snd (run env (TruffleCommands.getPrivateKeyFromMnemonic C L) past) = inr tt
  /\ clipboardWrites (fst (run env (TruffleCommands.getPrivateKeyFromMnemonic C L) past))
     = []
  /\ shows (window_showErrorMessage (errorMessageStrings_MnemonicFileHaveNoText C))
       (fst (run env (TruffleCommands.getPrivateKeyFromMnemonic C L) past))
  /\ existsb (isEvent "TruffleCommands.getPrivateKeyFromMnemonic.commandFinished")
       (fst (run env (TruffleCommands.getPrivateKeyFromMnemonic C L) past)) = false.
Proof.
  set (finished := isEvent "TruffleCommands.getPrivateKeyFromMnemonic.commandFinished").
  set (P := fun x => silent x && negb (finished x)).
  set (Q := fun (t : Trace) (r : Exn + unit) =>
              In item (pickedMnemonics t) ->
              extended item = "" ->
              r = inr tt
              /\ clipboardWrites t = []
              /\ shows (window_showErrorMessage
                          (errorMessageStrings_MnemonicFileHaveNoText C)) t
              /\ existsb finished t = false).
  change (satisfies env (TruffleCommands.getPrivateKeyFromMnemonic C L) past Q).
  assert (clean : forall t, forallb P t = true ->
                            pickedMnemonics t = [] /\ clipboardWrites t = []
                            /\ existsb finished t = false).
  { intros t F. apply forallb_and in F as [F1 F2].
    repeat split; [apply silent_no_pick | apply silent_no_write | apply existsb_none];
      assumption. }
  assert (Q_none : forall t r, forallb P t = true -> Q t r).
  { intros t r F V. apply clean in F as (F & _). rewrite F in V. destruct V. }
  assert (Q_stop : forall t x, forallb P t = true -> Q t (inl x)).
  { intros t x. apply Q_none. }
  assert (Q_skip : forall t t' r, forallb P t = true -> Q t' r -> Q (t ++ t') r).
  { intros t t' r F H V N. apply clean in F as (F1 & F2 & F3).
    rewrite pickedMnemonics_app, F1 in V.
    destruct (H V N) as (-> & W & S & E).
    rewrite clipboardWrites_app, F2, W, existsb_app, F3, E.
    repeat split. unfold shows. apply in_or_app. right. exact S. }
  unfold TruffleCommands.getPrivateKeyFromMnemonic.
  eapply satisfies_after with (P := P);
    [exact Q_stop | exact Q_skip | footprint | intros _ past1].
  eapply satisfies_after with (P := P);
    [exact Q_stop | exact Q_skip | unfold TruffleCommands.mnemonicItems; footprint
    | intros items past2].
  destruct (Nat.eqb (List.length items) 0).
  { apply satisfies_only with (P := P); [footprint | intros t r; apply Q_none]. }
  apply satisfies_bind. apply satisfies_call.
  { intros e V. destruct V. }
  intros x. set (here := past2 ++ _).
  destruct (truthy (extended x)) eqn:Tx; simpl negb; cbv iota.
  - (* the text is not empty: the item picked is not [item] *)
    unfold satisfies.
    match goal with
    | |- context [run env ?p here] =>
        assert (O : only (fun e => negb (isMnemonicPick e)) p);
        [ unfold TruffleCommands.copyPrivateKey; footprint_try
        | pose proof (only_run _ _ env here O) as F ]
    end.
    apply pickedMnemonics_none in F.
    intros V N. rewrite pickedMnemonics_app, F in V. simpl in V.
    destruct V as [<- | []]. unfold truthy in Tx. rewrite N in Tx. discriminate.
  - unfold satisfies. simpl. intros _ _.
    repeat split. unfold shows. simpl. auto.
Qed.

(** X16: once the user has picked a mnemonic,
    [getPrivateKeyFromMnemonic] returns normally whatever happens in its
    [try] block; in particular a rejected write to the clipboard is caught
    there and shown to the user as the invalid-mnemonic error. *)
Theorem getPrivateKeyFromMnemonic_swallows_failures (env : Env) (past : Trace) :
  (pickedMnemonics (fst (run env (TruffleCommands.getPrivateKeyFromMnemonic C L) past))
   <> [] ->
   snd (run env (TruffleCommands.getPrivateKeyFromMnemonic C L) past) = inr tt)
  /\ (existsb rejectedWrite
        (fst (run env (TruffleCommands.getPrivateKeyFromMnemonic C L) past)) = true ->
      shows (window_showErrorMessage (errorMessageStrings_InvalidMnemonic C))
        (fst (run env (TruffleCommands.getPrivateKeyFromMnemonic C L) past))).
Proof.
  set (Q := fun (t : Trace) (r : Exn + unit) =>
              (pickedMnemonics t <> [] -> r = inr tt)
              /\ (existsb rejectedWrite t = true ->
                  shows (window_showErrorMessage
                           (errorMessageStrings_InvalidMnemonic C)) t)).
  change (satisfies env (TruffleCommands.getPrivateKeyFromMnemonic C L) past Q).
  assert (clean : forall t, forallb silent t = true ->
                            pickedMnemonics t = [] /\ existsb rejectedWrite t = false).
  { intros t F. split; [apply silent_no_pick; exact F |].
    apply existsb_none. revert F. apply forallb_impl. intros x Hx.
    destruct (rejectedWrite x) eqn:W; [| reflexivity].
    apply rejectedWrite_is_write in W. unfold silent in Hx. rewrite W in Hx. discriminate. }
  assert (Q_none : forall t r, forallb silent t = true -> Q t r).
  { intros t r F. apply clean in F as [F1 F2]. split.
    - rewrite F1. congruence.
    - rewrite F2. discriminate. }
  assert (Q_stop : forall t x, forallb silent t = true -> Q t (inl x)).
  { intros t x. apply Q_none. }
  assert (Q_skip : forall t t' r, forallb silent t = true -> Q t' r -> Q (t ++ t') r).
  { intros t t' r F [H1 H2]. apply clean in F as [F1 F2]. split.
    - rewrite pickedMnemonics_app, F1. exact H1.
    - rewrite existsb_app, F2. simpl. intros H. unfold shows. apply in_or_app.
      right. exact (H2 H). }
  unfold TruffleCommands.getPrivateKeyFromMnemonic.
  eapply satisfies_after with (P := silent);
    [exact Q_stop | exact Q_skip | footprint | intros _ past1].
  eapply satisfies_after with (P := silent);
    [exact Q_stop | exact Q_skip | unfold TruffleCommands.mnemonicItems; footprint
    | intros items past2].
  destruct (Nat.eqb (List.length items) 0).
  { apply satisfies_only with (P := silent); [footprint | intros t r; apply Q_none]. }
  apply satisfies_bind. apply satisfies_call.
  { intros e. split; [intros H; exfalso; apply H; reflexivity | discriminate]. }
  intros x.
  apply satisfies_weaken
    with (Q1 := fun t r =>
                  r = inr tt
                  /\ (existsb rejectedWrite t = true ->
                      shows (window_showErrorMessage
                               (errorMessageStrings_InvalidMnemonic C)) t)).
  2:{ intros t r [-> H]. split; [reflexivity |].
      simpl. intros W. unfold shows. right. exact (H W). }
  destruct (truthy (extended x)); simpl negb; cbv iota.
  2:{ unfold satisfies. simpl. split; [reflexivity | discriminate]. }
  unfold TruffleCommands.copyPrivateKey, satisfies, shows.
  destruct (bip39_mnemonicToSeed L (extended x)) as [e1 | seed]; simpl;
    [split; [reflexivity | discriminate] |].
  destruct (hdkey_fromMasterSeed L seed) as [e2 | key]; simpl;
    [split; [reflexivity | discriminate] |].
  destruct (hdkey_derive L key "m/44'/60'/0'/0/0") as [e3 | childKey]; simpl;
    [split; [reflexivity | discriminate] |].
  destruct (hdkey_privateKey L childKey) as [privateKey |]; simpl;
    [| split; [reflexivity | discriminate]].
  answer env.
  - split; [reflexivity |]. intros _. auto.
  - split; [reflexivity | discriminate].
Qed.

End PrivateKey.

(** ** A new deployment service *)

Section NewService.

Variable C : ConstantsT.
Variable L : Library.



End NewService.

(** ** Closures of the tree destinations *)

Section TreeClosures.

Variable C : ConstantsT.


End TreeClosures.

(** ** The commands on the files of the workspace *)

Module WorkspaceFacts.

Import Workspace.

Section Values.

Variable V : Set.
Variable F : Files V.
Variable L : Library.

Lemma comesAfterb_sound (guard step : WEntry V -> bool) (t : list (WEntry V)) :
  comesAfterb guard step t = true -> comesAfter guard step t.
Proof.
  induction t as [| x t IH]; intros G before e after E S.
  - destruct before; discriminate.
  - simpl in G. destruct before as [| b before]; simpl in E; injection E as -> ->.
    + rewrite S in G. discriminate.
    + simpl. destruct (step b); [discriminate |].
      destruct (guard b); [reflexivity |].
      simpl. exact (IH G before e after eq_refl S).
Qed.

(** Destructs the answers of the environment along a run. *)
Ltac wanswer env :=
  match goal with
  | |- context [env ?X ?p ?c] =>
      let a := fresh "a" in
      destruct (env X p c) as [a | a]; simpl
  end.

(** X19: for a file whose extension is not the one of compiled
    contracts (.json), [readCompiledContract], [writeAbiToBuffer] and
    [writeBytecodeToBuffer] throw the invalid-contract error after
    reporting it to the telemetry: the file is not read and nothing is
    handed to the clipboard. *)
Theorem copy_refused_for_other_extensions (uri : string) (env : WEnv V)
  (past : list (WEntry V)) :
  path_extname F uri <> contractExtension_json F ->
  wrun env (readCompiledContract F uri) past =
    ([WDid (notify (Telemetry_sendException
                      (JsError (errorMessageStrings_InvalidContract F))))],
     inl (JsError (errorMessageStrings_InvalidContract F)))
  /\ wrun env (writeAbiToBuffer F uri) past =
     ([WDid (notify (Telemetry_sendEvent
                       "TruffleCommands.writeAbiToBuffer.commandStarted" []));
       WDid (notify (Telemetry_sendException
                       (JsError (errorMessageStrings_InvalidContract F))))],
      inl (JsError (errorMessageStrings_InvalidContract F)))
  /\ wrun env (writeBytecodeToBuffer F uri) past =
     ([WDid (notify (Telemetry_sendEvent
                       "TruffleCommands.writeBytecodeToBuffer.commandStarted" []));
       WDid (notify (Telemetry_sendException
                       (JsError (errorMessageStrings_InvalidContract F))))],
      inl (JsError (errorMessageStrings_InvalidContract F))).
Proof.
  intros H. apply String.eqb_neq in H.
  unfold writeAbiToBuffer, writeBytecodeToBuffer, readCompiledContract.
  rewrite H. repeat split; reflexivity.
Qed.

(** X20: whatever [writeAbiToBuffer] hands to the clipboard is
    [JSON.stringify] of the abi property of the contract parsed from the
    text read from the file, and whatever [writeBytecodeToBuffer] hands to
    it is the bytecode property itself; each writes at most once, and only
    for a file with the extension of compiled contracts. *)
Theorem copy_commands_write_what_they_read (uri : string) (env : WEnv V)
  (past : list (WEntry V)) :
  (forall v,
      In v (clipboardValues (fst (wrun env (writeAbiToBuffer F uri) past))) ->
      path_extname F uri = contractExtension_json F
      /\ clipboardValues (fst (wrun env (writeAbiToBuffer F uri) past)) = [v]
      /\ exists data contract abi,
           In data (textsRead uri (fst (wrun env (writeAbiToBuffer F uri) past)))
           /\ JSON_parse F data = inr contract
           /\ getProperty F contract (contractProperties_abi F) = inr abi
           /\ v = JSON_stringify F abi)
  /\
  (forall v,
      In v (clipboardValues (fst (wrun env (writeBytecodeToBuffer F uri) past))) ->
      path_extname F uri = contractExtension_json F
      /\ clipboardValues (fst (wrun env (writeBytecodeToBuffer F uri) past)) = [v]
      /\ exists data contract,
           In data (textsRead uri (fst (wrun env (writeBytecodeToBuffer F uri) past)))
           /\ JSON_parse F data = inr contract
           /\ getProperty F contract (contractProperties_bytecode F) = inr v).
Proof.
  unfold writeAbiToBuffer, writeBytecodeToBuffer, readCompiledContract.
  split; intros v;
    (destruct (String.eqb (path_extname F uri) (contractExtension_json F)) eqn:Ext;
     simpl; [| intros []]);
    apply String.eqb_eq in Ext;
    (wanswer env; [intros [] |]);
    (destruct (JSON_parse F a) as [e | contract] eqn:Ep; simpl; [intros [] |]);
    (destruct (getProperty F contract _) as [e | p] eqn:Eg; simpl; [intros [] |]);
    wanswer env; intros [<- | []];
    (split; [exact Ext |]); (split; [reflexivity |]);
    rewrite String.eqb_refl; simpl; eauto 10.
Qed.

(** X21: [writeAbiToBuffer] and [writeBytecodeToBuffer] report
    commandFinished exactly when they return normally, and they return
    normally only when something was handed to the clipboard. *)
Theorem copy_commands_finish_after_writing (uri : string) (env : WEnv V)
  (past : list (WEntry V)) :
  (existsb (isWEvent "TruffleCommands.writeAbiToBuffer.commandFinished")
     (fst (wrun env (writeAbiToBuffer F uri) past)) = true
   <-> snd (wrun env (writeAbiToBuffer F uri) past) = inr tt)
  /\ (snd (wrun env (writeAbiToBuffer F uri) past) = inr tt ->
      clipboardValues (fst (wrun env (writeAbiToBuffer F uri) past)) <> [])
  /\ (existsb (isWEvent "TruffleCommands.writeBytecodeToBuffer.commandFinished")
        (fst (wrun env (writeBytecodeToBuffer F uri) past)) = true
      <-> snd (wrun env (writeBytecodeToBuffer F uri) past) = inr tt)
  /\ (snd (wrun env (writeBytecodeToBuffer F uri) past) = inr tt ->
      clipboardValues (fst (wrun env (writeBytecodeToBuffer F uri) past)) <> []).
Proof.
  unfold writeAbiToBuffer, writeBytecodeToBuffer, readCompiledContract.
  destruct (String.eqb (path_extname F uri) (contractExtension_json F)); simpl.
  2:{ repeat split; discriminate. }
  repeat match goal with |- _ /\ _ => split end;
    repeat match goal with
           | |- context [env ?X ?p ?c] => destruct (env X p c); simpl
           | |- context [JSON_parse F ?d] => destruct (JSON_parse F d); simpl
           | |- context [getProperty F ?c ?k] => destruct (getProperty F c k); simpl
           end;
    try split; intros; try discriminate; reflexivity.
Qed.

(** X22: in every run of [buildContracts], truffle is installed only
    after the silent check answered that it is missing; a command is
    executed only after the check found truffle or its installation
    completed; the only command executed is [npx <truffle> compile] in the
    directory that [getWorkspaceRoot] answered; and commandFinished is
    reported exactly when [buildContracts] returns normally. *)
Theorem buildContracts_compiles_when_truffle_is_ready (env : WEnv V)
  (past : list (WEntry V)) :
  comesAfter (@truffleMissing V) (@isWInstallTruffle V)
    (fst (wrun env (buildContracts F L) past))
  /\ comesAfter (@truffleReady V) (@isCompile V)
       (fst (wrun env (buildContracts F L) past))
  /\ (forall c,
         In c (commandsExecuted (fst (wrun env (buildContracts F L) past))) ->
         exists root,
           In root (workspaceRoots (fst (wrun env (buildContracts F L) past)))
           /\ c = (root, "npx", [RequiredApps_truffle L; "compile"]))
  /\ (existsb (isWEvent "TruffleCommands.buildContracts.commandFinished")
        (fst (wrun env (buildContracts F L) past)) = true
      <-> snd (wrun env (buildContracts F L) past) = inr tt).
Proof.
  unfold buildContracts. simpl.
  wanswer env.
  { repeat split; try discriminate;
      try (apply comesAfterb_sound; reflexivity).
    intros c []. }
  destruct a; simpl.
  - (* truffle is there *)
    wanswer env.
    { repeat split; try discriminate;
        try (apply comesAfterb_sound; reflexivity).
      intros c []. }
    wanswer env.
    + repeat split; try discriminate;
        try (apply comesAfterb_sound; reflexivity).
      intros c [<- | []]. eexists. split; [simpl; left; reflexivity | reflexivity].
    + repeat split; try reflexivity;
        try (apply comesAfterb_sound; reflexivity).
      intros c [<- | []]. eexists. split; [simpl; left; reflexivity | reflexivity].
  - (* truffle is missing *)
    wanswer env.
    { repeat split; try discriminate;
        try (apply comesAfterb_sound; reflexivity).
      intros c []. }
    wanswer env.
    { repeat split; try discriminate;
        try (apply comesAfterb_sound; reflexivity).
      intros c []. }
    wanswer env.
    + repeat split; try discriminate;
        try (apply comesAfterb_sound; reflexivity).
      intros c [<- | []]. eexists. split; [simpl; left; reflexivity | reflexivity].
    + repeat split; try reflexivity;
        try (apply comesAfterb_sound; reflexivity).
      intros c [<- | []]. eexists. split; [simpl; left; reflexivity | reflexivity].
Qed.

End Values.

End WorkspaceFacts.

(** ** The further properties on the sample host *)

Lemma deployContracts_cancelled_pick_does_nothing_witness :
  snd (run (Sample.env Sample2.dismissed)
         (TruffleCommands.deployContracts Sample.constants Sample.library) []) =
  inl Sample.cancelled.
Proof.
  refine (proj1 (deployContracts_cancelled_pick_does_nothing
                   Sample.constants Sample.library
                   (Sample.env Sample2.dismissed) [] Sample.cancelled _)).
  vm_compute. left. reflexivity.
Defined.

Lemma deployContracts_installs_truffle_when_missing_witness :
  existsb isInstallTruffle
    (fst (run (Sample2.withoutTruffle Sample.twoNames)
            (TruffleCommands.deployContracts Sample.constants Sample.library) [])) = true.
Proof.
  apply (proj2 (deployContracts_installs_truffle_when_missing
                  Sample.constants Sample.library
                  (Sample2.withoutTruffle Sample.twoNames) [])).
  vm_compute. reflexivity.
Defined.

Lemma deployContracts_installs_provider_when_outdated_witness :
  existsb isInstallHdWalletProvider
    (fst (run (Sample2.outdatedProvider Sample.twoNames)
            (TruffleCommands.deployContracts Sample.constants Sample.library) [])) = true.
Proof.
  apply (proj2 (proj2 (deployContracts_installs_provider_when_outdated
                         Sample.constants Sample.library
                         (Sample2.outdatedProvider Sample.twoNames) []))).
  vm_compute. reflexivity.
Defined.

Lemma validateOpenZeppelinContracts_reports_then_decides_witness :
  snd (run (Sample.env Sample.changedContract)
         (validateOpenZeppelinContracts Sample.constants) []) =
  inl (JsError "OpenZeppelin files are invalid: contracts/ERC20.sol").
Proof.
  exact (f_equal snd
           (proj2 (validateOpenZeppelinContracts_reports_then_decides
                     Sample.constants (Sample.env Sample.changedContract) []
                     (l := Sample.contracts Sample.changedContract) eq_refl)
                  eq_refl)).
Defined.

Lemma deployContracts_command_shows_invalid_contracts_twice_witness :
  errorMessages
    (fst (run (Sample.env Sample.changedContract)
            (Extension.deployContracts Sample2.thrown Sample.constants Sample.library)
            [])) =
  ["OpenZeppelin files are invalid: contracts/ERC20.sol";
   "OpenZeppelin files are invalid: contracts/ERC20.sol"].
Proof.
  refine (proj2 (deployContracts_command_shows_invalid_contracts_twice
                   Sample.constants Sample.library Sample2.thrown
                   (Sample.env Sample.changedContract) []
                   (Sample.contracts Sample.changedContract) _ eq_refl)).
  vm_compute. left. reflexivity.
Defined.

Lemma deployContracts_command_cancelled_silently_witness :
  run (Sample.env Sample2.dismissed)
      (Extension.deployContracts Sample2.thrown Sample.constants Sample.library) [] =
  (fst (run (Sample.env Sample2.dismissed)
          (TruffleCommands.deployContracts Sample.constants Sample.library) []),
   inr tt)
  /\ errorMessages
       (fst (run (Sample.env Sample2.dismissed)
               (Extension.deployContracts Sample2.thrown Sample.constants Sample.library)
               [])) = [].
Proof.
  split; [vm_compute; reflexivity |].
  refine (proj1 (proj2 (deployContracts_command_cancelled_silently
                          Sample.constants Sample.library Sample2.thrown
                          (Sample.env Sample2.dismissed) [] Sample.cancelled _ eq_refl))).
  vm_compute. left. reflexivity.
Defined.

Lemma getTruffleDeployDestinations_one_per_network_witness :
  exists t dests,
    run (Sample.env Sample.twoNames)
        (getTruffleDeployDestinations Sample.constants Sample.library Sample.configPath)
        [] =
    (Called (getNetworks Sample.configPath) (inr (Sample.networks Sample.twoNames)) :: t,
     inr dests)
    /\ List.length dests = 2.
Proof.
  destruct (getTruffleDeployDestinations_one_per_network
              Sample.constants Sample.library Sample.configPath
              (Sample.env Sample.twoNames) [] eq_refl) as (t & dests & R & F).
  exists t, dests. split; [exact R |].
  exact (Forall2_length F).
Defined.

Lemma configured_loopback_network_is_local_witness :
  networkUrl Sample2.loopback = "127.0.0.1:8545"
  /\ snd (run (Sample.env Sample.quiet)
            (getTruffleDeployFunction Sample.constants (networkUrl Sample2.loopback)
               "development" Sample.configPath (IdNumber 1)) []) =
     inr (deployToLocalGanache_bound "development" Sample.configPath "127.0.0.1:8545").
Proof.
  refine (configured_loopback_network_is_local Sample.constants Sample2.loopback
            "development" Sample.configPath (Sample.env Sample.quiet) []
            eq_refl eq_refl eq_refl _).
  discriminate.
Defined.

Lemma configured_localhost_network_is_not_local_witness :
  snd (run (Sample.env Sample.quiet)
         (getTruffleDeployFunction Sample.constants (networkUrl Sample2.localhost)
            "development" Sample.configPath (IdString "*")) []) =
  inr (deployToNetwork_bound "development" Sample.configPath).
Proof.
  exact (proj2 (configured_localhost_network_is_not_local Sample.constants
                  Sample2.localhost "development" Sample.configPath
                  (Sample.env Sample.quiet) [] eq_refl eq_refl)).
Defined.

Lemma getPrivateKeyFromMnemonic_without_mnemonics_witness :
  snd (run (Sample.env Sample.quiet)
         (TruffleCommands.getPrivateKeyFromMnemonic Sample.constants Sample.library) []) =
  inr tt.
Proof.
  exact (f_equal snd
           (getPrivateKeyFromMnemonic_without_mnemonics Sample.constants Sample.library
              (Sample.env Sample.quiet) [] eq_refl)).
Defined.

Lemma getPrivateKeyFromMnemonic_with_empty_text_witness :
  clipboardWrites
    (fst (run (Sample.env Sample2.emptyMnemonic)
            (TruffleCommands.getPrivateKeyFromMnemonic Sample.constants Sample.library)
            [])) = [].
Proof.
  refine (proj1 (proj2 (getPrivateKeyFromMnemonic_with_empty_text
                          Sample.constants Sample.library
                          (Sample.env Sample2.emptyMnemonic) [] Sample2.emptyItem
                          _ eq_refl))).
  vm_compute. left. reflexivity.
Defined.

Lemma getPrivateKeyFromMnemonic_swallows_failures_witness :
  shows (window_showErrorMessage "Invalid mnemonic")
    (fst (run (Sample2.lockedClipboard Sample.oneMnemonic)
            (TruffleCommands.getPrivateKeyFromMnemonic Sample.constants Sample.library)
            [])).
Proof.
  apply (proj2 (getPrivateKeyFromMnemonic_swallows_failures
                  Sample.constants Sample.library
                  (Sample2.lockedClipboard Sample.oneMnemonic) [])).
  vm_compute. reflexivity.
Defined.



Lemma copy_refused_for_other_extensions_witness :
  snd (Workspace.wrun (Sample2.wenv true)
         (Workspace.writeAbiToBuffer Sample2.files "contracts/Token.sol") []) =
  inl (JsError "This file is not a valid contract").
Proof.
  refine (f_equal snd
            (proj1 (proj2 (WorkspaceFacts.copy_refused_for_other_extensions
                             Sample2.files "contracts/Token.sol" (Sample2.wenv true) []
                             _)))).
  discriminate.
Defined.

Lemma copy_commands_write_what_they_read_witness :
  Workspace.clipboardValues
    (fst (Workspace.wrun (Sample2.wenv true)
            (Workspace.writeAbiToBuffer Sample2.files "build/contracts/Token.json") []))
  = ["stringify(contract.abi)"]
  /\ Workspace.clipboardValues
       (fst (Workspace.wrun (Sample2.wenv true)
               (Workspace.writeBytecodeToBuffer Sample2.files
                  "build/contracts/Token.json") []))
     = ["contract.bytecode"].
Proof.
  split.
  - refine (proj1 (proj2 (proj1 (WorkspaceFacts.copy_commands_write_what_they_read
                                   Sample2.files "build/contracts/Token.json"
                                   (Sample2.wenv true) [])
                                "stringify(contract.abi)" _))).
    vm_compute. left. reflexivity.
  - refine (proj1 (proj2 (proj2 (WorkspaceFacts.copy_commands_write_what_they_read
                                   Sample2.files "build/contracts/Token.json"
                                   (Sample2.wenv true) [])
                                "contract.bytecode" _))).
    vm_compute. left. reflexivity.
Defined.

Lemma copy_commands_finish_after_writing_witness :
  snd (Workspace.wrun (Sample2.wenv true)
         (Workspace.writeAbiToBuffer Sample2.files "build/contracts/Token.json") [])
  = inr tt.
Proof.
  apply (proj1 (proj1 (WorkspaceFacts.copy_commands_finish_after_writing
                         Sample2.files "build/contracts/Token.json"
                         (Sample2.wenv true) []))).
  vm_compute. reflexivity.
Defined.

Lemma buildContracts_compiles_when_truffle_is_ready_witness :
  Workspace.commandsExecuted
    (fst (Workspace.wrun (Sample2.wenv false)
            (Workspace.buildContracts Sample2.files Sample.library) []))
  = [("/ws", "npx", ["truffle"; "compile"])]
  /\ snd (Workspace.wrun (Sample2.wenv false)
            (Workspace.buildContracts Sample2.files Sample.library) []) = inr tt.
Proof.
  split; [vm_compute; reflexivity |].
  apply (proj2 (proj2 (proj2 (WorkspaceFacts.buildContracts_compiles_when_truffle_is_ready
                                Sample2.files Sample.library (Sample2.wenv false) [])))).
  vm_compute. reflexivity.
Defined.
